(** * The chat handler of a game session (chatter.py)

    A shallow embedding of class [Chatter]: the command dispatcher, the
    room registry of the evaluation broadcast, the template formatter and
    the length-bounded builder of the principal-variation (PV) message.

    Conventions of the embedding.
    - A Python [str] is a [string]; every [ascii] stands for one character
      (code points 0 to 255), so [String.length] is Python's [len].
    - A Python [int] is a [Z]; the float [own_time] is a rational [Q]
      (every finite float is one, and the source only compares it).
    - The chess board is python-chess's [chess.Board], which is not part of
      this repository: its operations are the fields of the class
      [ChessBoard] below, and board objects live in a store addressed by
      locations, so that mutation through an alias is visible.
    - The coroutines run one at a time; they are functions of a state monad
      over [World], which holds the chatter object, the board store, the
      messages handed to the API, the lines printed and the random source. *)

From Stdlib Require Import ZArith QArith Strings.String Strings.Ascii.
From Stdlib Require Import Numbers.DecimalString.
From stdpp Require Import gmap strings list.



(** ** Python's string operations used by the module *)

Module PyStr.

(** [str(n)] and [f'{n}'] for an integer. *)
Definition of_int (n : Z) : string := NilZero.string_of_int (Z.to_int n).

(** [s.startswith('!')]. *)
Definition startswith_bang (s : string) : bool :=
  match s with
  | String c _ => Ascii.eqb c "!"
  | EmptyString => false
  end.

(** [s[n:]] and [s[:n]] for [n >= 0]. *)
Fixpoint drop (n : nat) (s : string) : string :=
  match n, s with
  | S k, String _ t => drop k t
  | _, _ => s
  end.

Fixpoint take (n : nat) (s : string) : string :=
  match n, s with
  | S k, String c t => String c (take k t)
  | _, _ => EmptyString
  end.

(** [n * ' ']. *)
Fixpoint spaces (n : nat) : string :=
  match n with
  | O => EmptyString
  | S k => String " " (spaces k)
  end.

(** [c.lower()] on the characters of the model: the letters A-Z and the
    upper-case letters of Latin-1 move 32 places up. *)
Definition lower_char (c : ascii) : ascii :=
  let n := N_of_ascii c in
  if ((65 <=? n) && (n <=? 90))%N
     || ((192 <=? n) && (n <=? 222) && negb (n =? 215))%N
  then ascii_of_N (n + 32)
  else c.

Fixpoint lower (s : string) : string :=
  match s with
  | EmptyString => EmptyString
  | String c t => String (lower_char c) (lower t)
  end.

(** [c.isspace()]: tab to carriage return, the four separators 28-31,
    the space, NEL and the no-break space. *)
Definition isspace (c : ascii) : bool :=
  let n := N_of_ascii c in
  (((9 <=? n) && (n <=? 13)) || ((28 <=? n) && (n <=? 32))
   || (n =? 133) || (n =? 160))%N.

(** [s.split()]: the maximal runs of characters that are not spaces.
    [cur] is the run being read. *)
Fixpoint split_from (cur : string) (s : string) : list string :=
  match s with
  | EmptyString => if String.eqb cur "" then [] else [cur]
  | String c t =>
      if isspace c
      then (if String.eqb cur "" then split_from "" t
            else cur :: split_from "" t)
      else split_from (cur +:+ String c "") t
  end.

Definition split (s : string) : list string := split_from "" s.

(** [sep.join(l)]. *)
Definition join (sep : string) (l : list string) : string :=
  String.concat sep l.

(** [s.replace(old, new)] for a non-empty [old]: the occurrences of
    [old] are replaced from left to right, without overlap. [skip]
    counts the characters of a replaced occurrence still to be passed. *)
Fixpoint replace_from (old new : string) (skip : nat) (s : string) : string :=
  match s with
  | EmptyString => EmptyString
  | String c t =>
      match skip with
      | S k => replace_from old new k t
      | O =>
          if String.prefix old s
          then new +:+ replace_from old new (String.length old - 1) t
          else String c (replace_from old new 0 t)
      end
  end.

Definition replace (old new s : string) : string := replace_from old new 0 s.

(** Truth value of a string: [if s:]. *)
Definition truthy (s : string) : bool := negb (String.eqb s "").

End PyStr.

(** ** The board of python-chess

    [chess.Board] is used through six operations. Each field gives the
    effect of the operation on the value of a board object; the store
    below gives the objects their identity. The operations are total
    functions here: the chatter calls them where python-chess accepts
    them, [pop] on a copy that holds the last move of the game and [san]
    on the moves of a principal variation, which are legal in turn. *)

Class ChessBoard (Board Move : Type) : Type := {
  (** [board.turn]: [True] when it is White's move. *)
  turn : Board -> bool;
  (** [board.fullmove_number]. *)
  fullmove_number : Board -> Z;
  (** [board.san(move)]. *)
  san : Board -> Move -> string;
  (** The board after [board.push(move)]. *)
  push : Board -> Move -> Board;
  (** The board after [board.pop()]. *)
  pop : Board -> Board;
  (** The value of the new object made by [board.copy(stack=1)]. *)
  copy_stack1 : Board -> Board;
  (** The value of the new object made by [board.copy(stack=False)]. *)
  copy_nostack : Board -> Board
}.

(** Locations of board objects. *)
Definition loc := nat.

(** The store: the object at each location, and the first location not
    yet given out. *)
Record Store (Board : Type) : Type := mkStore {
  cell : loc -> Board;
  next_loc : loc
}.
Arguments mkStore {Board}.
Arguments cell {Board}.
Arguments next_loc {Board}.

Definition store_write {Board} (l : loc) (b : Board) (h : Store Board) : Store Board :=
  mkStore (fun l' => if Nat.eqb l' l then b else cell h l') (next_loc h).

Definition store_alloc {Board} (b : Board) (h : Store Board) : loc * Store Board :=
  (next_loc h,
   mkStore (fun l' => if Nat.eqb l' (next_loc h) then b else cell h l')
           (S (next_loc h))).

(** ** [str.format_map] over a mapping with a default

    The template language of [str.format_map], as the interpreter reads
    it: literal text with the escapes [{{] and [}}], and replacement fields
    [{name!conversion:spec}] whose name may be followed by [.attr] and
    [[index]] accessors. Every value of the mapping is a [str]. *)

Module PyFormat.

Inductive exn : Type := ValueError | IndexError | TypeError.

(** What a call does. [NotModelled] marks the fields whose text depends
    on parts of Python left out here: the attributes of [str], [repr]
    and [ascii] (conversions [!r] and [!a]) and non-empty format specs. *)
Inductive outcome (A : Type) : Type :=
| Returned (a : A)
| Raised (e : exn)
| NotModelled.
Arguments Returned {A}.
Arguments Raised {A}.
Arguments NotModelled {A}.

Definition chr (c : ascii) : string := String c EmptyString.

(** The largest index the interpreter reads from a template (a 64-bit
    build). *)
Definition PY_SSIZE_T_MAX : N := 2 ^ 63 - 1.

Inductive intres : Type := NotInt | TooMany | IsInt (n : N).

Definition digit_val (c : ascii) : option N :=
  let n := N_of_ascii c in
  if ((48 <=? n) && (n <=? 57))%N then Some (n - 48)%N else None.

Fixpoint get_integer_from (acc : N) (s : string) : intres :=
  match s with
  | EmptyString => IsInt acc
  | String c t =>
      match digit_val c with
      | None => NotInt
      | Some d =>
          if ((PY_SSIZE_T_MAX - d) / 10 <? acc)%N then TooMany
          else get_integer_from (acc * 10 + d)%N t
      end
  end.

(** [get_integer]: the empty string is not an integer. *)
Definition get_integer (s : string) : intres :=
  match s with
  | EmptyString => NotInt
  | _ => get_integer_from 0%N s
  end.

(** [field_name_split]: the part of a field name before the first
    [.] or [[], and the rest. *)
Fixpoint split_first (s : string) : string * string :=
  match s with
  | EmptyString => (EmptyString, EmptyString)
  | String c t =>
      if Ascii.eqb c "." || Ascii.eqb c "[" then (EmptyString, s)
      else let '(a, b) := split_first t in (String c a, b)
  end.

(** The character of [s] at index [n]. *)
Fixpoint char_at (n : N) (s : string) : option ascii :=
  match s with
  | EmptyString => None
  | String c t => if (n =? 0)%N then Some c else char_at (N.pred n) t
  end.

(** [obj[item]] for a [str] object, [item] being the text between the
    brackets. *)
Definition get_item (obj item : string) : outcome string :=
  match item with
  | EmptyString => Raised ValueError
  | _ =>
      match get_integer item with
      | NotInt => Raised TypeError
      | TooMany => Raised ValueError
      | IsInt n =>
          match char_at n obj with
          | Some c => Returned (chr c)
          | None => Raised IndexError
          end
      end
  end.

(** The accessors after the first part of a field name, applied to
    [obj]. [item] is [Some] text while an index is being read. *)
Fixpoint access (obj : string) (item : option string) (s : string) : outcome string :=
  match s with
  | EmptyString =>
      match item with
      | None => Returned obj
      | Some _ => Raised ValueError
      end
  | String c t =>
      match item with
      | None =>
          if Ascii.eqb c "." then
            match t with
            | EmptyString => Raised ValueError
            | String d _ =>
                if Ascii.eqb d "." || Ascii.eqb d "[" then Raised ValueError
                else NotModelled
            end
          else if Ascii.eqb c "[" then access obj (Some EmptyString) t
          else Raised ValueError
      | Some i =>
          if Ascii.eqb c "]" then
            match get_item obj i with
            | Returned o => access o None t
            | Raised e => Raised e
            | NotModelled => NotModelled
            end
          else access obj (Some (i +:+ chr c)) t
      end
  end.

(** [get_field_object] under [format_map]: a name that is empty or a
    number is a positional field, which [format_map] refuses; any other
    name is looked up, the mapping answering [''] for a missing key. *)
Definition get_field_object (mapping : gmap string string) (name : string)
  : outcome string :=
  let '(first, rest) := split_first name in
  match get_integer first with
  | NotInt =>
      if String.eqb first "" then Raised ValueError
      else access (default "" (mapping !! first)) None rest
  | _ => Raised ValueError
  end.

(** [do_conversion] on a [str]. *)
Definition do_conversion (conv : option ascii) (obj : string) : outcome string :=
  match conv with
  | None => Returned obj
  | Some c =>
      if Ascii.eqb c "000" then Returned obj
      else if Ascii.eqb c "s" then Returned obj
      else if Ascii.eqb c "r" || Ascii.eqb c "a" then NotModelled
      else Raised ValueError
  end.

(** [output_markup]: the text of one replacement field. *)
Definition render_field (mapping : gmap string string)
    (name : string) (conv : option ascii) (spec : string) : outcome string :=
  match get_field_object mapping name with
  | Returned obj =>
      match do_conversion conv obj with
      | Returned s => if String.eqb spec "" then Returned s else NotModelled
      | r => r
      end
  | r => r
  end.

(** Where the reader of the template stands. *)
Inductive mode : Type :=
| InText
| AfterOpen
| AfterClose
| InName (name : string)
| InIndex (name : string)
| AtConv (name : string)
| AfterConv (name : string) (conv : ascii)
| InSpec (name : string) (conv : option ascii) (spec : string) (depth : nat).

(** The field is complete: its text is added to [out]. *)
Definition emit (mapping : gmap string string) (out : string)
    (name : string) (conv : option ascii) (spec : string)
  : outcome (string * mode) :=
  match render_field mapping name conv spec with
  | Returned s => Returned (out +:+ s, InText)
  | Raised e => Raised e
  | NotModelled => NotModelled
  end.

(** One character of a field name ([parse_field]). *)
Definition name_step (mapping : gmap string string) (out name : string) (c : ascii)
  : outcome (string * mode) :=
  if Ascii.eqb c "{" then Raised ValueError
  else if Ascii.eqb c "[" then Returned (out, InIndex (name +:+ chr c))
  else if Ascii.eqb c "}" then emit mapping out name None ""
  else if Ascii.eqb c ":" then Returned (out, InSpec name None "" 0)
  else if Ascii.eqb c "!" then Returned (out, AtConv name)
  else Returned (out, InName (name +:+ chr c)).

(** One character of the template ([MarkupIterator_next] and
    [parse_field]). *)
Definition step (mapping : gmap string string) (out : string) (m : mode) (c : ascii)
  : outcome (string * mode) :=
  match m with
  | InText =>
      if Ascii.eqb c "{" then Returned (out, AfterOpen)
      else if Ascii.eqb c "}" then Returned (out, AfterClose)
      else Returned (out +:+ chr c, InText)
  | AfterOpen =>
      if Ascii.eqb c "{" then Returned (out +:+ "{", InText)
      else name_step mapping out "" c
  | AfterClose =>
      if Ascii.eqb c "}" then Returned (out +:+ "}", InText)
      else Raised ValueError
  | InName name => name_step mapping out name c
  | InIndex name =>
      if Ascii.eqb c "]" then Returned (out, InName (name +:+ chr c))
      else Returned (out, InIndex (name +:+ chr c))
  | AtConv name => Returned (out, AfterConv name c)
  | AfterConv name conv =>
      if Ascii.eqb c "}" then emit mapping out name (Some conv) ""
      else if Ascii.eqb c ":" then Returned (out, InSpec name (Some conv) "" 0)
      else Raised ValueError
  | InSpec name conv spec depth =>
      if Ascii.eqb c "{" then Returned (out, InSpec name conv (spec +:+ chr c) (S depth))
      else if Ascii.eqb c "}" then
        match depth with
        | O => emit mapping out name conv spec
        | S d => Returned (out, InSpec name conv (spec +:+ chr c) d)
        end
      else Returned (out, InSpec name conv (spec +:+ chr c) depth)
  end.

(** The template from the current position to its end. A template that
    ends inside a field, or after a single brace, is refused. *)
Fixpoint run (mapping : gmap string string) (out : string) (m : mode) (s : string)
  : outcome string :=
  match s with
  | EmptyString =>
      match m with
      | InText => Returned out
      | _ => Raised ValueError
      end
  | String c t =>
      match step mapping out m c with
      | Returned (out', m') => run mapping out' m' t
      | Raised e => Raised e
      | NotModelled => NotModelled
      end
  end.

(** [template.format_map(mapping)], [mapping] being a
    [defaultdict(str, ...)]. Looking a missing key up also stores it
    with the value [''], in a mapping that no one else holds. *)
Definition format_map (mapping : gmap string string) (template : string)
  : outcome string :=
  run mapping "" InText template.

End PyFormat.

(** ** The objects of a game session *)

(** [Chat_Message]: one line of chat, as the event carries it. *)
Record Chat_Message : Type := mkChat_Message {
  msg_username : string;
  msg_text : string;
  msg_room : string
}.

(** The attributes of [Game_Information] that the chatter reads. *)
Record Game_Information : Type := mkGame_Information {
  id_ : string;
  increment_ms : Z;
  initial_time_ms : Z;
  white_name : string;
  black_name : string
}.

Record Engine : Type := mkEngine { name : string }.

(** The templates of the configuration ([config.messages]) and its
    version. A template that is not configured is [None]. *)
Record Messages : Type := mkMessages {
  greeting : option string;
  goodbye : option string;
  greeting_spectators : option string;
  goodbye_spectators : option string
}.

Record Config : Type := mkConfig {
  messages : Messages;
  version : string
}.

(** One call of [api.send_chat_message(game_id, room, text)]. *)
Record Sent : Type := mkSent {
  sent_game : string;
  sent_room : string;
  sent_text : string
}.

Section Session.

Context {Board Move : Type} `{ChessBoard Board Move}.

(** The attributes of [Lichess_Game] that the chatter reads. [board] is
    a reference to the board object of the game. *)
Record Lichess_Game : Type := mkLichess_Game {
  board : loc;
  last_pv : list Move;
  last_message : string;
  is_our_turn : bool;
  is_white : bool;
  is_abortable : bool;
  own_time : Q;
  engine : Engine
}.

(** The chatter object. The hardware strings and the draw message are
    computed once from the operating system and the configuration; they
    are opaque strings here. *)
Record Chatter : Type := mkChatter {
  username : string;
  game_info : Game_Information;
  lichess_game : Lichess_Game;
  cpu_message : string;
  draw_message : string;
  name_message : string;
  ram_message : string;
  player_greeting : option string;
  player_goodbye : option string;
  spectator_greeting : option string;
  spectator_goodbye : option string;
  print_eval_rooms : gset string
}.

Definition set_print_eval_rooms (rooms : gset string) (c : Chatter) : Chatter :=
  mkChatter (username c) (game_info c) (lichess_game c) (cpu_message c)
            (draw_message c) (name_message c) (ram_message c)
            (player_greeting c) (player_goodbye c)
            (spectator_greeting c) (spectator_goodbye c) rooms.

(** Everything a call can read or change. [rng] is the sequence of
    numbers that [random] draws, [rng_pos] the number of draws made. *)
Record World : Type := mkWorld {
  self : Chatter;
  boards : Store Board;
  sent : list Sent;
  stdout : list string;
  rng : nat -> nat;
  rng_pos : nat
}.

Definition set_self (c : Chatter) (w : World) : World :=
  mkWorld c (boards w) (sent w) (stdout w) (rng w) (rng_pos w).
Definition set_boards (h : Store Board) (w : World) : World :=
  mkWorld (self w) h (sent w) (stdout w) (rng w) (rng_pos w).
Definition set_sent (s : list Sent) (w : World) : World :=
  mkWorld (self w) (boards w) s (stdout w) (rng w) (rng_pos w).
Definition set_stdout (s : list string) (w : World) : World :=
  mkWorld (self w) (boards w) (sent w) s (rng w) (rng_pos w).
Definition set_rng_pos (n : nat) (w : World) : World :=
  mkWorld (self w) (boards w) (sent w) (stdout w) (rng w) n.

(** *** The state monad *)

Definition M (A : Type) : Type := World -> A * World.

#[global] Instance M_ret : MRet M := fun A a w => (a, w).
#[global] Instance M_bind : MBind M :=
  fun A B f c w => f (fst (c w)) (snd (c w)).

Definition gets {A : Type} (f : World -> A) : M A := fun w => (f w, w).
Definition modify (f : World -> World) : M unit := fun w => (tt, f w).

Fixpoint for_each {A : Type} (f : A -> M unit) (l : list A) : M unit :=
  match l with
  | [] => mret tt
  | x :: l' => f x;; for_each f l'
  end.

(** *** The collaborators *)

(** [await self.api.send_chat_message(game_id, room, text)]. *)
Definition send_chat_message (game_id room text : string) : M unit :=
  modify (fun w => set_sent (sent w ++ [mkSent game_id room text]) w).

(** [print(line)]. *)
Definition print (line : string) : M unit :=
  modify (fun w => set_stdout (stdout w ++ [line]) w).

(** [random.choice(table)] for a non-empty table. *)
Definition random_choice (table : list string) : M string :=
  fun w => (nth (rng w (rng_pos w) mod length table) table "",
            set_rng_pos (S (rng_pos w)) w).

(** The methods of the board object at a location. *)
Definition board_turn (l : loc) : M bool :=
  gets (fun w => turn (cell (boards w) l)).
Definition board_fullmove_number (l : loc) : M Z :=
  gets (fun w => fullmove_number (cell (boards w) l)).
Definition board_san (l : loc) (move : Move) : M string :=
  gets (fun w => san (cell (boards w) l) move).
Definition board_push (l : loc) (move : Move) : M unit :=
  modify (fun w => set_boards (store_write l (push (cell (boards w) l) move) (boards w)) w).
Definition board_pop (l : loc) : M unit :=
  modify (fun w => set_boards (store_write l (pop (cell (boards w) l)) (boards w)) w).
Definition board_copy_stack1 (l : loc) : M loc :=
  fun w => let '(l', h) := store_alloc (copy_stack1 (cell (boards w) l)) (boards w) in
           (l', set_boards h w).
Definition board_copy_nostack (l : loc) : M loc :=
  fun w => let '(l', h) := store_alloc (copy_nostack (cell (boards w) l)) (boards w) in
           (l', set_boards h w).

(** *** The PV builder *)

(** The loop of [_append_pv] over the moves that remain. *)
Fixpoint pv_loop (b : loc) (moves : list Move)
    (initial_message final_message : string) : M string :=
  match moves with
  | [] => mret final_message
  | move :: rest =>
      t ← board_turn b;
      initial_message ←
        (if t : bool then
           n ← board_fullmove_number b;
           mret (initial_message +:+ " " +:+ PyStr.of_int n +:+ ".")
         else mret initial_message);
      s ← board_san b move;
      let initial_message := initial_message +:+ " " +:+ s in
      if (140 <? String.length initial_message)%nat then mret final_message
      else
        board_push b move;;
        pv_loop b rest initial_message initial_message
  end.

Definition _append_pv (initial_message : string) : M string :=
  pv ← gets (fun w => last_pv (lichess_game (self w)));
  if (length pv <? 2)%nat then mret initial_message
  else
    let initial_message :=
      if PyStr.truthy initial_message then initial_message +:+ " "
      else initial_message in
    our_turn ← gets (fun w => is_our_turn (lichess_game (self w)));
    game_board ← gets (fun w => board (lichess_game (self w)));
    b ← (if our_turn : bool then
           b ← board_copy_stack1 game_board;
           board_pop b;;
           mret b
         else board_copy_nostack game_board);
    t ← board_turn b;
    initial_message ←
      (if t : bool then mret (initial_message +:+ "PV:")
       else
         n ← board_fullmove_number b;
         mret (initial_message +:+ "PV: " +:+ PyStr.of_int n +:+ "..."));
    pv ← gets (fun w => last_pv (lichess_game (self w)));
    pv_loop b (tail pv) initial_message initial_message.

(** *** Sending the evaluation *)

Definition _send_last_message (room : string) : M unit :=
  last_message ← gets (fun w => last_message (lichess_game (self w)));
  let last_message := PyStr.replace "Engine" "Evaluation" last_message in
  let last_message := PyStr.join " " (PyStr.split last_message) in
  last_message ←
    (if String.eqb room "spectator" then _append_pv last_message
     else mret last_message);
  game_id ← gets (fun w => id_ (game_info (self w)));
  send_chat_message game_id room last_message.

(** [own_time < 30.0]. *)
Definition Qltb (a b : Q) : bool := negb (Qle_bool b a).

Definition print_eval : M unit :=
  increment ← gets (fun w => increment_ms (game_info (self w)));
  time ← gets (fun w => own_time (lichess_game (self w)));
  if (increment =? 0)%Z && Qltb time (30 # 1) then mret tt
  else
    rooms ← gets (fun w => print_eval_rooms (self w));
    for_each _send_last_message (elements rooms).

(** *** The tables of flavour text

    Characters outside ASCII stand in these literals in their UTF-8
    encoding; the lines are only ever sent as they are. *)

Definition roasts : list string := [
  "You play like your pieces are allergic to the center.";
  "Your strategy is so deep, it hasn't surfaced yet.";
  "I’ve seen pawns with more ambition than your whole army.";
  "You're like a blunder wrapped in an inaccuracy.";
  "Even Stockfish ran out of evals trying to explain your moves.";
  "You treat the king like a tourist — always wandering.";
  "You play like your mouse is on strike."
].

Definition destroys : list string := [
  "I’m not just winning — I’m rewriting your opening book in real time.";
  "This isn’t a game anymore. It’s a live demo of how to dismantle a player.";
  "You're not losing, you're being systematically erased.";
  "Your board is starting to look like a clearance sale — everything must go!";
  "If this were a movie, you'd already be rolling the credits.";
  "You brought a pawn to a queen fight.";
  "This isn't just checkmate — it's checkmate with style."
].

Definition quotes : list string := [
  "“In life, as in chess, forethought wins.” – Charles Buxton";
  "“Even a poor plan is better than no plan at all.” – Mikhail Chigorin";
  "“Every master was once a beginner.”";
  "“Play the opening like a book, the middlegame like a magician, and the endgame like a machine.” – Rudolf Spielmann";
  "“The blunders are all there on the board, waiting to be made.” – Savielly Tartakower";
  "“You must take your opponent into a deep dark forest where 2+2=5, and the path leading out is only wide enough for one.” – Tal";
  "“Great moves often come from great pain.”";
  "“The beauty of a move lies not in its appearance but in the thought behind it.” – Aaron Nimzowitsch"
].

Definition _get_random_roast : M string := random_choice roasts.
Definition _get_random_destroy : M string := random_choice destroys.
Definition _get_random_quote : M string := random_choice quotes.

(** *** The command dispatcher *)

Definition help_player : string :=
  "Supported commands: !cpu, !draw, !eval, !motor, !name, !printeval, !ram, !roast, !destroy, !quotes".
Definition help_spectator : string :=
  "Supported commands: !cpu, !draw, !eval, !motor, !name, !printeval, !pv, !ram, !roast, !destroy, !quotes".

(** The word that [_handle_command] matches: [text[1:].lower()]. *)
Definition command_of (text : string) : string := PyStr.lower (PyStr.drop 1 text).

(** [send] is [self.api.send_chat_message(self.game_info.id_, room, text)]. *)
Definition reply (room text : string) : M unit :=
  game_id ← gets (fun w => id_ (game_info (self w)));
  send_chat_message game_id room text.

Definition _handle_command (chat_message : Chat_Message) : M unit :=
  let command := command_of (msg_text chat_message) in
  let room := msg_room chat_message in
  if String.eqb command "cpu" then
    text ← gets (fun w => cpu_message (self w));
    reply room text
  else if String.eqb command "draw" then
    text ← gets (fun w => draw_message (self w));
    reply room text
  else if String.eqb command "eval" then
    _send_last_message room
  else if String.eqb command "motor" then
    text ← gets (fun w => name (engine (lichess_game (self w))));
    reply room text
  else if String.eqb command "name" then
    text ← gets (fun w => name_message (self w));
    reply room text
  else if String.eqb command "printeval" then
    increment ← gets (fun w => increment_ms (game_info (self w)));
    initial ← gets (fun w => initial_time_ms (game_info (self w)));
    if (increment =? 0)%Z && (initial <? 180000)%Z then
      _send_last_message room
    else
      rooms ← gets (fun w => print_eval_rooms (self w));
      if bool_decide (room ∈ rooms) then mret tt
      else
        modify (fun w => set_self (set_print_eval_rooms
                                     (print_eval_rooms (self w) ∪ {[room]}) (self w)) w);;
        reply room "Type !quiet to stop eval printing.";;
        _send_last_message room
  else if String.eqb command "quiet" then
    modify (fun w => set_self (set_print_eval_rooms
                                 (print_eval_rooms (self w) ∖ {[room]}) (self w)) w)
  else if String.eqb command "pv" then
    if String.eqb room "player" then mret tt
    else
      message ← _append_pv "";
      let message := if PyStr.truthy message then message
                     else "No modules available." in
      reply room message
  else if String.eqb command "ram" then
    text ← gets (fun w => ram_message (self w));
    reply room text
  else if String.eqb command "roast" then
    roast ← _get_random_roast;
    reply room roast
  else if String.eqb command "destroy" || String.eqb command "troll" then
    destroy ← _get_random_destroy;
    reply room destroy
  else if String.eqb command "quotes" then
    quote ← _get_random_quote;
    reply room quote
  else if String.eqb command "help" || String.eqb command "commands" then
    let message := if String.eqb room "player" then help_player
                   else help_spectator in
    reply room message
  else mret tt.

(** The line echoed for a message of another user: over 128 characters
    it is broken, the rest indented under the text. *)
Definition echo_line (chat_message : Chat_Message) : string :=
  let prefix := msg_username chat_message +:+ " (" +:+ msg_room chat_message +:+ "): " in
  let output := prefix +:+ msg_text chat_message in
  if (128 <? String.length output)%nat
  then PyStr.take 128 output +:+ String "010" ""
       +:+ PyStr.spaces (String.length prefix) +:+ PyStr.drop 128 output
  else output.

(** [handle_chat_message], from the [Chat_Message] that
    [Chat_Message.from_chatLine_event] makes of the event. *)
Definition handle_chat_message (chat_message : Chat_Message) : M unit :=
  if String.eqb (msg_username chat_message) "lichess" then
    if String.eqb (msg_room chat_message) "player"
    then print (msg_text chat_message)
    else mret tt
  else
    me ← gets (fun w => username (self w));
    (if negb (String.eqb (msg_username chat_message) me)
     then print (echo_line chat_message)
     else mret tt);;
    if PyStr.startswith_bang (msg_text chat_message)
    then _handle_command chat_message
    else mret tt.

(** A sequence of chat lines, handled one after the other. *)
Definition handle_all (lines : list Chat_Message) : M unit :=
  for_each handle_chat_message lines.

(** *** Greetings and goodbyes *)

(** [if text: send(room, text)] for a text that may be [None]. *)
Definition send_if_set (room : string) (text : option string) : M unit :=
  match text with
  | Some t => if PyStr.truthy t then reply room t else mret tt
  | None => mret tt
  end.

Definition send_greetings : M unit :=
  text ← gets (fun w => player_greeting (self w));
  send_if_set "player" text;;
  text ← gets (fun w => spectator_greeting (self w));
  send_if_set "spectator" text.

Definition send_goodbyes : M unit :=
  abortable ← gets (fun w => is_abortable (lichess_game (self w)));
  if abortable : bool then mret tt
  else
    text ← gets (fun w => player_goodbye (self w));
    send_if_set "player" text;;
    text ← gets (fun w => spectator_goodbye (self w));
    send_if_set "spectator" text.

(** *** The message formatter and the constructor *)

Definition _get_name_message (game : Lichess_Game) (version : string) : string :=
  "I am CB-BB, and I use " +:+ name (engine game) +:+ " (BotLi " +:+ version +:+ ")".

(** The mapping of [_format_message]: five keys, and [''] for any
    other. *)
Definition format_mapping (username : string) (info : Game_Information)
    (game : Lichess_Game) (cpu_message ram_message : string) : gmap string string :=
  let opponent_username := if is_white game then black_name info else white_name info in
  <["opponent" := opponent_username]>
    (<["me" := username]>
       (<["engine" := name (engine game)]>
          (<["cpu" := cpu_message]> (<["ram" := ram_message]> ∅)))).

(** [_format_message]: [None] for a template that is [None] or empty. *)
Definition _format_message (username : string) (info : Game_Information)
    (game : Lichess_Game) (cpu_message ram_message : string)
    (message : option string) : PyFormat.outcome (option string) :=
  match message with
  | None => PyFormat.Returned None
  | Some template =>
      if negb (PyStr.truthy template) then PyFormat.Returned None
      else
        match PyFormat.format_map
                (format_mapping username info game cpu_message ram_message) template with
        | PyFormat.Returned s => PyFormat.Returned (Some s)
        | PyFormat.Raised e => PyFormat.Raised e
        | PyFormat.NotModelled => PyFormat.NotModelled
        end
  end.

(** [Chatter.__init__], once its calls of [_get_cpu],
    [_get_draw_message] and [_get_ram] have returned: [cpu], [draw] and
    [ram] are the strings that they returned. A constructor in which one
    of these calls raises is not described by this function. *)
Definition __init__ (config : Config) (username : string) (info : Game_Information)
    (game : Lichess_Game) (cpu ram draw : string) : PyFormat.outcome Chatter :=
  let fmt := _format_message username info game cpu ram in
  match fmt (greeting (messages config)) with
  | PyFormat.Returned pg =>
    match fmt (goodbye (messages config)) with
    | PyFormat.Returned pb =>
      match fmt (greeting_spectators (messages config)) with
      | PyFormat.Returned sg =>
        match fmt (goodbye_spectators (messages config)) with
        | PyFormat.Returned sb =>
            PyFormat.Returned
              (mkChatter username info game cpu draw
                         (_get_name_message game (version config)) ram
                         pg pb sg sb ∅)
        | PyFormat.Raised e => PyFormat.Raised e
        | PyFormat.NotModelled => PyFormat.NotModelled
        end
      | PyFormat.Raised e => PyFormat.Raised e
      | PyFormat.NotModelled => PyFormat.NotModelled
      end
    | PyFormat.Raised e => PyFormat.Raised e
    | PyFormat.NotModelled => PyFormat.NotModelled
    end
  | PyFormat.Raised e => PyFormat.Raised e
  | PyFormat.NotModelled => PyFormat.NotModelled
  end.

(** *** The walk of the PV builder, told without the store

    These definitions say what the builder computes in terms of board
    values; the theorems below relate them to [_append_pv]. *)

(** The text that the walk adds for one move: the move number before a
    move of White, then the notation of the move. *)
Definition pv_token (b : Board) (move : Move) : string :=
  (if turn b then " " +:+ PyStr.of_int (fullmove_number b) +:+ "." else "")
  +:+ " " +:+ san b move.

(** The accumulated text after each move of the walk, were there no
    budget: the k-th entry ends with the token of the k-th move. *)
Fixpoint pv_states (b : Board) (moves : list Move) (text : string) : list string :=
  match moves with
  | [] => []
  | move :: rest =>
      let text := text +:+ pv_token b move in
      text :: pv_states (push b move) rest text
  end.

(** The loop on board values. *)
Fixpoint pv_walk (b : Board) (moves : list Move) (text final : string) : string :=
  match moves with
  | [] => final
  | move :: rest =>
      let text := text +:+ pv_token b move in
      if (140 <? String.length text)%nat then final
      else pv_walk (push b move) rest text text
  end.

(** The position the walk starts from: one ply back when it is the
    agent's turn. *)
Definition walk_start (game : Lichess_Game) (h : Store Board) : Board :=
  if is_our_turn game then pop (copy_stack1 (cell h (board game)))
  else copy_nostack (cell h (board game)).

(** The label, after the prefix and a space when the prefix is not
    empty. *)
Definition pv_label (b : Board) (initial_message : string) : string :=
  (if PyStr.truthy initial_message then initial_message +:+ " " else initial_message)
  +:+ (if turn b then "PV:"
       else "PV: " +:+ PyStr.of_int (fullmove_number b) +:+ "...").

(** The string that [_append_pv] returns. *)
Definition pv_text (game : Lichess_Game) (h : Store Board) (initial_message : string)
  : string :=
  if (length (last_pv game) <? 2)%nat then initial_message
  else
    let b := walk_start game h in
    let label := pv_label b initial_message in
    pv_walk b (tail (last_pv game)) label label.

(** The evaluation message that [_send_last_message] sends to a room. *)
Definition eval_text (game : Lichess_Game) (h : Store Board) (room : string) : string :=
  let m := PyStr.join " " (PyStr.split (PyStr.replace "Engine" "Evaluation"
                                                      (last_message game))) in
  if String.eqb room "spectator" then pv_text game h m else m.

Definition eval_sent (w : World) (room : string) : Sent :=
  mkSent (id_ (game_info (self w))) room
         (eval_text (lichess_game (self w)) (boards w) room).

(** The text that [!pv] sends outside the player room. *)
Definition pv_reply (w : World) : string :=
  let text := pv_text (lichess_game (self w)) (boards w) "" in
  if PyStr.truthy text then text else "No modules available.".

(** The board of the game is an object of the store. *)
Definition board_allocated (w : World) : Prop :=
  board (lichess_game (self w)) < next_loc (boards w).

(** A call changed nothing but the store, and there only by creating
    objects: every object that existed is as it was. *)
Definition only_allocates (w w' : World) : Prop :=
  self w' = self w /\ sent w' = sent w /\ stdout w' = stdout w
  /\ rng w' = rng w /\ rng_pos w' = rng_pos w
  /\ next_loc (boards w) <= next_loc (boards w')
  /\ forall l, l < next_loc (boards w) -> cell (boards w') l = cell (boards w) l.

(** A call wrote to the board object at [b] and to nothing else. *)
Definition writes_only (b : loc) (w w' : World) : Prop :=
  self w' = self w /\ sent w' = sent w /\ stdout w' = stdout w
  /\ rng w' = rng w /\ rng_pos w' = rng_pos w
  /\ next_loc (boards w') = next_loc (boards w)
  /\ forall l, l <> b -> cell (boards w') l = cell (boards w) l.

(** A call handed [msgs] to the API and otherwise only created objects. *)
Definition sends (msgs : list Sent) (w w' : World) : Prop :=
  self w' = self w /\ sent w' = sent w ++ msgs /\ stdout w' = stdout w
  /\ rng w' = rng w /\ rng_pos w' = rng_pos w
  /\ next_loc (boards w) <= next_loc (boards w')
  /\ forall l, l < next_loc (boards w) -> cell (boards w') l = cell (boards w) l.

(** The text of a chat line is the command [word]. *)
Definition issues (word : string) (m : Chat_Message) : Prop :=
  PyStr.startswith_bang (msg_text m) = true /\ command_of (msg_text m) = word.

(** The guard of [printeval]: no increment and less than three minutes
    on the clock. *)
Definition fast_game (info : Game_Information) : bool :=
  (increment_ms info =? 0)%Z && (initial_time_ms info <? 180000)%Z.

End Session.

Arguments Lichess_Game : clear implicits.
Arguments Chatter : clear implicits.
Arguments World : clear implicits.
Arguments M : clear implicits.

(** ** Templates with plain placeholders *)

Module Template.

(** A piece of a template: literal text, or a replacement field
    [{name}]. *)
Inductive piece : Type :=
| Text (s : string)
| Placeholder (name : string).

Definition is_brace (c : ascii) : bool := Ascii.eqb c "{" || Ascii.eqb c "}".

(** The characters that end a field name or start an accessor. *)
Definition is_special (c : ascii) : bool :=
  is_brace c || Ascii.eqb c "[" || Ascii.eqb c "." || Ascii.eqb c "!"
  || Ascii.eqb c ":".

Fixpoint all_chars (p : ascii -> bool) (s : string) : bool :=
  match s with
  | EmptyString => true
  | String c t => p c && all_chars p t
  end.

(** A plain name: it starts with a character that is not a digit and
    has no special character. *)
Definition plain_name (n : string) : bool :=
  match n with
  | EmptyString => false
  | String c _ =>
      match PyFormat.digit_val c with
      | Some _ => false
      | None => all_chars (fun c => negb (is_special c)) n
      end
  end.

(** The names that [_format_message] gives a value. *)
Definition known (n : string) : bool :=
  String.eqb n "opponent" || String.eqb n "me" || String.eqb n "engine"
  || String.eqb n "cpu" || String.eqb n "ram".

Definition piece_ok (p : piece) : bool :=
  match p with
  | Text s => all_chars (fun c => negb (is_brace c)) s
  | Placeholder n => plain_name n && negb (known n)
  end.

(** The template as written. *)
Fixpoint written (ps : list piece) : string :=
  match ps with
  | [] => ""
  | Text s :: ps' => s +:+ written ps'
  | Placeholder n :: ps' => "{" +:+ n +:+ "}" +:+ written ps'
  end.

(** The template with every placeholder replaced by the empty string. *)
Fixpoint erased (ps : list piece) : string :=
  match ps with
  | [] => ""
  | Text s :: ps' => s +:+ erased ps'
  | Placeholder _ :: ps' => erased ps'
  end.

End Template.

(** ** A board for examples

    A score sheet in place of a chess board: it keeps the side to move, the
    move number and the moves played, and a move is given by its notation.
    It serves to run the definitions on concrete sessions. *)

Module Sheet.

Record sheet : Type := mkSheet {
  white_to_move : bool;
  move_number : Z;
  played : list string
}.

Definition sheet_push (b : sheet) (move : string) : sheet :=
  mkSheet (negb (white_to_move b))
          (if white_to_move b then move_number b else move_number b + 1)
          (move :: played b).

Definition sheet_pop (b : sheet) : sheet :=
  match played b with
  | [] => b
  | _ :: rest =>
      mkSheet (negb (white_to_move b))
              (if white_to_move b then move_number b - 1 else move_number b)
              rest
  end.

#[global] Instance sheet_board : ChessBoard sheet string := {
  turn := white_to_move;
  fullmove_number := move_number;
  san := fun _ move => move;
  push := sheet_push;
  pop := sheet_pop;
  copy_stack1 := fun b => mkSheet (white_to_move b) (move_number b) (firstn 1 (played b));
  copy_nostack := fun b => mkSheet (white_to_move b) (move_number b) []
}.

(** A session after 1. e4 e5 2. Nf3: the agent plays White and has just
    moved, its engine expecting 2... Nc6 3. Bb5 a6. *)
Definition after_Nf3 : sheet := mkSheet false 2 ["Nf3"; "e5"; "e4"].

Definition the_store : Store sheet := mkStore (fun _ => after_Nf3) 1.

Definition game_with (pv : list string) (time : Q) : Lichess_Game string :=
  mkLichess_Game 0 pv "Engine:   +0.35   Depth: 20" false true false time
                 (mkEngine "Stockfish").

Definition the_game : Lichess_Game string :=
  game_with ["Nf3"; "Nc6"; "Bb5"; "a6"] (45 # 1).

(** The same with 10 seconds left, and with a single move expected. *)
Definition short_of_time : Lichess_Game string :=
  game_with ["Nf3"; "Nc6"; "Bb5"; "a6"] (10 # 1).
Definition one_move : Lichess_Game string := game_with ["Nf3"] (45 # 1).

(** A five-minute game and a one-minute game, both without increment. *)
Definition blitz : Game_Information := mkGame_Information "g1" 0 300000 "bot" "Ann".
Definition bullet : Game_Information := mkGame_Information "g1" 0 60000 "bot" "Ann".

Definition the_chatter (info : Game_Information) (game : Lichess_Game string)
    (rooms : gset string) : Chatter string :=
  mkChatter "bot" info game "CPU" "no draws" "I am CB-BB" "16.0 GiB"
            None None None None rooms.

Definition the_world (info : Game_Information) (game : Lichess_Game string)
    (rooms : gset string) : World sheet string :=
  mkWorld (the_chatter info game rooms) the_store [] [] (fun _ => 0) 0.

(** The same session one ply later: Black has answered 2... Nc6 and it
    is the agent's turn, the principal variation being that of its last
    search. The board of the game holds the whole game. *)
Definition after_Nc6 : sheet := mkSheet true 3 ["Nc6"; "Nf3"; "e5"; "e4"].

Definition our_turn_world : World sheet string :=
  mkWorld (the_chatter blitz
             (mkLichess_Game 0 ["Nf3"; "Nc6"; "Bb5"; "a6"]
                             "Engine:   +0.35   Depth: 20" true true false (45 # 1)
                             (mkEngine "Stockfish"))
             ∅)
          (mkStore (fun _ => after_Nc6) 1) [] [] (fun _ => 0) 0.

(** A principal variation of forty moves after 2. Nf3, twenty times
    2... Nc6 3. Bb5, to run the builder into its budget. *)
Definition long_pv : list string :=
  "Nf3" :: concat (repeat ["Nc6"; "Bb5"] 20).

Definition line (room text : string) : Chat_Message :=
  mkChat_Message "Ann" text room.

(** A prefix of 141 characters. *)
Definition long_prefix : string := string_of_list_ascii (repeat "x"%char 141).

End Sheet.

(** ** Predicates on texts *)

Module Text.

(** [pat in s]: the pattern occurs somewhere in the text. *)
Fixpoint occurs (pat s : string) : bool :=
  String.prefix pat s
  || match s with
     | EmptyString => false
     | String _ t => occurs pat t
     end.

(** Words separated by single spaces: no white space at either end, none
    but the space inside, and never two spaces in a row. [after_space]
    says that a space may not come next. *)
Fixpoint single_spaced (after_space : bool) (s : string) : bool :=
  match s with
  | EmptyString => negb after_space
  | String c t =>
      if Ascii.eqb c " " then negb after_space && single_spaced true t
      else negb (PyStr.isspace c) && single_spaced false t
  end.

Definition tidy (s : string) : bool :=
  match s with
  | EmptyString => true
  | _ => single_spaced true s
  end.

(** A word: not empty, and without white space. *)
Fixpoint no_space (s : string) : bool :=
  match s with
  | EmptyString => true
  | String c t => negb (PyStr.isspace c) && no_space t
  end.

Definition word (s : string) : bool := PyStr.truthy s && no_space s.

(** No capital E in the text. *)
Definition no_capital_E (q : string) : bool :=
  Template.all_chars (fun c => negb (Ascii.eqb c "E")) q.

(** The message as [_send_last_message] prepares it. *)
Definition normalise (s : string) : string := PyStr.join " " (PyStr.split s).

End Text.

(** ** What the dispatcher may do *)

(** The command words of [_handle_command]. *)
Definition command_words : list string :=
  ["cpu"; "draw"; "eval"; "motor"; "name"; "printeval"; "quiet"; "pv"; "ram";
   "roast"; "destroy"; "troll"; "quotes"; "help"; "commands"].

Section Footprint.

Context {Board Move : Type} `{ChessBoard Board Move}.

(** [c'] is [c] but for its registry. *)
Definition same_context (c c' : Chatter Move) : Prop :=
  c' = set_print_eval_rooms (print_eval_rooms c') c.

(** The most that handling the chat line [m] does: it leaves the chatter
    object alone but for the registry, prints nothing, draws no more than
    random numbers, sends at most two messages, all to the room of the
    line and under the id of the game, and keeps every board object that
    existed. *)
Definition command_footprint (m : Chat_Message) (w w' : World Board Move) : Prop :=
  same_context (self w) (self w')
  /\ stdout w' = stdout w
  /\ rng w' = rng w
  /\ (exists msgs : list Sent,
        sent w' = sent w ++ msgs
        /\ length msgs <= 2
        /\ Forall (fun s => sent_room s = msg_room m
                            /\ sent_game s = id_ (game_info (self w))) msgs)
  /\ next_loc (boards w) <= next_loc (boards w')
  /\ forall l, l < next_loc (boards w) -> cell (boards w') l = cell (boards w) l.

(** A chat line takes effect as the command [word]: [lichess] did not
    write it, it starts with [!], and the rest is [word] in any case. *)
Definition effective (word : string) (m : Chat_Message) : bool :=
  negb (String.eqb (msg_username m) "lichess")
  && PyStr.startswith_bang (msg_text m)
  && String.eqb (command_of (msg_text m)) word.

(** The registry after one chat line, in a game that is under the guard
    of [printeval] ([fast]) or not. *)
Definition registry_step (fast : bool) (rooms : gset string) (m : Chat_Message)
  : gset string :=
  if effective "printeval" m then
    if fast then rooms else rooms ∪ {[msg_room m]}
  else if effective "quiet" m then rooms ∖ {[msg_room m]}
  else rooms.

(** The message due to a room for a text that may be missing or empty. *)
Definition due (game_id room : string) (text : option string) : list Sent :=
  match text with
  | Some t => if PyStr.truthy t then [mkSent game_id room t] else []
  | None => []
  end.

End Footprint.

(** ** Templates with placeholders of any plain name, and escaped text *)

Module Markup.

Import Template.

(** Text without braces, or a placeholder whose name is plain, known or
    not. *)
Definition piece_plain (p : piece) : bool :=
  match p with
  | Text s => all_chars (fun c => negb (is_brace c)) s
  | Placeholder n => plain_name n
  end.

(** The template with every placeholder replaced by its value in the
    mapping, the empty string for a missing key. *)
Fixpoint filled (mapping : gmap string string) (ps : list piece) : string :=
  match ps with
  | [] => ""
  | Text s :: ps' => s +:+ filled mapping ps'
  | Placeholder n :: ps' => default "" (mapping !! n) +:+ filled mapping ps'
  end.

(** A text with each of its braces doubled. *)
Fixpoint escape (s : string) : string :=
  match s with
  | EmptyString => EmptyString
  | String c t =>
      if is_brace c then String c (String c (escape t)) else String c (escape t)
  end.

(** A decimal number: digits only, and at least one. *)
Definition is_digit (c : ascii) : bool :=
  match PyFormat.digit_val c with
  | Some _ => true
  | None => false
  end.

Definition number (n : string) : bool := PyStr.truthy n && all_chars is_digit n.

End Markup.

(** ** Python's floats in [_get_ram] and [_get_draw_message]

    A finite [float] is a double: a mantissa of at most 53 bits times a
    power of two. Arithmetic on floats rounds the exact result to the
    nearest double, ties to the even mantissa; formatting with [.kf]
    rounds the exact value of the double to [k] decimals, ties to even. *)

Module PyFloat.

Inductive error : Type := OverflowError.

Record double : Type := mkDouble { mant : Z; expo : Z }.

(** The integer nearest to [a / b], ties to even, for [b > 0]. *)
Definition nearest_int (a b : Z) : Z :=
  let q := (a / b)%Z in
  let r := (a mod b)%Z in
  if (2 * r <? b)%Z then q
  else if (b <? 2 * r)%Z then (q + 1)%Z
  else if Z.even q then q else (q + 1)%Z.

(** [a * 2 ^ k] for any [k], as a fraction. *)
Definition shift_num (a k : Z) : Z := if (0 <=? k)%Z then (a * 2 ^ k)%Z else a.
Definition shift_den (b k : Z) : Z := if (0 <=? k)%Z then b else (b * 2 ^ (- k))%Z.

(** The exponent [e] with [2 ^ e <= a / b < 2 ^ (e + 1)], for [a, b > 0]. *)
Definition binade (a b : Z) : Z :=
  let e := (Z.log2 a - Z.log2 b)%Z in
  if (shift_num a (- e) <? shift_den b (- e))%Z then (e - 1)%Z else e.

(** The double nearest to [a / b], for [a, b > 0]: 53 bits from the
    binade down, no bit under [2 ^ -1074]; [None] past the largest
    double. *)
Definition nearest_double (a b : Z) : option double :=
  let e := binade a b in
  let x := Z.max (e - 52) (-1074) in
  let m := nearest_int (shift_num a (- x)) (shift_den b (- x)) in
  if (2 ^ 1024 <=? shift_num m x)%Z && (0 <=? x)%Z then None
  else Some (mkDouble m x).

(** [a / b] rounded, for any [a] and [b > 0]. *)
Definition round_ratio (a b : Z) : error + double :=
  if (a =? 0)%Z then inr (mkDouble 0 0)
  else
    match nearest_double (Z.abs a) b with
    | Some d => inr (mkDouble (Z.sgn a * mant d) (expo d))
    | None => inl OverflowError
    end.

(** [float(n)] for an [int]. *)
Definition of_int (n : Z) : error + double := round_ratio n 1.

(** [a / b] for two [int]s, [b > 0]. *)
Definition int_true_div (a b : Z) : error + double := round_ratio a b.

(** [x / y] for two floats, [y > 0]. *)
Definition div (x y : double) : error + double :=
  let k := (expo x - expo y)%Z in
  round_ratio (shift_num (mant x) k) (shift_den (mant y) k).

(** The decimal digits of [n >= 0], at least [k] of them. *)
Fixpoint pad (k : nat) (s : string) : string :=
  match k with
  | O => s
  | S k' => if (String.length s <? k)%nat then pad k' ("0" +:+ s) else s
  end.

(** [f'{x:.kf}']. *)
Definition format_f (k : nat) (x : double) : string :=
  let scaled := (Z.abs (mant x) * 10 ^ Z.of_nat k)%Z in
  let t := nearest_int (shift_num scaled (expo x)) (shift_den 1 (expo x)) in
  let sign := if (mant x <? 0)%Z then "-" else "" in
  let whole := PyStr.of_int (t / 10 ^ Z.of_nat k) in
  match k with
  | O => sign +:+ whole
  | _ => sign +:+ whole +:+ "." +:+ pad k (PyStr.of_int (t mod 10 ^ Z.of_nat k))
  end.

End PyFloat.

(** ** The hardware and draw messages *)

(** The attributes of [config.offer_draw] that the chatter reads. *)
Record Offer_Draw_Config : Type := mkOffer_Draw_Config {
  enabled : bool;
  score : Z;
  consecutive_moves : Z;
  min_game_length : Z
}.

(** [_get_ram], from the number of bytes that
    [psutil.virtual_memory().total] gives. [1024.**3] is the double
    [2 ^ 30]. *)
Definition _get_ram (mem_bytes : Z) : PyFloat.error + string :=
  match PyFloat.of_int mem_bytes with
  | inl e => inl e
  | inr mem =>
      match PyFloat.div mem (PyFloat.mkDouble 1 30) with
      | inl e => inl e
      | inr mem_gib => inr (PyFloat.format_f 1 mem_gib +:+ " GiB")
      end
  end.

(** [_get_draw_message], from [config.offer_draw]. *)
Definition _get_draw_message (offer_draw : Offer_Draw_Config) : PyFloat.error + string :=
  if negb (enabled offer_draw) then inr "I will neither accept nor offer draws."
  else
    match PyFloat.int_true_div (score offer_draw) 100 with
    | inl e => inl e
    | inr max_score =>
        inr ("I will accept/offer draws after move "
             +:+ PyStr.of_int (min_game_length offer_draw) +:+ " "
             +:+ "if the eval is within +" +:+ PyFloat.format_f 2 max_score
             +:+ " to -" +:+ PyFloat.format_f 2 max_score +:+ " for the last "
             +:+ PyStr.of_int (consecutive_moves offer_draw) +:+ " moves.")
    end.

(** ** Facts about strings *)

Lemma str_app_cons (x : ascii) (a b : string) :
  String x a +:+ b = String x (a +:+ b).
Proof. reflexivity. Qed.

Lemma str_app_empty_l (a : string) : "" +:+ a = a.
Proof. reflexivity. Qed.

Lemma str_app_assoc (a b c : string) : (a +:+ b) +:+ c = a +:+ b +:+ c.
Proof.
  induction a as [|x a IH]; [reflexivity |].
  rewrite !str_app_cons. now rewrite IH.
Qed.

Lemma str_app_empty_r (a : string) : a +:+ "" = a.
Proof.
  induction a as [|x a IH]; [reflexivity |].
  rewrite str_app_cons. now rewrite IH.
Qed.

Lemma str_length_app (a b : string) :
  String.length (a +:+ b) = String.length a + String.length b.
Proof.
  induction a as [|x a IH]; [reflexivity |].
  rewrite str_app_cons. simpl. now rewrite IH.
Qed.

Lemma str_prefix_empty (b : string) : String.prefix "" b = true.
Proof. destruct b; reflexivity. Qed.

Lemma str_prefix_app (a b : string) : String.prefix a (a +:+ b) = true.
Proof.
  induction a as [|x a IH]; [apply str_prefix_empty |].
  rewrite str_app_cons. simpl.
  destruct (ascii_dec x x); [exact IH | congruence].
Qed.

Lemma str_prefix_trans_app (a b c : string) :
  String.prefix a b = true -> String.prefix a (b +:+ c) = true.
Proof.
  revert b. induction a as [|x a IH]; intros b Hp; [apply str_prefix_empty |].
  destruct b as [|y b]; [discriminate |].
  rewrite str_app_cons. simpl in *.
  destruct (ascii_dec x y); [auto | discriminate].
Qed.

Lemma truthy_app_r (a b : string) :
  PyStr.truthy b = true -> PyStr.truthy (a +:+ b) = true.
Proof.
  destruct a; [tauto | reflexivity].
Qed.

Section Walk.

Context {Board Move : Type} `{ChessBoard Board Move}.

Lemma writes_only_refl (b : loc) (w : World Board Move) : writes_only b w w.
Proof. repeat split. Qed.

Lemma writes_only_trans (b : loc) (w1 w2 w3 : World Board Move) :
  writes_only b w1 w2 -> writes_only b w2 w3 -> writes_only b w1 w3.
Proof.
  intros (a1 & a2 & a3 & a4 & a5 & a6 & a7) (b1 & b2 & b3 & b4 & b5 & b6 & b7).
  repeat split; try congruence.
  intros l Hl. rewrite b7, a7; auto.
Qed.

Lemma pv_loop_step_text (text : string) (b : Board) (move : Move) :
  (if turn b then text +:+ " " +:+ PyStr.of_int (fullmove_number b) +:+ "." else text)
    +:+ " " +:+ san b move
  = text +:+ pv_token b move.
Proof.
  unfold pv_token. destruct (turn b); simpl.
  - now rewrite !str_app_assoc.
  - reflexivity.
Qed.

(** The loop over the store computes the walk on the value of the
    working board. *)
Lemma pv_loop_value (moves : list Move) :
  forall (b : loc) (text final : string) (w : World Board Move),
    fst (pv_loop b moves text final w)
    = pv_walk (cell (boards w) b) moves text final.
Proof.
  induction moves as [|move rest IH]; intros b text final w; [reflexivity |].
  cbn [pv_loop pv_walk].
  rewrite <- pv_loop_step_text.
  unfold mbind, M_bind, board_turn, board_san, board_fullmove_number, gets, mret, M_ret.
  cbn [fst snd].
  destruct (turn (cell (boards w) b)) eqn:Ht; cbn [fst snd].
  - destruct (140 <? _)%nat; [reflexivity |].
    rewrite IH. cbn. now rewrite Nat.eqb_refl.
  - destruct (140 <? _)%nat; [reflexivity |].
    rewrite IH. cbn. now rewrite Nat.eqb_refl.
Qed.

Lemma pv_loop_writes (moves : list Move) :
  forall (b : loc) (text final : string) (w : World Board Move),
    writes_only b w (snd (pv_loop b moves text final w)).
Proof.
  induction moves as [|move rest IH]; intros b text final w;
    [apply writes_only_refl |].
  cbn [pv_loop].
  unfold mbind, M_bind, board_turn, board_san, board_fullmove_number, gets, mret, M_ret.
  cbn [fst snd].
  destruct (turn (cell (boards w) b)) eqn:Ht; cbn [fst snd];
    (destruct (140 <? _)%nat; [apply writes_only_refl |]);
    (eapply writes_only_trans; [| apply IH]);
    (repeat split; cbn; intros l Hl;
     destruct (Nat.eqb_spec l b); [contradiction | reflexivity]).
Qed.


(** The walk returns one of the accumulated texts: the last one before
    the first that exceeds the budget. *)
Lemma pv_walk_cut (moves : list Move) :
  forall (b : Board) (text : string),
    let states := pv_states b moves text in
    exists k,
      k <= length states
      /\ pv_walk b moves text text = nth k (text :: states) ""
      /\ Forall (fun s => String.length s <= 140) (firstn k states)
      /\ (k = length states \/ 140 < String.length (nth k states "")).
Proof.
  induction moves as [|move rest IH]; intros b text; cbn zeta.
  - exists 0. cbn. repeat split; auto.
  - cbn [pv_walk pv_states].
    destruct (Nat.ltb_spec 140 (String.length (text +:+ pv_token b move))) as [Hover|Hfit].
    + exists 0. cbn. repeat split; auto with arith.
    + destruct (IH (push b move) (text +:+ pv_token b move))
        as (k & Hk & Hres & Hall & Hend).
      exists (S k). cbn [length nth firstn]. repeat split.
      * lia.
      * exact Hres.
      * constructor; [lia | exact Hall].
      * destruct Hend as [-> | Hend]; [left; reflexivity | right; exact Hend].
Qed.

Lemma pv_states_length (moves : list Move) :
  forall (b : Board) (text : string),
    length (pv_states b moves text) = length moves.
Proof.
  induction moves as [|move rest IH]; intros b text; [reflexivity |].
  cbn. now rewrite IH.
Qed.

(** Every text of the walk starts with the text it began from. *)
Lemma pv_walk_prefix (moves : list Move) :
  forall (b : Board) (start text final : string),
    String.prefix start text = true ->
    String.prefix start final = true ->
    String.prefix start (pv_walk b moves text final) = true.
Proof.
  induction moves as [|move rest IH]; intros b start text final Ht Hf; [exact Hf |].
  cbn [pv_walk]. destruct (140 <? _)%nat; [exact Hf |].
  apply IH; now apply str_prefix_trans_app.
Qed.

Lemma pv_walk_truthy (moves : list Move) :
  forall (b : Board) (text final : string),
    PyStr.truthy text = true -> PyStr.truthy final = true ->
    PyStr.truthy (pv_walk b moves text final) = true.
Proof.
  induction moves as [|move rest IH]; intros b text final Ht Hf; [exact Hf |].
  cbn [pv_walk]. destruct (140 <? _)%nat; [exact Hf |].
  assert (Hn : PyStr.truthy (text +:+ pv_token b move) = true).
  { destruct text; [discriminate | reflexivity]. }
  now apply IH.
Qed.

(** *** [_append_pv] *)

Lemma append_pv_value (initial_message : string) (w : World Board Move) :
  fst (_append_pv initial_message w)
  = pv_text (lichess_game (self w)) (boards w) initial_message.
Proof.
  unfold _append_pv, pv_text, walk_start, pv_label.
  unfold mbind, M_bind, gets, mret, M_ret. cbn [fst snd].
  destruct (length (last_pv (lichess_game (self w))) <? 2)%nat; [reflexivity |].
  destruct (is_our_turn (lichess_game (self w)));
    unfold board_copy_stack1, board_copy_nostack, board_pop, board_turn,
      board_fullmove_number, modify, gets, mbind, M_bind, mret, M_ret;
    cbn [fst snd store_alloc store_write boards set_boards cell next_loc self];
    rewrite ?Nat.eqb_refl;
    match goal with |- context [turn ?b] => destruct (turn b) end;
    cbn [fst snd];
    rewrite pv_loop_value;
    cbn [fst snd store_alloc store_write boards set_boards cell next_loc self];
    rewrite ?Nat.eqb_refl, ?str_app_assoc; reflexivity.
Qed.

Lemma only_allocates_refl (w : World Board Move) : only_allocates w w.
Proof. repeat split; auto. Qed.

Lemma only_allocates_trans (w1 w2 w3 : World Board Move) :
  only_allocates w1 w2 -> only_allocates w2 w3 -> only_allocates w1 w3.
Proof.
  intros (a1 & a2 & a3 & a4 & a5 & a6 & a7) (b1 & b2 & b3 & b4 & b5 & b6 & b7).
  repeat split; try congruence; try lia.
  intros l Hl. rewrite b7, a7; auto; lia.
Qed.

(** Writing to an object made after [w] creates, as seen from [w]. *)
Lemma writes_fresh (b : loc) (w w1 w2 : World Board Move) :
  only_allocates w w1 -> next_loc (boards w) <= b ->
  writes_only b w1 w2 -> only_allocates w w2.
Proof.
  intros (a1 & a2 & a3 & a4 & a5 & a6 & a7) Hb (b1 & b2 & b3 & b4 & b5 & b6 & b7).
  repeat split; try congruence; try lia.
  intros l Hl. rewrite b7, a7; auto; lia.
Qed.

Lemma append_pv_allocates (initial_message : string) (w : World Board Move) :
  only_allocates w (snd (_append_pv initial_message w)).
Proof.
  unfold _append_pv.
  unfold mbind, M_bind, gets, mret, M_ret. cbn [fst snd].
  destruct (length (last_pv (lichess_game (self w))) <? 2)%nat;
    [apply only_allocates_refl |].
  destruct (is_our_turn (lichess_game (self w)));
    unfold board_copy_stack1, board_copy_nostack, board_pop, board_turn,
      board_fullmove_number, modify, gets, mbind, M_bind, mret, M_ret;
    cbn [fst snd store_alloc store_write boards set_boards cell next_loc self];
    rewrite ?Nat.eqb_refl;
    match goal with |- context [turn ?b] => destruct (turn b) end;
    cbn [fst snd];
    (eapply writes_fresh; [| | apply pv_loop_writes]; [| cbn; lia]);
    (repeat split; cbn; [lia |]; intros l Hl;
     assert (Hne : (l =? next_loc (boards w))%nat = false)
       by (apply Nat.eqb_neq; lia);
     rewrite ?Hne; reflexivity).
Qed.

End Walk.

Section Dispatch.

Context {Board Move : Type} `{ChessBoard Board Move}.

Lemma sends_nil (w w' : World Board Move) : only_allocates w w' -> sends [] w w'.
Proof.
  intros (a1 & a2 & a3 & a4 & a5 & a6 & a7).
  repeat split; auto. now rewrite app_nil_r.
Qed.

Lemma sends_app (a b : list Sent) (w1 w2 w3 : World Board Move) :
  sends a w1 w2 -> sends b w2 w3 -> sends (a ++ b) w1 w3.
Proof.
  intros (a1 & a2 & a3 & a4 & a5 & a6 & a7) (b1 & b2 & b3 & b4 & b5 & b6 & b7).
  repeat split; try congruence; try lia.
  - rewrite b2, a2. now rewrite app_assoc.
  - intros l Hl. rewrite b7, a7; auto; lia.
Qed.

Lemma reply_sends (room text : string) (w : World Board Move) :
  sends [mkSent (id_ (game_info (self w))) room text] w (snd (reply room text w)).
Proof. repeat split; auto. Qed.

(** The evaluation message depends on the game and on its board only. *)
Lemma eval_sent_stable (room : string) (w w' : World Board Move) :
  self w' = self w ->
  cell (boards w') (board (lichess_game (self w)))
  = cell (boards w) (board (lichess_game (self w))) ->
  eval_sent w' room = eval_sent w room.
Proof.
  intros Hs Hc. unfold eval_sent, eval_text, pv_text, walk_start.
  rewrite Hs, Hc. reflexivity.
Qed.

Lemma send_last_message_sends (room : string) (w : World Board Move) :
  sends [eval_sent w room] w (snd (_send_last_message room w)).
Proof.
  unfold _send_last_message, eval_sent, eval_text.
  unfold mbind, M_bind, gets, mret, M_ret. cbn [fst snd].
  destruct (String.eqb room "spectator").
  - rewrite append_pv_value.
    match goal with
    | |- context [_append_pv ?m w] =>
        pose proof (append_pv_allocates m w) as (a1 & a2 & a3 & a4 & a5 & a6 & a7)
    end.
    unfold send_chat_message, modify.
    cbn [fst snd self sent stdout rng rng_pos boards set_sent].
    rewrite a1, a2. repeat split; auto.
  - repeat split; auto.
Qed.

(** *** The branches of [_handle_command] *)

Lemma handle_command_printeval (m : Chat_Message) :
  command_of (msg_text m) = "printeval" ->
  _handle_command (Board := Board) m =
    (increment ← gets (fun w => increment_ms (game_info (self w)));
     initial ← gets (fun w => initial_time_ms (game_info (self w)));
     if (increment =? 0)%Z && (initial <? 180000)%Z then
       _send_last_message (msg_room m)
     else
       rooms ← gets (fun w => print_eval_rooms (self w));
       if bool_decide (msg_room m ∈ rooms) then mret tt
       else
         modify (fun w => set_self (set_print_eval_rooms
                                      (print_eval_rooms (self w) ∪ {[msg_room m]})
                                      (self w)) w);;
         reply (msg_room m) "Type !quiet to stop eval printing.";;
         _send_last_message (msg_room m)).
Proof. intros Hc. unfold _handle_command. rewrite Hc. reflexivity. Qed.

Lemma handle_command_quiet (m : Chat_Message) :
  command_of (msg_text m) = "quiet" ->
  _handle_command (Board := Board) (Move := Move) m =
    modify (fun w => set_self (set_print_eval_rooms
                                 (print_eval_rooms (self w) ∖ {[msg_room m]})
                                 (self w)) w).
Proof. intros Hc. unfold _handle_command. rewrite Hc. reflexivity. Qed.

Lemma handle_command_pv (m : Chat_Message) :
  command_of (msg_text m) = "pv" ->
  _handle_command (Board := Board) m =
    (if String.eqb (msg_room m) "player" then mret tt
     else
       message ← _append_pv "";
       let message := if PyStr.truthy message then message
                      else "No modules available." in
       reply (msg_room m) message).
Proof. intros Hc. unfold _handle_command. rewrite Hc. reflexivity. Qed.

Lemma handle_command_eval (m : Chat_Message) :
  command_of (msg_text m) = "eval" ->
  _handle_command (Board := Board) m = _send_last_message (msg_room m).
Proof. intros Hc. unfold _handle_command. rewrite Hc. reflexivity. Qed.

Lemma world_eta (w : World Board Move) :
  set_self (set_print_eval_rooms (print_eval_rooms (self w)) (self w)) w = w.
Proof. destruct w as [[] ? ? ? ? ?]. reflexivity. Qed.

End Dispatch.

Section Commands.

Context {Board Move : Type} `{ChessBoard Board Move}.

Implicit Types (w : World Board Move) (m : Chat_Message).

(** C9. With fewer than two moves in the principal variation,
    [_append_pv] returns its argument as it is (the empty string too),
    and changes nothing. *)
Theorem append_pv_short w (initial_message : string) :
  length (last_pv (lichess_game (self w))) < 2 ->
  _append_pv initial_message w = (initial_message, w).
Proof.
  intros Hlen. unfold _append_pv, mbind, M_bind, gets, mret, M_ret.
  cbn [fst snd].
  destruct (Nat.ltb_spec (length (last_pv (lichess_game (self w)))) 2);
    [reflexivity | lia].
Qed.

(** C1, amended. The string that [_append_pv] returns is the prefix
    itself when there are fewer than two moves; otherwise it is one of
    the accumulated texts of the walk, the label followed by the whole
    tokens of the first [k] moves, where every text up to the [k]-th is
    within 140 characters and the next one, if there is a next move, is
    over 140. It is at most 140 characters long as soon as one move was
    accepted ([k > 0]); the text before the first move is returned
    whatever its length. *)
Theorem append_pv_budget w (initial_message : string) :
  let game := lichess_game (self w) in
  let r := fst (_append_pv initial_message w) in
  (length (last_pv game) < 2 /\ r = initial_message)
  \/ (2 <= length (last_pv game)
      /\ let b := walk_start game (boards w) in
         let label := pv_label b initial_message in
         let states := pv_states b (tail (last_pv game)) label in
         exists k,
           k <= length (tail (last_pv game))
           /\ r = nth k (label :: states) ""
           /\ Forall (fun s => String.length s <= 140) (firstn k states)
           /\ (k = length (tail (last_pv game))
               \/ 140 < String.length (nth k states ""))
           /\ (k = 0 \/ String.length r <= 140)).
Proof.
  cbn zeta. rewrite append_pv_value. unfold pv_text.
  destruct (Nat.ltb_spec (length (last_pv (lichess_game (self w)))) 2) as [Hlt|Hge];
    [left; split; [exact Hlt | reflexivity] | right; split; [exact Hge |]].
  set (b := walk_start _ _). set (label := pv_label b initial_message).
  destruct (pv_walk_cut (tail (last_pv (lichess_game (self w)))) b label)
    as (k & Hk & Hres & Hall & Hend).
  rewrite pv_states_length in Hk, Hend.
  exists k. repeat split; auto.
  rewrite Hres. destruct k as [|k]; [left; reflexivity | right].
  cbn [nth].
  set (states := pv_states _ _ _) in *.
  assert (Hlt : k < length states).
  { unfold states. rewrite pv_states_length. lia. }
  rewrite Forall_forall in Hall. apply Hall.
  rewrite <- (firstn_skipn (S k) states) at 1.
  rewrite app_nth1 by (rewrite length_firstn; lia).
  apply list_elem_of_In, nth_In. rewrite length_firstn. lia.
Qed.

(** C2. [!printeval] in a game without increment. Under three minutes
    of initial time the room gets the evaluation once and the registry
    stays as it is. From three minutes on the room is in the registry
    afterwards: a room that was not subscribed gets the acknowledgement
    and then the evaluation, and for a subscribed room nothing happens. *)
Theorem printeval_guard m w :
  command_of (msg_text m) = "printeval" ->
  increment_ms (game_info (self w)) = 0%Z ->
  let room := msg_room m in
  let w' := snd (_handle_command m w) in
  ((initial_time_ms (game_info (self w)) < 180000)%Z ->
     print_eval_rooms (self w') = print_eval_rooms (self w)
     /\ sends [eval_sent w room] w w')
  /\ ((180000 <= initial_time_ms (game_info (self w)))%Z ->
        print_eval_rooms (self w') = print_eval_rooms (self w) ∪ {[room]}
        /\ (room ∉ print_eval_rooms (self w) ->
              sent w' = sent w ++
                [mkSent (id_ (game_info (self w))) room
                        "Type !quiet to stop eval printing.";
                 eval_sent w room])
        /\ (room ∈ print_eval_rooms (self w) -> w' = w)).
Proof.
  intros Hc Hinc. cbn zeta. rewrite (handle_command_printeval m Hc).
  unfold mbind, M_bind, gets, mret, M_ret. cbn [fst snd]. rewrite Hinc.
  change (0 =? 0)%Z with true. cbn [andb].
  split; intros Ht.
  - destruct (Z.ltb_spec (initial_time_ms (game_info (self w))) 180000); [| lia].
    pose proof (send_last_message_sends (msg_room m) w) as Hs.
    split; [| exact Hs]. destruct Hs as (-> & _). reflexivity.
  - destruct (Z.ltb_spec (initial_time_ms (game_info (self w))) 180000); [lia |].
    destruct (bool_decide_reflect (msg_room m ∈ print_eval_rooms (self w))) as [Hin|Hout];
      cbn [fst snd].
    + split; [set_solver |]. split; [contradiction | reflexivity].
    + match goal with
      | |- context [_send_last_message ?r ?w1] =>
          pose proof (send_last_message_sends r w1) as (a1 & a2 & _)
      end.
      repeat split.
      * rewrite a1. reflexivity.
      * intros _. rewrite a2.
        unfold reply, send_chat_message, modify, mbind, M_bind, gets, eval_sent.
        cbn [fst snd self sent boards game_info lichess_game set_sent set_self
               set_print_eval_rooms].
        rewrite <- app_assoc. reflexivity.
      * contradiction.
Qed.

(** *** The broadcast *)

Lemma for_each_send (rooms : list string) :
  forall w, board_allocated w ->
    sends (map (eval_sent w) rooms) w (snd (for_each _send_last_message rooms w)).
Proof.
  induction rooms as [|room rest IH]; intros w Hw.
  - apply sends_nil, only_allocates_refl.
  - cbn [for_each map]. unfold mbind, M_bind.
    pose proof (send_last_message_sends room w) as Hs.
    set (w1 := snd (_send_last_message room w)) in *.
    assert (Hw1 : board_allocated w1).
    { destruct Hs as (a1 & _ & _ & _ & _ & a6 & _).
      unfold board_allocated in *. rewrite a1. lia. }
    assert (Hstable : forall r, eval_sent w1 r = eval_sent w r).
    { intros r. destruct Hs as (a1 & _ & _ & _ & _ & _ & a7).
      apply eval_sent_stable; [exact a1 | apply a7, Hw]. }
    specialize (IH w1 Hw1).
    rewrite (map_ext _ _ Hstable) in IH.
    exact (sends_app [eval_sent w room] _ w w1 _ Hs IH).
Qed.

(** C5. A tick of the broadcast. Without increment and with less than
    30 seconds on the agent's clock nothing is sent and nothing changes;
    otherwise every room of the registry is sent the evaluation message
    rendered for it, and nothing else is sent. *)
Theorem print_eval_tick w :
  board_allocated w ->
  let quiet := increment_ms (game_info (self w)) = 0%Z
               /\ (own_time (lichess_game (self w)) < 30 # 1)%Q in
  let w' := snd (print_eval w) in
  (quiet -> w' = w)
  /\ (~ quiet ->
        sends (map (eval_sent w) (elements (print_eval_rooms (self w)))) w w'
        /\ forall room, room ∈ print_eval_rooms (self w) ->
                        eval_sent w room ∈ sent w').
Proof.
  intros Hw. cbn zeta. unfold print_eval, mbind, M_bind, gets, mret, M_ret.
  cbn [fst snd]. unfold Qltb.
  split.
  - intros [-> Hlt]. change (0 =? 0)%Z with true. cbn [andb].
    destruct (Qle_bool (30 # 1) (own_time (lichess_game (self w)))) eqn:Hle;
      [| reflexivity].
    apply Qle_bool_iff in Hle. exfalso. exact (Qlt_not_le _ _ Hlt Hle).
  - intros Hloud.
    assert (Hguard : (increment_ms (game_info (self w)) =? 0)%Z
                     && negb (Qle_bool (30 # 1) (own_time (lichess_game (self w))))
                     = false).
    { destruct (Z.eqb_spec (increment_ms (game_info (self w))) 0) as [Hz|]; [| reflexivity].
      destruct (Qle_bool (30 # 1) (own_time (lichess_game (self w)))) eqn:Hle;
        [reflexivity |].
      exfalso. apply Hloud. split; [exact Hz |].
      apply Qnot_le_lt. intros Hq. apply Qle_bool_iff in Hq. congruence. }
    rewrite Hguard.
    pose proof (for_each_send (elements (print_eval_rooms (self w))) w Hw) as Hs.
    split; [exact Hs |].
    intros room Hroom. destruct Hs as (_ & -> & _).
    apply elem_of_app. right. apply list_elem_of_fmap.
    exists room. split; [reflexivity | now apply elem_of_elements].
Qed.

(** *** The command [pv] *)

Lemma handle_pv_player m w :
  command_of (msg_text m) = "pv" -> msg_room m = "player" ->
  snd (_handle_command m w) = w.
Proof.
  intros Hc Hr. rewrite (handle_command_pv m Hc), Hr. reflexivity.
Qed.

Lemma handle_pv_sends m w :
  command_of (msg_text m) = "pv" -> msg_room m <> "player" ->
  sends [mkSent (id_ (game_info (self w))) (msg_room m) (pv_reply w)] w
        (snd (_handle_command m w)).
Proof.
  intros Hc Hroom. rewrite (handle_command_pv m Hc).
  destruct (String.eqb_spec (msg_room m) "player"); [contradiction |].
  unfold mbind, M_bind. rewrite append_pv_value.
  pose proof (append_pv_allocates "" w) as Ha.
  set (w1 := snd (_append_pv "" w)) in *.
  pose proof (reply_sends (msg_room m) (pv_reply w) w1) as Hr.
  unfold pv_reply in *. cbv zeta in *.
  destruct Ha as (a1 & a2 & a3 & a4 & a5 & a6 & a7).
  destruct Hr as (b1 & b2 & b3 & b4 & b5 & b6 & b7).
  rewrite a1 in b2.
  repeat split; try congruence; try lia.
  intros l Hl. rewrite b7, a7; auto; lia.
Qed.

(** C6. [!pv] in the player room sends nothing and changes nothing. In
    any other room one message is sent: with at least two moves in the
    principal variation it is the PV text, which starts with ["PV:"]
    when White is to move in the position of the walk and with
    ["PV: N..."] otherwise, [N] being the move number of that position;
    with fewer moves it is ["No modules available."]. *)
Theorem pv_command m w :
  command_of (msg_text m) = "pv" ->
  let game := lichess_game (self w) in
  let w' := snd (_handle_command m w) in
  (msg_room m = "player" -> w' = w)
  /\ (msg_room m <> "player" ->
        exists text,
          sends [mkSent (id_ (game_info (self w))) (msg_room m) text] w w'
          /\ ((2 <= length (last_pv game)
               /\ text = pv_text game (boards w) ""
               /\ let b := walk_start game (boards w) in
                  String.prefix
                    (if turn b then "PV:"
                     else "PV: " +:+ PyStr.of_int (fullmove_number b) +:+ "...")
                    text = true)
              \/ (length (last_pv game) < 2 /\ text = "No modules available."))).
Proof.
  intros Hc. cbn zeta. split; [apply (handle_pv_player m w Hc) |].
  intros Hroom. exists (pv_reply w). split; [apply (handle_pv_sends m w Hc Hroom) |].
  unfold pv_reply, pv_text.
  destruct (Nat.ltb_spec (length (last_pv (lichess_game (self w)))) 2) as [Hlt|Hge].
  - right. split; [exact Hlt | reflexivity].
  - left. split; [exact Hge |].
    set (b := walk_start _ _).
    assert (Hlabel : pv_label b "" =
                     if turn b then "PV:"
                     else "PV: " +:+ PyStr.of_int (fullmove_number b) +:+ "...").
    { reflexivity. }
    assert (Htruthy : PyStr.truthy (pv_label b "") = true).
    { rewrite Hlabel. destruct (turn b); reflexivity. }
    rewrite (pv_walk_truthy _ b _ _ Htruthy Htruthy).
    split; [reflexivity |]. cbn zeta. rewrite <- Hlabel.
    apply pv_walk_prefix; rewrite <- (str_app_empty_r (pv_label b "")) at 2;
      apply str_prefix_app.
Qed.

End Commands.

Section Registry.

Context {Board Move : Type} `{ChessBoard Board Move}.

Implicit Types (w : World Board Move) (m : Chat_Message).

Lemma handle_line_of_lichess m w :
  msg_username m = "lichess" ->
  handle_chat_message m w
  = (tt, if String.eqb (msg_room m) "player"
         then set_stdout (stdout w ++ [msg_text m]) w
         else w).
Proof.
  unfold handle_chat_message. intros ->. cbn.
  destruct (String.eqb (msg_room m) "player"); reflexivity.
Qed.

Lemma handle_line_of_user m w :
  msg_username m <> "lichess" ->
  handle_chat_message m w
  = if PyStr.startswith_bang (msg_text m)
    then _handle_command m
           (if String.eqb (msg_username m) (username (self w)) then w
            else set_stdout (stdout w ++ [echo_line m]) w)
    else (tt, if String.eqb (msg_username m) (username (self w)) then w
              else set_stdout (stdout w ++ [echo_line m]) w).
Proof.
  unfold handle_chat_message. intros Hu.
  destruct (String.eqb_spec (msg_username m) "lichess"); [contradiction |].
  unfold mbind, M_bind, gets, print, modify, mret, M_ret. cbn [fst snd].
  destruct (String.eqb (msg_username m) (username (self w))); cbn [negb fst snd];
    destruct (PyStr.startswith_bang (msg_text m)); reflexivity.
Qed.


Lemma send_last_message_self (room : string) w :
  self (snd (_send_last_message room w)) = self w.
Proof. now destruct (send_last_message_sends room w) as (-> & _). Qed.

Lemma append_pv_self (initial_message : string) w :
  self (snd (_append_pv initial_message w)) = self w.
Proof. now destruct (append_pv_allocates initial_message w) as (-> & _). Qed.

(** What [!printeval] does outside the guard, and what [!quiet] does. *)
Lemma subscribe_effect m w :
  command_of (msg_text m) = "printeval" ->
  fast_game (game_info (self w)) = false ->
  let w' := snd (_handle_command m w) in
  print_eval_rooms (self w') = print_eval_rooms (self w) ∪ {[msg_room m]}
  /\ game_info (self w') = game_info (self w)
  /\ (msg_room m ∈ print_eval_rooms (self w) -> w' = w).
Proof.
  intros Hc Hslow. cbn zeta. rewrite (handle_command_printeval m Hc).
  unfold fast_game in Hslow.
  unfold mbind, M_bind, gets, mret, M_ret. cbn [fst snd]. rewrite Hslow.
  destruct (bool_decide_reflect (msg_room m ∈ print_eval_rooms (self w))) as [Hin|Hout];
    cbn [fst snd].
  - split; [set_solver |]. split; reflexivity.
  - rewrite send_last_message_self. cbn.
    split; [reflexivity |]. split; [reflexivity | contradiction].
Qed.

Lemma unsubscribe_effect m w :
  command_of (msg_text m) = "quiet" ->
  snd (_handle_command m w)
  = set_self (set_print_eval_rooms (print_eval_rooms (self w) ∖ {[msg_room m]})
                                   (self w)) w.
Proof. intros Hc. rewrite (handle_command_quiet m Hc). reflexivity. Qed.

(** C8. In a game that is not under the guard of [printeval], for a
    room [r]: after [!printeval] and then [!quiet] from [r] the registry
    does not contain [r]; a second [!printeval] from [r] changes
    nothing; [!quiet] from a room that is not in the registry changes
    nothing; and a second [!quiet] leaves the registry as the first
    left it. *)
Theorem registry_algebra (sub unsub : Chat_Message) w :
  command_of (msg_text sub) = "printeval" ->
  command_of (msg_text unsub) = "quiet" ->
  msg_room unsub = msg_room sub ->
  fast_game (game_info (self w)) = false ->
  (msg_room sub ∉ print_eval_rooms
                    (self (snd (_handle_command unsub (snd (_handle_command sub w))))))
  /\ (msg_room sub ∈ print_eval_rooms (self (snd (_handle_command sub w))))
  /\ snd (_handle_command sub (snd (_handle_command sub w)))
     = snd (_handle_command sub w)
  /\ (msg_room sub ∉ print_eval_rooms (self w) ->
      snd (_handle_command unsub w) = w)
  /\ print_eval_rooms
       (self (snd (_handle_command unsub (snd (_handle_command unsub w)))))
     = print_eval_rooms (self (snd (_handle_command unsub w))).
Proof.
  intros Hsub Hunsub Hroom Hslow.
  destruct (subscribe_effect sub w Hsub Hslow) as (Hrooms & Hinfo & _).
  rewrite !(unsubscribe_effect unsub _ Hunsub), Hroom.
  set (w1 := snd (_handle_command sub w)) in *.
  assert (Hin : msg_room sub ∈ print_eval_rooms (self w1)).
  { rewrite Hrooms. set_solver. }
  split; [cbn; set_solver |]. split; [exact Hin |]. split; [| split].
  - rewrite <- Hinfo in Hslow.
    destruct (subscribe_effect sub w1 Hsub Hslow) as (_ & _ & Hnoop).
    exact (Hnoop Hin).
  - intros Hout.
    replace (print_eval_rooms (self w) ∖ {[msg_room sub]})
      with (print_eval_rooms (self w)) by set_solver.
    apply world_eta.
  - cbn. set_solver.
Qed.

(** *** The registry over a whole conversation *)

(** A command adds at most the room it comes from, and only when it is
    [printeval]. *)
Lemma handle_command_rooms m w (r : string) :
  r ∈ print_eval_rooms (self (snd (_handle_command m w))) ->
  r ∈ print_eval_rooms (self w)
  \/ (r = msg_room m /\ command_of (msg_text m) = "printeval").
Proof.
  unfold _handle_command.
  repeat match goal with
         | |- context [String.eqb (command_of ?a) ?b] =>
             destruct (String.eqb_spec (command_of a) b)
         end;
    cbn [orb];
    unfold mbind, M_bind, gets, mret, M_ret; cbn [fst snd];
    rewrite ?send_last_message_self;
    try (intros Hr; left; exact Hr).
  - (* printeval *)
    destruct (_ && _); [rewrite send_last_message_self; tauto |].
    destruct (bool_decide _); cbn [fst snd]; [tauto |].
    rewrite send_last_message_self.
    unfold reply, send_chat_message, modify, mbind, M_bind, gets.
    cbn [fst snd self set_sent set_self set_print_eval_rooms print_eval_rooms].
    intros Hr. apply elem_of_union in Hr as [Hr | Hr]; [tauto |].
    right. split; [set_solver | assumption].
  - (* quiet *)
    cbn. intros Hr. left. set_solver.
  - (* pv *)
    destruct (String.eqb (msg_room m) "player"); cbn [fst snd]; [tauto |].
    unfold reply, mbind, M_bind, gets, send_chat_message, modify. cbn [fst snd].
    cbn [self set_sent]. rewrite append_pv_self. tauto.
Qed.

Lemma handle_chat_message_rooms m w (r : string) :
  r ∈ print_eval_rooms (self (snd (handle_chat_message m w))) ->
  r ∈ print_eval_rooms (self w)
  \/ (r = msg_room m /\ issues "printeval" m /\ msg_username m <> "lichess").
Proof.
  pose proof (handle_line_of_lichess m w) as Hsys.
  pose proof (handle_line_of_user m w) as Huser.
  destruct (String.eqb_spec (msg_username m) "lichess") as [Hl | Hl].
  - rewrite (Hsys Hl). cbn [snd].
    destruct (String.eqb (msg_room m) "player"); cbn; tauto.
  - rewrite (Huser Hl).
    destruct (PyStr.startswith_bang (msg_text m)) eqn:Hbang.
    + intros Hr. apply handle_command_rooms in Hr as [Hr | [Hr Hc]].
      * left. destruct (String.eqb (msg_username m) (username (self w))); exact Hr.
      * right. repeat split; assumption.
    + cbn [snd]. intros Hr. left.
      destruct (String.eqb (msg_username m) (username (self w))); exact Hr.
Qed.

Lemma handle_all_rooms (lines : list Chat_Message) :
  forall w (r : string),
    r ∈ print_eval_rooms (self (snd (handle_all lines w))) ->
    r ∈ print_eval_rooms (self w)
    \/ exists m, m ∈ lines /\ msg_room m = r /\ issues "printeval" m
                 /\ msg_username m <> "lichess".
Proof.
  induction lines as [|m rest IH]; intros w r Hr; [left; exact Hr |].
  unfold handle_all in *. cbn [for_each] in Hr. unfold mbind, M_bind in Hr.
  apply IH in Hr as [Hr | (m' & Hin & Hm')].
  - apply handle_chat_message_rooms in Hr as [Hr | (-> & Hm)]; [left; exact Hr |].
    right. exists m. split; [apply list_elem_of_here | tauto].
  - right. exists m'. split; [now apply list_elem_of_further | exact Hm'].
Qed.

(** C4. From the empty registry that the constructor makes, after any
    sequence of chat lines every room of the registry is the room of a
    line that issued [!printeval] and was not written by [lichess]; and
    with chat lines of the two rooms that there are, ["player"] and
    ["spectator"], every room of the registry is one of these two. The
    code keeps a room as a [str]; that a line comes from one of the two
    rooms is the hypothesis of the second part. *)
Theorem registry_invariant (lines : list Chat_Message) w :
  print_eval_rooms (self w) = ∅ ->
  let rooms := print_eval_rooms (self (snd (handle_all lines w))) in
  (forall r : string, r ∈ rooms ->
     exists m, m ∈ lines /\ msg_room m = r /\ issues "printeval" m
               /\ msg_username m <> "lichess")
  /\ ((forall m, m ∈ lines -> msg_room m = "player" \/ msg_room m = "spectator") ->
      forall r : string, r ∈ rooms -> r = "player" \/ r = "spectator").
Proof.
  intros Hempty. cbn zeta.
  assert (Hall : forall r : string,
             r ∈ print_eval_rooms (self (snd (handle_all lines w))) ->
             exists m, m ∈ lines /\ msg_room m = r /\ issues "printeval" m
                       /\ msg_username m <> "lichess").
  { intros r Hr. apply handle_all_rooms in Hr as [Hr | Hr]; [| exact Hr].
    rewrite Hempty in Hr. set_solver. }
  split; [exact Hall |].
  intros Hrooms r Hr. destruct (Hall r Hr) as (m & Hin & <- & _).
  now apply Hrooms.
Qed.

(** C10. [_append_pv] leaves the session as it was: the chatter object
    with its game and its principal variation, the messages sent, the
    lines printed, and every board object that existed before the call,
    the board of the game among them; it only creates the copy it walks
    on, and the text it returns is the walk from that copy, one ply back
    when it is the agent's turn. Handling [!pv] or [!eval] does the same
    and sends at most one message. *)
Theorem append_pv_frame (initial_message : string) m w :
  board_allocated w ->
  let game_board (w0 : World Board Move) :=
    cell (boards w0) (board (lichess_game (self w))) in
  (let w' := snd (_append_pv initial_message w) in
   only_allocates w w' /\ game_board w' = game_board w
   /\ fst (_append_pv initial_message w)
      = pv_text (lichess_game (self w)) (boards w) initial_message)
  /\ (command_of (msg_text m) = "pv" \/ command_of (msg_text m) = "eval" ->
      let w' := snd (_handle_command m w) in
      exists msgs, length msgs <= 1 /\ sends msgs w w'
                   /\ game_board w' = game_board w).
Proof.
  intros Hw. cbn zeta. split.
  - pose proof (append_pv_allocates initial_message w) as Ha.
    split; [exact Ha |]. split; [| apply append_pv_value].
    destruct Ha as (_ & _ & _ & _ & _ & _ & Hcells).
    apply Hcells, Hw.
  - intros [Hc | Hc].
    + destruct (String.eqb_spec (msg_room m) "player") as [Hr | Hr].
      * rewrite (handle_pv_player m w Hc Hr). exists []. repeat split; auto.
        now rewrite app_nil_r.
      * pose proof (handle_pv_sends m w Hc Hr) as Hs.
        exists [mkSent (id_ (game_info (self w))) (msg_room m) (pv_reply w)].
        repeat split; [cbn; lia | apply Hs..|].
        destruct Hs as (_ & _ & _ & _ & _ & _ & Hcells). apply Hcells, Hw.
    + rewrite (handle_command_eval m Hc).
      pose proof (send_last_message_sends (msg_room m) w) as Hs.
      exists [eval_sent w (msg_room m)].
      repeat split; [cbn; lia | apply Hs..|].
      destruct Hs as (_ & _ & _ & _ & _ & _ & Hcells). apply Hcells, Hw.
Qed.

End Registry.

(** ** The formatter on templates with plain placeholders *)

Section Formatter.

Import PyFormat Template.

Variable mapping : gmap string string.

Lemma not_special_step (out acc : string) (c : ascii) :
  negb (is_special c) = true ->
  name_step mapping out acc c = Returned (out, InName (acc +:+ chr c)).
Proof.
  unfold is_special, is_brace, name_step.
  destruct (Ascii.eqb c "{"), (Ascii.eqb c "}"), (Ascii.eqb c "["),
    (Ascii.eqb c "."), (Ascii.eqb c "!"), (Ascii.eqb c ":");
    cbn; intros Hc; try discriminate; reflexivity.
Qed.

(** Literal text without braces is copied. *)
Lemma run_text (s : string) :
  forall (out rest : string),
    all_chars (fun c => negb (is_brace c)) s = true ->
    run mapping out InText (s +:+ rest) = run mapping (out +:+ s) InText rest.
Proof.
  induction s as [|c s IH]; intros out rest Hs.
  - now rewrite str_app_empty_l, str_app_empty_r.
  - cbn [all_chars] in Hs. apply andb_prop in Hs as [Hc Hs].
    rewrite str_app_cons. cbn [run step].
    unfold is_brace in Hc.
    destruct (Ascii.eqb c "{"); [discriminate |].
    destruct (Ascii.eqb c "}"); [discriminate |].
    rewrite (IH _ _ Hs). unfold chr. now rewrite str_app_assoc.
Qed.

(** The characters of a name are gathered up to the closing brace,
    where the field is rendered. *)
Lemma run_name (n : string) :
  forall (out acc rest : string),
    all_chars (fun c => negb (is_special c)) n = true ->
    run mapping out (InName acc) (n +:+ "}" +:+ rest)
    = match emit mapping out (acc +:+ n) None "" with
      | Returned (out', m') => run mapping out' m' rest
      | Raised e => Raised e
      | NotModelled => NotModelled
      end.
Proof.
  induction n as [|c n IH]; intros out acc rest Hn.
  - rewrite str_app_empty_l, str_app_empty_r. reflexivity.
  - cbn [all_chars] in Hn. apply andb_prop in Hn as [Hc Hn].
    rewrite str_app_cons. cbn [run step].
    rewrite (not_special_step _ _ _ Hc), (IH _ _ _ Hn).
    unfold chr. now rewrite str_app_assoc.
Qed.

Lemma split_first_plain (n : string) :
  all_chars (fun c => negb (is_special c)) n = true ->
  split_first n = (n, "").
Proof.
  induction n as [|c n IH]; intros Hn; [reflexivity |].
  cbn [all_chars] in Hn. apply andb_prop in Hn as [Hc Hn].
  cbn [split_first]. rewrite (IH Hn).
  unfold is_special in Hc.
  destruct (Ascii.eqb c "."), (Ascii.eqb c "["), (is_brace c);
    cbn in Hc; try discriminate; reflexivity.
Qed.

(** A plain name is looked up in the mapping; a missing key gives the
    empty string. *)
Lemma render_plain (n : string) :
  plain_name n = true ->
  render_field mapping n None "" = Returned (default "" (mapping !! n)).
Proof.
  unfold plain_name. destruct n as [|c n]; [discriminate |].
  destruct (digit_val c) eqn:Hd; [discriminate |]. intros Hn.
  unfold render_field, get_field_object.
  rewrite (split_first_plain _ Hn).
  cbn [get_integer get_integer_from]. rewrite Hd. reflexivity.
Qed.

Lemma run_placeholder (n out rest : string) :
  plain_name n = true ->
  run mapping out InText ("{" +:+ n +:+ "}" +:+ rest)
  = run mapping (out +:+ default "" (mapping !! n)) InText rest.
Proof.
  intros Hp. pose proof (render_plain n Hp) as Hr.
  unfold plain_name in Hp. destruct n as [|c n]; [discriminate |].
  destruct (digit_val c); [discriminate |].
  pose proof Hp as Hall. cbn [all_chars] in Hp. apply andb_prop in Hp as [Hc Hn].
  rewrite str_app_cons, str_app_empty_l, str_app_cons. cbn [run step].
  change (Ascii.eqb "{" "{") with true. cbn iota.
  assert (Hopen : Ascii.eqb c "{" = false).
  { unfold is_special, is_brace in Hc. destruct (Ascii.eqb c "{"); [discriminate | reflexivity]. }
  unfold step. rewrite Hopen, (not_special_step _ _ _ Hc), (run_name _ _ _ _ Hn).
  rewrite str_app_empty_l. unfold chr, emit.
  change (String c "" +:+ n) with (String c n). now rewrite Hr.
Qed.

End Formatter.

Section FormatMessage.

Context {Board Move : Type} `{ChessBoard Board Move}.

Import PyFormat Template.

Lemma unknown_lookup (username : string) (info : Game_Information)
    (game : Lichess_Game Move) (cpu ram n : string) :
  known n = false ->
  format_mapping username info game cpu ram !! n = None.
Proof.
  unfold known, format_mapping. intros Hk.
  destruct (String.eqb_spec n "opponent"); [discriminate |].
  destruct (String.eqb_spec n "me"); [discriminate |].
  destruct (String.eqb_spec n "engine"); [discriminate |].
  destruct (String.eqb_spec n "cpu"); [discriminate |].
  destruct (String.eqb_spec n "ram"); [discriminate |].
  rewrite !lookup_insert_ne by congruence. apply lookup_empty.
Qed.

Lemma run_pieces (username : string) (info : Game_Information)
    (game : Lichess_Game Move) (cpu ram : string) (ps : list piece) :
  forall out : string,
    forallb piece_ok ps = true ->
    run (format_mapping username info game cpu ram) out InText (written ps)
    = Returned (out +:+ erased ps).
Proof.
  induction ps as [|[s | n] ps IH]; intros out Hok.
  - cbn. now rewrite str_app_empty_r.
  - cbn [forallb piece_ok] in Hok. apply andb_prop in Hok as [Hs Hok].
    cbn [written erased]. rewrite (run_text _ _ _ _ Hs), (IH _ Hok).
    now rewrite str_app_assoc.
  - cbn [forallb piece_ok] in Hok. apply andb_prop in Hok as [Hn Hok].
    apply andb_prop in Hn as [Hplain Hunknown].
    apply negb_true_iff in Hunknown.
    cbn [written erased]. rewrite (run_placeholder _ _ _ _ Hplain).
    rewrite (unknown_lookup _ _ _ _ _ _ Hunknown). cbn [default].
    rewrite str_app_empty_r. exact (IH _ Hok).
Qed.

(** The constructor makes the registry empty. *)
Lemma init_registry_empty (config : Config) (username : string)
    (info : Game_Information) (game : Lichess_Game Move) (cpu ram draw : string)
    (c : Chatter Move) :
  __init__ config username info game cpu ram draw = Returned c ->
  print_eval_rooms c = ∅.
Proof.
  unfold __init__.
  repeat match goal with
         | |- context [match ?o with Returned _ => _ | Raised _ => _ | NotModelled => _ end] =>
             destruct o; try discriminate
         end.
  intros [= <-]. reflexivity.
Qed.

(** C3, amended. [_format_message] returns [None] for a template that
    is [None] or empty, and a greeting that is [None] is not sent. For a
    template made of text without braces and of placeholders [{name}]
    whose names are plain (no digit in front, none of the characters
    [{ } [ . ! :]) and not among the five known names, it returns the
    template with every placeholder replaced by the empty string.
    Placeholders of other shapes may raise, also under unknown names. *)
Theorem format_message_plain (username : string) (info : Game_Information)
    (game : Lichess_Game Move) (cpu ram : string) :
  _format_message username info game cpu ram None = Returned None
  /\ _format_message username info game cpu ram (Some "") = Returned None
  /\ (forall (room : string) (w : World Board Move),
        send_if_set room None w = (tt, w))
  /\ (forall ps : list piece,
        forallb piece_ok ps = true ->
        written ps <> "" ->
        _format_message username info game cpu ram (Some (written ps))
        = Returned (Some (erased ps))).
Proof.
  repeat split.
  intros ps Hok Hne. unfold _format_message, PyStr.truthy.
  destruct (String.eqb_spec (written ps) ""); [contradiction |].
  cbn [negb]. unfold format_map. now rewrite (run_pieces _ _ _ _ _ _ _ Hok).
Qed.

End FormatMessage.

(** ** The theorems on concrete sessions

    The sessions of module [Sheet]: a five-minute game ([blitz]) or a
    one-minute game ([bullet]) without increment, after 1. e4 e5 2. Nf3. *)

(** The builder on the session after 2. Nf3, on the session one ply
    later, where the walk starts one ply back, and after an evaluation. *)
Example pv_after_Nf3 :
  fst (_append_pv "" (Sheet.the_world Sheet.blitz Sheet.the_game ∅))
  = "PV: 2... Nc6 3. Bb5 a6".
Proof. reflexivity. Qed.

Example pv_one_ply_back :
  fst (_append_pv "" Sheet.our_turn_world) = "PV: 2... Nc6 3. Bb5 a6".
Proof. reflexivity. Qed.

Example pv_after_evaluation :
  sent (snd (_send_last_message "spectator"
               (Sheet.the_world Sheet.blitz Sheet.the_game ∅)))
  = [mkSent "g1" "spectator" "Evaluation: +0.35 Depth: 20 PV: 2... Nc6 3. Bb5 a6"].
Proof. reflexivity. Qed.

(** Forty moves do not fit: the text ends with the last whole move within
    140 characters. *)
Example pv_cut_at_a_move :
  let text := fst (_append_pv "" (Sheet.the_world Sheet.blitz
                                    (Sheet.game_with Sheet.long_pv (45 # 1)) ∅)) in
  text = "PV: 2... Nc6 3. Bb5 Nc6 4. Bb5 Nc6 5. Bb5 Nc6 6. Bb5 Nc6 7. Bb5 Nc6 8. Bb5 Nc6 9. Bb5 Nc6 10. Bb5 Nc6 11. Bb5 Nc6 12. Bb5 Nc6 13. Bb5 Nc6"
  /\ String.length text = 137.
Proof. split; vm_compute; reflexivity. Qed.

(** The formatter on a greeting with known placeholders. *)
Example greeting_with_names :
  _format_message "bot" Sheet.blitz Sheet.the_game "CPU" "16.0 GiB"
                  (Some "Hi {opponent}, I am {me} on {engine}{{}}")
  = PyFormat.Returned (Some "Hi Ann, I am bot on Stockfish{}").
Proof. vm_compute. reflexivity. Qed.

(** C9 on a session whose engine expects a single move. *)
Lemma append_pv_short_example :
  length (last_pv (lichess_game (self (Sheet.the_world Sheet.blitz Sheet.one_move ∅)))) < 2
  /\ _append_pv "Evaluation: +0.35" (Sheet.the_world Sheet.blitz Sheet.one_move ∅)
     = ("Evaluation: +0.35", Sheet.the_world Sheet.blitz Sheet.one_move ∅).
Proof.
  split; [cbn; lia | apply append_pv_short; cbn; lia].
Defined.

(** C1 as stated fails: with a prefix of 141 characters and a principal
    variation of four moves, [_append_pv] returns the prefix, a space and
    the label ["PV: 2..."], 150 characters in all. *)
Lemma append_pv_over_budget :
  fst (_append_pv Sheet.long_prefix (Sheet.the_world Sheet.blitz Sheet.the_game ∅))
  = Sheet.long_prefix +:+ " PV: 2..."
  /\ ~ String.length
         (fst (_append_pv Sheet.long_prefix
                 (Sheet.the_world Sheet.blitz Sheet.the_game ∅))) <= 140.
Proof.
  split; [vm_compute; reflexivity |]. vm_compute. lia.
Qed.

(** C2 on the one-minute game and on the five-minute game. *)
Lemma printeval_guard_example :
  let m := Sheet.line "player" "!printeval" in
  let fast := Sheet.the_world Sheet.bullet Sheet.the_game ∅ in
  let slow := Sheet.the_world Sheet.blitz Sheet.the_game ∅ in
  (print_eval_rooms (self (snd (_handle_command m fast))) = ∅
   /\ sends [eval_sent fast "player"] fast (snd (_handle_command m fast)))
  /\ print_eval_rooms (self (snd (_handle_command m slow))) = ∅ ∪ {["player"]}.
Proof.
  cbn zeta. split.
  - apply (proj1 (printeval_guard (Sheet.line "player" "!printeval")
                    (Sheet.the_world Sheet.bullet Sheet.the_game ∅) eq_refl eq_refl)).
    reflexivity.
  - apply (proj2 (printeval_guard (Sheet.line "player" "!printeval")
                    (Sheet.the_world Sheet.blitz Sheet.the_game ∅) eq_refl eq_refl)).
    discriminate.
Defined.

(** C5 with 10 seconds and with 45 seconds on the clock, both rooms being
    subscribed. *)
Lemma print_eval_tick_example :
  let rooms : gset string := {["player"; "spectator"]} in
  let hurried := Sheet.the_world Sheet.blitz Sheet.short_of_time rooms in
  let calm := Sheet.the_world Sheet.blitz Sheet.the_game rooms in
  snd (print_eval hurried) = hurried
  /\ forall room : string, room ∈ rooms -> eval_sent calm room ∈ sent (snd (print_eval calm)).
Proof.
  cbn zeta.
  pose proof (print_eval_tick
                (Sheet.the_world Sheet.blitz Sheet.short_of_time {["player"; "spectator"]})
                (Nat.lt_0_succ 0)) as Hhurried.
  pose proof (print_eval_tick
                (Sheet.the_world Sheet.blitz Sheet.the_game {["player"; "spectator"]})
                (Nat.lt_0_succ 0)) as Hcalm.
  cbv zeta in Hhurried, Hcalm. split.
  - apply (proj1 Hhurried). split; reflexivity.
  - apply (proj2 Hcalm). intros [_ Hlt]. discriminate Hlt.
Defined.

(** C6 in the player room and in the spectator room. *)
Lemma pv_command_example :
  let w := Sheet.the_world Sheet.blitz Sheet.the_game ∅ in
  snd (_handle_command (Sheet.line "player" "!pv") w) = w
  /\ exists text : string,
       sends [mkSent "g1" "spectator" text] w
             (snd (_handle_command (Sheet.line "spectator" "!PV") w))
       /\ String.prefix "PV: 2..." text = true.
Proof.
  cbn zeta. split.
  - exact (proj1 (pv_command (Sheet.line "player" "!pv")
                    (Sheet.the_world Sheet.blitz Sheet.the_game ∅) eq_refl) eq_refl).
  - destruct (proj2 (pv_command (Sheet.line "spectator" "!PV")
                       (Sheet.the_world Sheet.blitz Sheet.the_game ∅) eq_refl))
      as (text & Hsends & [(_ & _ & Hprefix) | (Hshort & _)]).
    + discriminate.
    + exists text. split; [exact Hsends | exact Hprefix].
    + cbn in Hshort. lia.
Defined.


(** C8 in the spectator room of the five-minute game. *)
Lemma registry_algebra_example :
  let w := Sheet.the_world Sheet.blitz Sheet.the_game ∅ in
  let sub := Sheet.line "spectator" "!printeval" in
  let unsub := Sheet.line "spectator" "!quiet" in
  ("spectator" ∉ print_eval_rooms
                   (self (snd (_handle_command unsub (snd (_handle_command sub w))))))
  /\ snd (_handle_command sub (snd (_handle_command sub w)))
     = snd (_handle_command sub w).
Proof.
  cbn zeta.
  destruct (registry_algebra (Sheet.line "spectator" "!printeval")
              (Sheet.line "spectator" "!quiet")
              (Sheet.the_world Sheet.blitz Sheet.the_game ∅)
              eq_refl eq_refl eq_refl eq_refl) as (Hout & _ & Htwice & _).
  split; [exact Hout | exact Htwice].
Defined.

(** C4 on a conversation in the two rooms. *)
Lemma registry_invariant_example :
  let w := Sheet.the_world Sheet.blitz Sheet.the_game ∅ in
  let lines := [Sheet.line "spectator" "!printeval"; Sheet.line "player" "!eval"] in
  print_eval_rooms (self w) = ∅
  /\ forall r : string,
       r ∈ print_eval_rooms (self (snd (handle_all lines w))) ->
       r = "player" \/ r = "spectator".
Proof.
  cbn zeta. split; [reflexivity |].
  pose proof (registry_invariant
                [Sheet.line "spectator" "!printeval"; Sheet.line "player" "!eval"]
                (Sheet.the_world Sheet.blitz Sheet.the_game ∅) eq_refl) as Hinv.
  cbv zeta in Hinv. apply (proj2 Hinv).
  intros m Hm. apply list_elem_of_In in Hm.
  destruct Hm as [<- | [<- | []]]; [right | left]; reflexivity.
Defined.

(** C10 on [!pv] from the spectator room. *)
Lemma append_pv_frame_example :
  let w := Sheet.the_world Sheet.blitz Sheet.the_game ∅ in
  only_allocates w (snd (_append_pv "" w))
  /\ cell (boards (snd (_append_pv "" w))) 0 = Sheet.after_Nf3
  /\ cell (boards (snd (_handle_command (Sheet.line "spectator" "!pv") w))) 0
     = Sheet.after_Nf3.
Proof.
  cbn zeta.
  pose proof (append_pv_frame "" (Sheet.line "spectator" "!pv")
                (Sheet.the_world Sheet.blitz Sheet.the_game ∅) (Nat.lt_0_succ 0)) as Hframe.
  cbv zeta in Hframe. destruct Hframe as [(Halloc & Hboard & _) Hcommand].
  destruct (Hcommand (or_introl eq_refl)) as (msgs & _ & _ & Hboard').
  split; [exact Halloc |]. split; [exact Hboard | exact Hboard'].
Defined.

(** C3, amended, on a greeting with an unknown placeholder. *)
Lemma format_message_plain_example :
  _format_message "bot" Sheet.blitz Sheet.the_game "CPU" "16.0 GiB"
                  (Some "Good luck {friend}!")
  = PyFormat.Returned (Some "Good luck !").
Proof.
  destruct (format_message_plain (Board := Sheet.sheet) "bot" Sheet.blitz Sheet.the_game
              "CPU" "16.0 GiB") as (_ & _ & _ & Hplain).
  apply (Hplain [Template.Text "Good luck "; Template.Placeholder "friend";
                 Template.Text "!"]).
  - reflexivity.
  - discriminate.
Defined.

(** C3 as stated fails: the placeholder [{friend[0]}] has an unknown
    name, and formatting it raises [IndexError], the empty string having
    no first character; the template comes back neither as
    ["Good luck !"] nor at all. *)
Lemma format_message_unknown_raises :
  _format_message "bot" Sheet.blitz Sheet.the_game "CPU" "16.0 GiB"
                  (Some "Good luck {friend[0]}!")
  = PyFormat.Raised PyFormat.IndexError
  /\ _format_message "bot" Sheet.blitz Sheet.the_game "CPU" "16.0 GiB"
                     (Some "Good luck {friend[0]}!")
     <> PyFormat.Returned (Some "Good luck !").
Proof.
  assert (Hraise : _format_message "bot" Sheet.blitz Sheet.the_game "CPU" "16.0 GiB"
                                   (Some "Good luck {friend[0]}!")
                   = PyFormat.Raised PyFormat.IndexError)
    by (vm_compute; reflexivity).
  split; [exact Hraise |]. rewrite Hraise. discriminate.
Qed.

Lemma str_prefix_app_same (a : string) : String.prefix a a = true.
Proof. rewrite <- (str_app_empty_r a) at 2. apply str_prefix_app. Qed.

Lemma str_prefix_weaken (a b c : string) :
  String.prefix (a +:+ b) c = true -> String.prefix a c = true.
Proof.
  revert c. induction a as [|x a IH]; intros c Hp; [apply str_prefix_empty |].
  destruct c as [|y c]; [discriminate |].
  rewrite str_app_cons in Hp. cbn [String.prefix] in *.
  destruct (ascii_dec x y); [now apply IH | discriminate].
Qed.

Lemma str_prefix_trans (a b c : string) :
  String.prefix a b = true -> String.prefix b c = true -> String.prefix a c = true.
Proof.
  revert b c. induction a as [|x a IH]; intros b c Hab Hbc; [apply str_prefix_empty |].
  destruct b as [|y b]; [discriminate |]. destruct c as [|z c]; [discriminate |].
  cbn [String.prefix] in *.
  destruct (ascii_dec x y) as [-> |]; [| discriminate].
  destruct (ascii_dec y z); [now apply (IH b c) | discriminate].
Qed.

Lemma last_default {A : Type} (l : list A) (d d' : A) :
  l <> [] -> List.last l d = List.last l d'.
Proof.
  induction l as [|x l IH]; intros Hne; [contradiction |].
  destruct l as [|y l]; [reflexivity |].
  change (List.last (x :: y :: l) d) with (List.last (y :: l) d).
  change (List.last (x :: y :: l) d') with (List.last (y :: l) d').
  apply IH. discriminate.
Qed.

(** ** The evaluation text: white space and the word Engine *)

Section Normalise.

Import Text.

Lemma join_cons (w : string) (ws : list string) :
  ws <> [] -> PyStr.join " " (w :: ws) = w +:+ " " +:+ PyStr.join " " ws.
Proof. destruct ws; [contradiction | reflexivity]. Qed.

Lemma no_space_app (a b : string) :
  no_space (a +:+ b) = no_space a && no_space b.
Proof.
  induction a as [|c a IH]; [reflexivity |].
  rewrite str_app_cons. cbn [no_space]. rewrite IH. now rewrite andb_assoc.
Qed.

(** The words that [split] returns are words. *)
Lemma split_from_words (s : string) :
  forall cur : string,
    no_space cur = true -> Forall (fun w => word w = true) (PyStr.split_from cur s).
Proof.
  induction s as [|c s IH]; intros cur Hcur; cbn [PyStr.split_from].
  - destruct (String.eqb_spec cur ""); [constructor |].
    constructor; [| constructor]. unfold word, PyStr.truthy.
    destruct (String.eqb_spec cur ""); [contradiction | exact Hcur].
  - destruct (PyStr.isspace c) eqn:Hc.
    + destruct (String.eqb_spec cur ""); [now apply IH |].
      constructor; [| now apply IH]. unfold word, PyStr.truthy.
      destruct (String.eqb_spec cur ""); [contradiction | exact Hcur].
    + apply IH. rewrite no_space_app, Hcur. cbn. now rewrite Hc.
Qed.

Lemma single_spaced_word (w rest : string) (b : bool) :
  word w = true ->
  single_spaced b (w +:+ rest)
  = match rest with
    | EmptyString => true
    | _ => single_spaced false rest
    end.
Proof.
  unfold word. intros Hw. apply andb_prop in Hw as [Hne Hw].
  destruct w as [|c w]; [discriminate |]. clear Hne.
  revert c b Hw. induction w as [|d w IH]; intros c b Hw.
  - cbn in Hw. rewrite andb_true_r in Hw. apply negb_true_iff in Hw.
    rewrite str_app_cons, str_app_empty_l. cbn [single_spaced].
    assert (Hsp : Ascii.eqb c " " = false).
    { destruct (Ascii.eqb_spec c " ") as [-> |]; [discriminate | reflexivity]. }
    rewrite Hsp, Hw. destruct rest; reflexivity.
  - cbn [no_space] in Hw. apply andb_prop in Hw as [Hc Hw].
    apply negb_true_iff in Hc.
    rewrite str_app_cons. cbn [single_spaced].
    assert (Hsp : Ascii.eqb c " " = false).
    { destruct (Ascii.eqb_spec c " ") as [-> |]; [discriminate | reflexivity]. }
    rewrite Hsp, Hc. cbn [negb andb]. rewrite (IH d false Hw).
    reflexivity.
Qed.

Lemma join_words_tidy (ws : list string) :
  Forall (fun w => word w = true) ws -> tidy (PyStr.join " " ws) = true.
Proof.
  intros Hws.
  assert (Hnonempty : forall b, ws <> [] -> single_spaced b (PyStr.join " " ws) = true).
  { induction Hws as [|w ws Hw Hws IH]; intros b Hne; [contradiction |].
    destruct ws as [|w' ws].
    - cbn. rewrite <- (str_app_empty_r w). now rewrite (single_spaced_word w "" b Hw).
    - rewrite join_cons by discriminate.
      rewrite (single_spaced_word w _ b Hw).
      change (" " +:+ PyStr.join " " (w' :: ws)) with (String " " (PyStr.join " " (w' :: ws))).
      cbn [single_spaced]. change (Ascii.eqb " " " ") with true. cbn [negb andb].
      apply IH. discriminate. }
  unfold tidy. destruct (PyStr.join " " ws) eqn:Hj; [reflexivity |].
  apply Hnonempty. intros ->. discriminate.
Qed.

Lemma normalise_tidy (s : string) : tidy (normalise s) = true.
Proof. apply join_words_tidy, split_from_words. reflexivity. Qed.

(** On a tidy text, [split] and [join] undo each other. *)
Lemma split_from_join (s : string) :
  forall cur : string,
    single_spaced (String.eqb cur "") s = true ->
    PyStr.join " " (PyStr.split_from cur s) = cur +:+ s.
Proof.
  induction s as [|c s IH]; intros cur Hs; cbn [PyStr.split_from].
  - cbn in Hs. apply negb_true_iff in Hs. rewrite Hs. cbn. now rewrite str_app_empty_r.
  - cbn [single_spaced] in Hs.
    destruct (Ascii.eqb_spec c " ") as [-> | Hc].
    + apply andb_prop in Hs as [Hcur Hs]. apply negb_true_iff in Hcur.
      change (PyStr.isspace " ") with true. cbn iota. rewrite Hcur.
      pose proof (IH "" Hs) as Hrest. rewrite str_app_empty_l in Hrest.
      rewrite join_cons.
      * rewrite Hrest. reflexivity.
      * intros Hnil. rewrite Hnil in Hrest. cbn in Hrest.
        rewrite <- Hrest in Hs. discriminate.
    + apply andb_prop in Hs as [Hsp Hs]. apply negb_true_iff in Hsp. rewrite Hsp.
      rewrite (IH (cur +:+ String c "")).
      * now rewrite str_app_assoc.
      * destruct cur; exact Hs.
Qed.

Lemma normalise_of_tidy (s : string) : tidy s = true -> normalise s = s.
Proof.
  unfold tidy, normalise, PyStr.split. destruct s as [|c s]; [reflexivity |].
  intros Hs. now rewrite (split_from_join _ "" Hs).
Qed.

End Normalise.

Section Replaced.

Import Text.

Lemma occurs_cons (pat : string) (c : ascii) (s : string) :
  occurs pat (String c s) = String.prefix pat (String c s) || occurs pat s.
Proof. reflexivity. Qed.

Lemma occurs_app_r (pat a b : string) :
  occurs pat b = true -> occurs pat (a +:+ b) = true.
Proof.
  intros Hb. induction a as [|x a IH]; [exact Hb |].
  rewrite str_app_cons, occurs_cons, IH. apply orb_true_r.
Qed.

Lemma occurs_app_l (pat a b : string) :
  occurs pat a = true -> occurs pat (a +:+ b) = true.
Proof.
  induction a as [|x a IH]; intros Ha.
  - destruct pat; [destruct b; reflexivity | discriminate].
  - rewrite occurs_cons in Ha. rewrite str_app_cons, occurs_cons.
    apply orb_true_iff in Ha as [Ha | Ha].
    + rewrite <- str_app_cons, (str_prefix_trans_app _ _ _ Ha). reflexivity.
    + rewrite (IH Ha). apply orb_true_r.
Qed.

(** A pattern without spaces that starts before a space ends before it. *)
Lemma prefix_before_space (pat : string) :
  forall a b : string,
    no_space pat = true ->
    String.prefix pat (a +:+ String " " b) = true -> String.prefix pat a = true.
Proof.
  induction pat as [|p pat IH]; intros a b Hpat Hp; [apply str_prefix_empty |].
  cbn [no_space] in Hpat. apply andb_prop in Hpat as [Hc Hpat].
  destruct a as [|x a].
  - rewrite str_app_empty_l in Hp. cbn in Hp.
    destruct (ascii_dec p " ") as [-> |]; [discriminate | discriminate].
  - rewrite str_app_cons in Hp. cbn in Hp |- *.
    destruct (ascii_dec p x); [now apply (IH a b) | discriminate].
Qed.

Lemma occurs_around_space (pat a b : string) :
  no_space pat = true ->
  occurs pat (a +:+ String " " b) = true ->
  occurs pat a = true \/ occurs pat b = true.
Proof.
  intros Hpat. induction a as [|x a IH]; intros Ho.
  - rewrite str_app_empty_l, occurs_cons in Ho.
    apply orb_true_iff in Ho as [Ho | Ho]; [| right; exact Ho].
    left. change (String " " b) with ("" +:+ String " " b) in Ho.
    apply (prefix_before_space pat "" b Hpat) in Ho.
    destruct pat; [reflexivity | discriminate].
  - rewrite str_app_cons, occurs_cons in Ho.
    apply orb_true_iff in Ho as [Ho | Ho].
    + left. rewrite <- str_app_cons in Ho.
      apply (prefix_before_space pat _ b Hpat) in Ho.
      rewrite occurs_cons, Ho. reflexivity.
    + destruct (IH Ho) as [Ha | Hb]; [left | right; exact Hb].
      rewrite occurs_cons, Ha. apply orb_true_r.
Qed.

(** What occurs in the normalised text occurred in the text. *)
Lemma occurs_split_from (pat : string) (s : string) :
  no_space pat = true ->
  forall cur : string,
    occurs pat (PyStr.join " " (PyStr.split_from cur s)) = true ->
    occurs pat (cur +:+ s) = true.
Proof.
  intros Hpat. induction s as [|c s IH]; intros cur Ho; cbn [PyStr.split_from] in Ho.
  - rewrite str_app_empty_r.
    destruct (String.eqb_spec cur "") as [Heq | Hne]; [subst cur |]; exact Ho.
  - destruct (PyStr.isspace c) eqn:Hc.
    + destruct (String.eqb_spec cur "") as [Heq | Hcur].
      * subst cur. rewrite str_app_empty_l, occurs_cons.
        pose proof (IH "" Ho) as Hs. rewrite str_app_empty_l in Hs.
        rewrite Hs. apply orb_true_r.
      * destruct (PyStr.split_from "" s) as [|w ws] eqn:Hrest.
        -- cbn in Ho. now apply occurs_app_l.
        -- rewrite join_cons in Ho by discriminate.
           change (" " +:+ PyStr.join " " (w :: ws))
             with (String " " (PyStr.join " " (w :: ws))) in Ho.
           apply (occurs_around_space _ _ _ Hpat) in Ho as [Ho | Ho].
           ++ now apply occurs_app_l.
           ++ apply occurs_app_r. rewrite occurs_cons.
              rewrite <- Hrest in Ho.
              pose proof (IH "" Ho) as Hs. rewrite str_app_empty_l in Hs.
              rewrite Hs. apply orb_true_r.
    + apply IH in Ho. now rewrite str_app_assoc in Ho.
Qed.

Lemma occurs_normalise (pat s : string) :
  no_space pat = true -> occurs pat (normalise s) = true -> occurs pat s = true.
Proof. intros Hpat Ho. exact (occurs_split_from pat s Hpat "" Ho). Qed.

(** *** The word Engine *)

Lemma replaced_prefix (q : string) :
  no_capital_E q = true ->
  forall t : string,
    String.prefix q (PyStr.replace_from "Engine" "Evaluation" 0 t) = true ->
    String.prefix q t = true.
Proof.
  induction q as [|c q IH]; intros Hq t Hp; [apply str_prefix_empty |].
  cbn [no_capital_E Template.all_chars] in Hq. apply andb_prop in Hq as [Hc Hq].
  apply negb_true_iff in Hc.
  destruct t as [|x t]; [discriminate |].
  cbn [PyStr.replace_from] in Hp.
  destruct (String.prefix "Engine" (String x t)).
  - rewrite str_app_cons in Hp. cbn [String.prefix] in Hp.
    destruct (ascii_dec c "E") as [Heq | Hne]; [| discriminate Hp].
    subst c. discriminate Hc.
  - cbn [String.prefix] in Hp |- *.
    destruct (ascii_dec c x); [now apply IH | discriminate].
Qed.

Lemma replaced_not_prefix (s : string) :
  forall skip : nat,
    String.prefix "Engine" (PyStr.replace_from "Engine" "Evaluation" skip s) = false.
Proof.
  induction s as [|c s IH]; intros skip; [reflexivity |].
  cbn [PyStr.replace_from]. destruct skip as [|skip]; [| apply IH].
  destruct (String.prefix "Engine" (String c s)) eqn:Hm; [reflexivity |].
  destruct (String.prefix "Engine"
              (String c (PyStr.replace_from "Engine" "Evaluation" 0 s))) eqn:Hp;
    [| reflexivity].
  cbn [String.prefix] in Hp, Hm.
  destruct (ascii_dec "E" c); [| discriminate Hp].
  apply (replaced_prefix "ngine" eq_refl) in Hp. congruence.
Qed.

Lemma replaced_no_engine (s : string) :
  forall skip : nat,
    occurs "Engine" (PyStr.replace_from "Engine" "Evaluation" skip s) = false.
Proof.
  induction s as [|c s IH]; intros skip; [reflexivity |].
  cbn [PyStr.replace_from]. destruct skip as [|skip]; [| apply IH].
  destruct (String.prefix "Engine" (String c s)) eqn:Hm.
  - change ("Evaluation" +:+ PyStr.replace_from "Engine" "Evaluation"
                               (String.length "Engine" - 1) s)
      with (String "E" (String "v" (String "a" (String "l" (String "u" (String "a"
             (String "t" (String "i" (String "o" (String "n"
                (PyStr.replace_from "Engine" "Evaluation" 5 s))))))))))).
    rewrite !occurs_cons, IH. reflexivity.
  - rewrite occurs_cons, IH, orb_false_r.
    pose proof (replaced_not_prefix (String c s) 0) as Hn.
    cbn [PyStr.replace_from] in Hn. now rewrite Hm in Hn.
Qed.

End Replaced.

(** ** The dispatcher, command by command *)

Section Footprints.

Context {Board Move : Type} `{ChessBoard Board Move}.

Implicit Types (w : World Board Move) (m : Chat_Message).

(** What a command does to the chatter object. *)
Lemma handle_command_self m w :
  self (snd (_handle_command m w))
  = if String.eqb (command_of (msg_text m)) "printeval" then
      if fast_game (game_info (self w)) then self w
      else set_print_eval_rooms (print_eval_rooms (self w) ∪ {[msg_room m]}) (self w)
    else if String.eqb (command_of (msg_text m)) "quiet" then
      set_print_eval_rooms (print_eval_rooms (self w) ∖ {[msg_room m]}) (self w)
    else self w.
Proof.
  unfold _handle_command, fast_game.
  repeat match goal with
         | |- context [String.eqb (command_of ?a) ?b] =>
             destruct (String.eqb_spec (command_of a) b)
         end;
    try congruence;
    cbn [orb];
    unfold mbind, M_bind, gets, mret, M_ret; cbn [fst snd];
    rewrite ?send_last_message_self;
    try reflexivity.
  - (* printeval *)
    destruct (_ && _); [now rewrite send_last_message_self |].
    destruct (bool_decide_reflect (msg_room m ∈ print_eval_rooms (self w))) as [Hin|Hout];
      cbn [fst snd].
    + replace (print_eval_rooms (self w) ∪ {[msg_room m]})
        with (print_eval_rooms (self w)) by set_solver.
      destruct (self w); reflexivity.
    + now rewrite send_last_message_self.
  - (* pv *)
    destruct (String.eqb (msg_room m) "player"); cbn [fst snd]; [reflexivity |].
    unfold reply, mbind, M_bind, gets, send_chat_message, modify. cbn [fst snd].
    cbn [self set_sent]. apply append_pv_self.
Qed.


Lemma same_context_refl (c : Chatter Move) : same_context c c.
Proof. unfold same_context. destruct c; reflexivity. Qed.

Lemma footprint_of_sends m (msgs : list Sent) w w' :
  sends msgs w w' ->
  length msgs <= 2 ->
  Forall (fun s => sent_room s = msg_room m
                   /\ sent_game s = id_ (game_info (self w))) msgs ->
  command_footprint m w w'.
Proof.
  intros (a1 & a2 & a3 & a4 & a5 & a6 & a7) Hlen Hall.
  unfold command_footprint. rewrite a1.
  split; [apply same_context_refl |]. split; [exact a3 |]. split; [exact a4 |].
  split; [exists msgs; auto |]. split; [exact a6 | exact a7].
Qed.

Lemma footprint_reply m (text : string) w :
  command_footprint m w (snd (reply (msg_room m) text w)).
Proof.
  apply (footprint_of_sends m _ w _ (reply_sends (msg_room m) text w)); [cbn; lia |].
  constructor; [split; reflexivity | constructor].
Qed.

Lemma footprint_gets_reply m (f : World Board Move -> string) w :
  command_footprint m w (snd ((text ← gets f; reply (msg_room m) text) w)).
Proof. apply (footprint_reply m (f w) w). Qed.

Lemma footprint_eval m w :
  command_footprint m w (snd (_send_last_message (msg_room m) w)).
Proof.
  apply (footprint_of_sends m _ w _ (send_last_message_sends (msg_room m) w));
    [cbn; lia |].
  constructor; [split; reflexivity | constructor].
Qed.

Lemma footprint_noop m w : command_footprint m w w.
Proof.
  apply (footprint_of_sends m [] w w); [| cbn; lia | constructor].
  apply sends_nil, only_allocates_refl.
Qed.

Lemma footprint_random m (table : list string) w :
  command_footprint m w
    (snd ((text ← random_choice table; reply (msg_room m) text) w)).
Proof.
  unfold command_footprint.
  split; [apply same_context_refl |]. split; [reflexivity |]. split; [reflexivity |].
  split; [| split; [apply Nat.le_refl | reflexivity]].
  eexists. split; [reflexivity |]. split; [cbn; lia |].
  constructor; [split; reflexivity | constructor].
Qed.

(** The reply to [roast], [destroy], [troll] and [quotes] is a line of the
    table. *)
Lemma random_choice_in (table : list string) w :
  table <> [] -> fst (random_choice table w) ∈ table.
Proof.
  intros Hne. unfold random_choice. cbn [fst].
  apply list_elem_of_In, nth_In, Nat.mod_upper_bound.
  destruct table; [contradiction | discriminate].
Qed.

(** Whatever the text of a chat line, [_handle_command] stays within the
    footprint of a command. *)
Lemma handle_command_footprint m w :
  command_footprint m w (snd (_handle_command m w)).
Proof.
  destruct (String.eqb_spec (command_of (msg_text m)) "pv") as [Hpv | Hpv].
  { destruct (String.eqb_spec (msg_room m) "player") as [Hr | Hr].
    - rewrite (handle_pv_player m w Hpv Hr). apply footprint_noop.
    - apply (footprint_of_sends m _ w _ (handle_pv_sends m w Hpv Hr)); [cbn; lia |].
      constructor; [split; reflexivity | constructor]. }
  destruct (String.eqb_spec (command_of (msg_text m)) "eval") as [He | He].
  { rewrite (handle_command_eval m He). apply footprint_eval. }
  destruct (String.eqb_spec (command_of (msg_text m)) "quiet") as [Hq | Hq].
  { rewrite (handle_command_quiet m Hq). unfold command_footprint, same_context.
    cbn. repeat split; auto. exists []. rewrite app_nil_r.
    repeat split; auto. }
  destruct (String.eqb_spec (command_of (msg_text m)) "printeval") as [Hp | Hp].
  { rewrite (handle_command_printeval m Hp).
    unfold mbind, M_bind, gets, mret, M_ret. cbn [fst snd].
    destruct (_ && _); [apply footprint_eval |].
    destruct (bool_decide (msg_room m ∈ print_eval_rooms (self w))); cbn [fst snd];
      [apply footprint_noop |].
    unfold modify. cbn [fst snd].
    set (w1 := set_self _ w).
    pose proof (reply_sends (msg_room m) "Type !quiet to stop eval printing." w1) as Hack.
    set (w2 := snd (reply _ _ w1)) in *.
    pose proof (sends_app _ _ _ _ _ Hack (send_last_message_sends (msg_room m) w2))
      as (a1 & a2 & a3 & a4 & a5 & a6 & a7).
    unfold command_footprint, same_context. rewrite a1.
    split; [reflexivity |]. split; [exact a3 |]. split; [exact a4 |].
    split; [| split; [exact a6 | exact a7]].
    eexists. split; [exact a2 |]. split; [cbn; lia |].
    repeat constructor. }
  unfold _handle_command.
  repeat match goal with
         | |- context [String.eqb (command_of ?a) ?b] =>
             destruct (String.eqb_spec (command_of a) b)
         end;
    try congruence; cbn [orb]; cbv zeta;
    first [ apply footprint_gets_reply | apply footprint_random
          | apply footprint_reply | apply footprint_noop ].
Qed.

End Footprints.

Section Commands_more.

Context {Board Move : Type} `{ChessBoard Board Move}.

Implicit Types (w : World Board Move) (m : Chat_Message).

(** X2. A text that is none of the fifteen command words, in any case,
    is ignored: nothing is sent or printed and nothing changes. *)
Theorem unknown_command_ignored m w :
  ~ In (command_of (msg_text m)) command_words ->
  _handle_command m w = (tt, w).
Proof.
  intros Hnot. unfold _handle_command.
  repeat match goal with
         | |- context [String.eqb (command_of ?a) ?b] =>
             let E := fresh "E" in
             destruct (String.eqb_spec (command_of a) b) as [E | ?];
             [exfalso; apply Hnot; rewrite E; cbn; tauto |]
         end.
  reflexivity.
Qed.

Lemma handle_command_roast m :
  command_of (msg_text m) = "roast" ->
  _handle_command (Board := Board) (Move := Move) m =
    (roast ← _get_random_roast; reply (msg_room m) roast).
Proof. intros Hc. unfold _handle_command. rewrite Hc. reflexivity. Qed.

Lemma handle_command_destroy m :
  command_of (msg_text m) = "destroy" \/ command_of (msg_text m) = "troll" ->
  _handle_command (Board := Board) (Move := Move) m =
    (destroy ← _get_random_destroy; reply (msg_room m) destroy).
Proof. intros [Hc | Hc]; unfold _handle_command; rewrite Hc; reflexivity. Qed.

Lemma handle_command_quotes m :
  command_of (msg_text m) = "quotes" ->
  _handle_command (Board := Board) (Move := Move) m =
    (quote ← _get_random_quote; reply (msg_room m) quote).
Proof. intros Hc. unfold _handle_command. rewrite Hc. reflexivity. Qed.

Lemma random_reply (table : list string) m w :
  table <> [] ->
  let w' := snd ((text ← random_choice table; reply (msg_room m) text) w) in
  exists text : string,
    (text ∈ table)
    /\ sent w' = sent w ++ [mkSent (id_ (game_info (self w))) (msg_room m) text]
    /\ rng_pos w' = S (rng_pos w)
    /\ self w' = self w /\ boards w' = boards w /\ stdout w' = stdout w.
Proof.
  intros Hne. cbn zeta. exists (fst (random_choice table w)).
  split; [now apply random_choice_in |]. repeat split.
Qed.

(** X3. [!roast] sends the room one line of the seven roasts, [!destroy]
    and its alias [!troll] one of the seven lines of [destroys], and
    [!quotes] one of the eight quotes, whatever number is drawn; each
    takes one draw from the random source and changes nothing else. *)
Theorem flavour_commands m w :
  let table :=
    if String.eqb (command_of (msg_text m)) "roast" then roasts
    else if String.eqb (command_of (msg_text m)) "quotes" then quotes
    else destroys in
  In (command_of (msg_text m)) ["roast"; "destroy"; "troll"; "quotes"] ->
  let w' := snd (_handle_command m w) in
  exists text : string,
    (text ∈ table)
    /\ sent w' = sent w ++ [mkSent (id_ (game_info (self w))) (msg_room m) text]
    /\ rng_pos w' = S (rng_pos w)
    /\ self w' = self w /\ boards w' = boards w /\ stdout w' = stdout w.
Proof.
  cbn zeta. intros [Hc | [Hc | [Hc | [Hc | []]]]]; symmetry in Hc.
  - rewrite (handle_command_roast m Hc), Hc. now apply random_reply.
  - rewrite (handle_command_destroy m (or_introl Hc)), Hc. now apply random_reply.
  - rewrite (handle_command_destroy m (or_intror Hc)), Hc. now apply random_reply.
  - rewrite (handle_command_quotes m Hc), Hc. now apply random_reply.
Qed.



(** X5. In a game with an increment, [!printeval] subscribes the room
    whatever the initial time: the guard of fast games does not apply. A
    room that was not subscribed gets the acknowledgement and then the
    evaluation; for a subscribed room nothing changes. *)
Theorem printeval_with_increment m w :
  command_of (msg_text m) = "printeval" ->
  increment_ms (game_info (self w)) <> 0%Z ->
  let w' := snd (_handle_command m w) in
  print_eval_rooms (self w') = print_eval_rooms (self w) ∪ {[msg_room m]}
  /\ (msg_room m ∉ print_eval_rooms (self w) ->
        sent w' = sent w ++
          [mkSent (id_ (game_info (self w))) (msg_room m)
                  "Type !quiet to stop eval printing.";
           eval_sent w (msg_room m)])
  /\ (msg_room m ∈ print_eval_rooms (self w) -> w' = w).
Proof.
  intros Hc Hinc. cbn zeta.
  assert (Hslow : fast_game (game_info (self w)) = false).
  { unfold fast_game. now destruct (Z.eqb_spec (increment_ms (game_info (self w))) 0). }
  destruct (subscribe_effect m w Hc Hslow) as (Hrooms & _ & Hnoop).
  split; [exact Hrooms |]. split; [| exact Hnoop].
  intros Hout. rewrite (handle_command_printeval m Hc).
  unfold fast_game in Hslow.
  unfold mbind, M_bind, gets, mret, M_ret. cbn [fst snd]. rewrite Hslow.
  destruct (bool_decide_reflect (msg_room m ∈ print_eval_rooms (self w)));
    [contradiction |]. cbn [fst snd].
  match goal with
  | |- context [_send_last_message ?r ?w1] =>
      pose proof (send_last_message_sends r w1) as (_ & a2 & _)
  end.
  rewrite a2.
  unfold reply, send_chat_message, modify, mbind, M_bind, gets, eval_sent.
  cbn [fst snd self sent boards game_info lichess_game set_sent set_self
         set_print_eval_rooms].
  rewrite <- app_assoc. reflexivity.
Qed.

(** X6. [!quiet] sends nothing and prints nothing, and it touches the
    subscription of no other room: a room other than the one it comes
    from is in the registry afterwards exactly when it was before. *)
Theorem quiet_is_local m w :
  command_of (msg_text m) = "quiet" ->
  let w' := snd (_handle_command m w) in
  sent w' = sent w /\ stdout w' = stdout w /\ boards w' = boards w
  /\ (msg_room m ∉ print_eval_rooms (self w'))
  /\ forall r : string,
       r <> msg_room m ->
       (r ∈ print_eval_rooms (self w') <-> r ∈ print_eval_rooms (self w)).
Proof.
  intros Hc. cbn zeta. rewrite (unsubscribe_effect m w Hc). cbn.
  repeat split; try set_solver.
Qed.

End Commands_more.

(** ** Whole conversations *)

Section Conversations.

Context {Board Move : Type} `{ChessBoard Board Move}.

Implicit Types (w : World Board Move) (m : Chat_Message).

Lemma same_context_trans (c1 c2 c3 : Chatter Move) :
  same_context c1 c2 -> same_context c2 c3 -> same_context c1 c3.
Proof.
  unfold same_context. intros H12 H23. rewrite H23, H12.
  destruct c1; reflexivity.
Qed.

Lemma same_context_info (c c' : Chatter Move) :
  same_context c c' ->
  game_info c' = game_info c /\ lichess_game c' = lichess_game c
  /\ username c' = username c.
Proof. unfold same_context. intros ->. repeat split. Qed.

(** The registry after one chat line. *)
Lemma chat_line_registry m w :
  print_eval_rooms (self (snd (handle_chat_message m w)))
  = registry_step (fast_game (game_info (self w))) (print_eval_rooms (self w)) m.
Proof.
  unfold registry_step, effective.
  destruct (String.eqb_spec (msg_username m) "lichess") as [Hl | Hl].
  - rewrite (handle_line_of_lichess m w Hl). cbn [negb andb snd].
    destruct (String.eqb (msg_room m) "player"); reflexivity.
  - rewrite (handle_line_of_user m w Hl). cbn [negb andb].
    set (echoed := if String.eqb (msg_username m) (username (self w)) then w
                   else set_stdout (stdout w ++ [echo_line m]) w).
    assert (Hself : self echoed = self w).
    { unfold echoed. destruct (String.eqb _ (username (self w))); reflexivity. }
    destruct (PyStr.startswith_bang (msg_text m)); cbn [andb snd];
      [| now rewrite Hself].
    rewrite handle_command_self, Hself.
    destruct (String.eqb (command_of (msg_text m)) "printeval");
      [destruct (fast_game (game_info (self w))); reflexivity |].
    destruct (String.eqb (command_of (msg_text m)) "quiet"); reflexivity.
Qed.

(** One chat line: the footprint of a command, and at most one line
    printed. *)
Lemma chat_line_footprint m w :
  let w' := snd (handle_chat_message m w) in
  same_context (self w) (self w')
  /\ (exists out, stdout w' = stdout w ++ out /\ length out <= 1)
  /\ (exists msgs : list Sent,
        sent w' = sent w ++ msgs
        /\ length msgs <= 2
        /\ Forall (fun s => sent_room s = msg_room m
                            /\ sent_game s = id_ (game_info (self w))) msgs)
  /\ next_loc (boards w) <= next_loc (boards w')
  /\ forall l, l < next_loc (boards w) -> cell (boards w') l = cell (boards w) l.
Proof.
  cbn zeta.
  destruct (String.eqb_spec (msg_username m) "lichess") as [Hl | Hl].
  - rewrite (handle_line_of_lichess m w Hl). cbn [snd].
    destruct (String.eqb (msg_room m) "player"); cbn.
    + split; [apply same_context_refl |].
      split; [exists [msg_text m]; split; [reflexivity | cbn; lia] |].
      split; [exists []; rewrite app_nil_r; repeat split; [cbn; lia | constructor] |].
      split; [lia | reflexivity].
    + split; [apply same_context_refl |].
      split; [exists []; rewrite app_nil_r; split; [reflexivity | cbn; lia] |].
      split; [exists []; rewrite app_nil_r; repeat split; [cbn; lia | constructor] |].
      split; [lia | reflexivity].
  - rewrite (handle_line_of_user m w Hl).
    set (echoed := if String.eqb (msg_username m) (username (self w)) then w
                   else set_stdout (stdout w ++ [echo_line m]) w).
    assert (Hecho : self echoed = self w /\ sent echoed = sent w
                    /\ boards echoed = boards w
                    /\ exists out, stdout echoed = stdout w ++ out /\ length out <= 1).
    { unfold echoed. destruct (String.eqb _ (username (self w))); cbn.
      - repeat split. exists []. rewrite app_nil_r. split; [reflexivity | cbn; lia].
      - repeat split. exists [echo_line m]. split; [reflexivity | cbn; lia]. }
    destruct Hecho as (Hself & Hsent & Hboards & Hout).
    destruct (PyStr.startswith_bang (msg_text m)); cbn [snd].
    + destruct (handle_command_footprint m echoed)
        as (c1 & c2 & c3 & c4 & c5 & c6).
      rewrite Hself, Hsent, Hboards in *.
      split; [exact c1 |]. split; [rewrite c2; exact Hout |].
      split; [exact c4 |]. split; [exact c5 | exact c6].
    + rewrite Hself, Hsent, Hboards.
      split; [apply same_context_refl |]. split; [exact Hout |].
      split; [exists []; rewrite app_nil_r; repeat split; [cbn; lia | constructor] |].
      split; [lia | reflexivity].
Qed.


(** X7. Over a whole conversation the chatter object is left alone but
    for its registry (the game, the game information and the user name
    never change); at most two messages are sent per chat line, each
    under the id of the game and to the room of one of the lines; at most
    one line is printed per chat line; and every board object that
    existed is as it was. *)
Theorem conversation_footprint (lines : list Chat_Message) w :
  let w' := snd (handle_all lines w) in
  same_context (self w) (self w')
  /\ (exists out, stdout w' = stdout w ++ out /\ length out <= length lines)
  /\ (exists msgs : list Sent,
        sent w' = sent w ++ msgs
        /\ length msgs <= 2 * length lines
        /\ Forall (fun s => sent_game s = id_ (game_info (self w))
                            /\ exists m, m ∈ lines /\ sent_room s = msg_room m) msgs)
  /\ forall l, l < next_loc (boards w) -> cell (boards w') l = cell (boards w) l.
Proof.
  cbn zeta. revert w. induction lines as [|m rest IH]; intros w.
  - cbn. split; [apply same_context_refl |].
    split; [exists []; rewrite app_nil_r; split; [reflexivity | cbn; lia] |].
    split; [exists []; rewrite app_nil_r; repeat split; [cbn; lia | constructor] |].
    reflexivity.
  - unfold handle_all in *. cbn [for_each]. unfold mbind, M_bind.
    destruct (chat_line_footprint m w) as (a1 & (o1 & a2 & a3) & (s1 & a4 & a5 & a6) & a7 & a8).
    set (w1 := snd (handle_chat_message m w)) in *.
    destruct (IH w1) as (b1 & (o2 & b2 & b3) & (s2 & b4 & b5 & b6) & b8).
    destruct (same_context_info _ _ a1) as (Hinfo & _).
    split; [exact (same_context_trans _ _ _ a1 b1) |].
    split; [exists (o1 ++ o2); split;
            [rewrite b2, a2; now rewrite app_assoc
            | rewrite length_app; cbn [length]; lia] |].
    split.
    + exists (s1 ++ s2). split; [rewrite b4, a4; now rewrite app_assoc |].
      split; [rewrite length_app; cbn [length]; lia |].
      apply Forall_app. split.
      * eapply Forall_impl; [exact a6 |]. cbn. intros s [Hroom Hid].
        split; [exact Hid |]. exists m. split; [apply list_elem_of_here | exact Hroom].
      * eapply Forall_impl; [exact b6 |]. cbn. intros s [Hid (m' & Hin & Hroom)].
        split; [now rewrite Hid, Hinfo |].
        exists m'. split; [now apply list_elem_of_further | exact Hroom].
    + intros l Hl. rewrite b8, a8; auto; lia.
Qed.

(** X8. The registry after a conversation is the registry before it,
    updated line by line: a line that takes effect as [printeval] adds
    its room unless the game is under the guard of fast games, a line
    that takes effect as [quiet] removes its room, and no other line
    changes it. *)
Theorem registry_follows_commands (lines : list Chat_Message) w :
  print_eval_rooms (self (snd (handle_all lines w)))
  = fold_left (registry_step (fast_game (game_info (self w)))) lines
              (print_eval_rooms (self w)).
Proof.
  revert w. induction lines as [|m rest IH]; intros w; [reflexivity |].
  unfold handle_all in *. cbn [for_each fold_left]. unfold mbind, M_bind.
  rewrite IH, chat_line_registry.
  destruct (chat_line_footprint m w) as (Hctx & _).
  destruct (same_context_info _ _ Hctx) as (-> & _). reflexivity.
Qed.

Lemma fast_step_shrinks (rooms : gset string) m :
  registry_step true rooms m ⊆ rooms.
Proof.
  unfold registry_step.
  destruct (effective "printeval" m); [reflexivity |].
  destruct (effective "quiet" m); set_solver.
Qed.

(** X9. In a game under the guard of fast games (no increment, less
    than three minutes) no conversation ever subscribes a room: the
    registry only shrinks, and from the empty registry of the constructor
    a tick of the broadcast never sends anything. *)
Theorem fast_game_never_broadcasts (lines : list Chat_Message) w :
  fast_game (game_info (self w)) = true ->
  let w' := snd (handle_all lines w) in
  print_eval_rooms (self w') ⊆ print_eval_rooms (self w)
  /\ (print_eval_rooms (self w) = ∅ -> sent (snd (print_eval w')) = sent w').
Proof.
  intros Hfast. cbn zeta.
  assert (Hsub : forall w0 : World Board Move,
             fast_game (game_info (self w0)) = true ->
             print_eval_rooms (self (snd (handle_all lines w0)))
             ⊆ print_eval_rooms (self w0)).
  { induction lines as [|m rest IH]; intros w0 Hw0; [reflexivity |].
    unfold handle_all in *. cbn [for_each]. unfold mbind, M_bind.
    destruct (chat_line_footprint m w0) as (Hctx & _).
    destruct (same_context_info _ _ Hctx) as (Hinfo & _).
    etransitivity; [apply IH; now rewrite Hinfo |].
    rewrite chat_line_registry, Hw0. apply fast_step_shrinks. }
  specialize (Hsub w Hfast).
  split; [exact Hsub |].
  intros Hempty. rewrite Hempty in Hsub.
  assert (Hnone : print_eval_rooms (self (snd (handle_all lines w))) = ∅)
    by set_solver.
  unfold print_eval, mbind, M_bind, gets, mret, M_ret. cbn [fst snd].
  destruct (_ && _); [reflexivity |].
  rewrite Hnone, elements_empty. reflexivity.
Qed.

End Conversations.

(** ** What [_send_last_message] sends *)

Section EvalText.

Context {Board Move : Type} `{ChessBoard Board Move}.

Implicit Types (w : World Board Move).

Import Text.

Lemma replace_without_engine (s : string) :
  occurs "Engine" s = false ->
  PyStr.replace_from "Engine" "Evaluation" 0 s = s.
Proof.
  induction s as [|c s IH]; intros Ho; [reflexivity |].
  rewrite occurs_cons in Ho. apply orb_false_iff in Ho as [Hp Ho].
  cbn [PyStr.replace_from]. rewrite Hp, (IH Ho). reflexivity.
Qed.

Lemma pv_label_prefix (b : Board) (initial_message : string) :
  String.prefix (initial_message
                 +:+ (if PyStr.truthy initial_message then " PV:" else "PV:"))
                (pv_label b initial_message) = true.
Proof.
  unfold pv_label. destruct (PyStr.truthy initial_message).
  - rewrite str_app_assoc. destruct (turn b).
    + apply str_prefix_app_same.
    + change (" " +:+ "PV: " +:+ PyStr.of_int (fullmove_number b) +:+ "...")
        with (" PV:" +:+ " " +:+ PyStr.of_int (fullmove_number b) +:+ "...").
      rewrite <- (str_app_assoc initial_message " PV:"). apply str_prefix_app.
  - destruct (turn b).
    + apply str_prefix_app_same.
    + change ("PV: " +:+ PyStr.of_int (fullmove_number b) +:+ "...")
        with ("PV:" +:+ " " +:+ PyStr.of_int (fullmove_number b) +:+ "...").
      rewrite <- (str_app_assoc initial_message "PV:"). apply str_prefix_app.
Qed.


Lemma eval_text_elsewhere (game : Lichess_Game Move) (h : Store Board) (room : string) :
  room <> "spectator" ->
  eval_text game h room
  = normalise (PyStr.replace "Engine" "Evaluation" (last_message game)).
Proof.
  intros Hr. unfold eval_text.
  destruct (String.eqb_spec room "spectator"); [contradiction | reflexivity].
Qed.

(** X10. The evaluation that a room other than the spectator room gets
    is clean: its words are separated by single spaces, with no other
    white space and none at either end, and the word [Engine] does not
    occur in it. *)
Theorem eval_message_is_clean (room : string) w :
  room <> "spectator" ->
  exists text : string,
    sends [mkSent (id_ (game_info (self w))) room text] w
          (snd (_send_last_message room w))
    /\ tidy text = true
    /\ occurs "Engine" text = false.
Proof.
  intros Hr. exists (eval_text (lichess_game (self w)) (boards w) room).
  split; [apply send_last_message_sends |].
  rewrite (eval_text_elsewhere _ _ _ Hr).
  split; [apply normalise_tidy |].
  destruct (occurs "Engine" (normalise _)) eqn:Ho; [| reflexivity].
  apply (occurs_normalise "Engine" _ eq_refl) in Ho.
  unfold PyStr.replace in Ho. now rewrite replaced_no_engine in Ho.
Qed.

(** X11. A message of the engine that is clean already (single spaces,
    no [Engine]) is sent to such a room as it is; and cleaning twice is
    cleaning once. *)
Theorem clean_message_sent_as_is (room : string) w :
  room <> "spectator" ->
  tidy (last_message (lichess_game (self w))) = true ->
  occurs "Engine" (last_message (lichess_game (self w))) = false ->
  sends [mkSent (id_ (game_info (self w))) room (last_message (lichess_game (self w)))]
        w (snd (_send_last_message room w))
  /\ forall s : string, normalise (normalise s) = normalise s.
Proof.
  intros Hr Htidy Hno. split.
  - pose proof (send_last_message_sends room w) as Hs.
    unfold eval_sent in Hs. rewrite (eval_text_elsewhere _ _ _ Hr) in Hs.
    unfold PyStr.replace in Hs.
    rewrite (replace_without_engine _ Hno), (normalise_of_tidy _ Htidy) in Hs.
    exact Hs.
  - intros s. apply normalise_of_tidy, normalise_tidy.
Qed.

Lemma pv_text_prefix (game : Lichess_Game Move) (h : Store Board) (initial_message : string) :
  String.prefix initial_message (pv_text game h initial_message) = true.
Proof.
  unfold pv_text. destruct (length (last_pv game) <? 2)%nat;
    [apply str_prefix_app_same |].
  assert (Hl : String.prefix initial_message
                 (pv_label (walk_start game h) initial_message) = true).
  { apply (str_prefix_weaken _ (if PyStr.truthy initial_message then " PV:" else "PV:")).
    apply pv_label_prefix. }
  now apply pv_walk_prefix.
Qed.

(** X12. The spectator room gets what every other room gets, followed
    by the principal variation: the text sent to any other room is a
    prefix of the text sent to the spectator room, and with fewer than
    two moves expected the two are the same. *)
Theorem spectators_get_more (room : string) w :
  room <> "spectator" ->
  exists text text' : string,
    sends [mkSent (id_ (game_info (self w))) room text] w
          (snd (_send_last_message room w))
    /\ sends [mkSent (id_ (game_info (self w))) "spectator" text'] w
             (snd (_send_last_message "spectator" w))
    /\ String.prefix text text' = true
    /\ (length (last_pv (lichess_game (self w))) < 2 -> text' = text).
Proof.
  intros Hr.
  exists (eval_text (lichess_game (self w)) (boards w) room),
         (eval_text (lichess_game (self w)) (boards w) "spectator").
  split; [apply send_last_message_sends |].
  split; [apply send_last_message_sends |].
  rewrite (eval_text_elsewhere _ _ _ Hr). unfold eval_text. cbn [String.eqb].
  change (String.eqb "spectator" "spectator") with true. cbn iota.
  split; [apply pv_text_prefix |].
  intros Hlen. unfold pv_text.
  destruct (Nat.ltb_spec (length (last_pv (lichess_game (self w)))) 2);
    [reflexivity | lia].
Qed.

(** *** More on the PV builder *)

Lemma pv_states_last_length (moves : list Move) :
  forall (b : Board) (text : string),
    String.length text <= String.length (List.last (pv_states b moves text) text).
Proof.
  induction moves as [|move rest IH]; intros b text; [cbn; lia |].
  cbn [pv_states].
  set (text' := text +:+ pv_token b move).
  assert (Hlen : String.length text <= String.length text').
  { unfold text'. rewrite str_length_app. lia. }
  destruct (pv_states (push b move) rest text') as [|s ss] eqn:Hst.
  - cbn. exact Hlen.
  - change (List.last (text' :: s :: ss) text) with (List.last (s :: ss) text).
    rewrite (last_default _ text text') by discriminate.
    rewrite <- Hst. specialize (IH (push b move) text'). lia.
Qed.

Lemma pv_walk_all (moves : list Move) :
  forall (b : Board) (text : string),
    String.length (List.last (pv_states b moves text) text) <= 140 ->
    pv_walk b moves text text = List.last (pv_states b moves text) text.
Proof.
  induction moves as [|move rest IH]; intros b text Hfit; [reflexivity |].
  cbn [pv_walk pv_states] in *.
  set (text' := text +:+ pv_token b move) in *.
  assert (Hlast : List.last (text' :: pv_states (push b move) rest text') text
                  = List.last (pv_states (push b move) rest text') text').
  { destruct (pv_states (push b move) rest text') as [|s ss]; [reflexivity |].
    change (List.last (text' :: s :: ss) text) with (List.last (s :: ss) text).
    apply last_default. discriminate. }
  rewrite Hlast in *.
  pose proof (pv_states_last_length rest (push b move) text') as Hmono.
  destruct (Nat.ltb_spec 140 (String.length text')); [lia |].
  now apply IH.
Qed.

(** X13. [_append_pv] only appends: what it returns starts with the text
    it was given, followed by [PV:] after a space when that text is not
    empty, if two moves or more are expected. And a principal variation
    that fits is not cut: when the text with all its moves is within 140
    characters, that text is returned. *)
Theorem append_pv_appends (initial_message : string) w :
  let game := lichess_game (self w) in
  let r := fst (_append_pv initial_message w) in
  String.prefix initial_message r = true
  /\ (2 <= length (last_pv game) ->
      let label := pv_label (walk_start game (boards w)) initial_message in
      let whole := List.last (pv_states (walk_start game (boards w)) (tail (last_pv game)) label)
                        label in
      String.prefix (initial_message
                     +:+ (if PyStr.truthy initial_message then " PV:" else "PV:")) r = true
      /\ (String.length whole <= 140 -> r = whole)).
Proof.
  cbn zeta. rewrite append_pv_value. split; [apply pv_text_prefix |].
  intros Hlen. unfold pv_text.
  destruct (Nat.ltb_spec (length (last_pv (lichess_game (self w)))) 2); [lia |].
  split.
  - apply pv_walk_prefix; apply pv_label_prefix.
  - apply pv_walk_all.
Qed.

End EvalText.

(** ** More on the formatter *)

Section Formatter_more.

Import PyFormat Template Markup.

Variable mapping : gmap string string.

(** A field whose name has no special character is read up to its closing
    brace and rendered. *)
Lemma run_field (n out rest : string) :
  all_chars (fun c => negb (is_special c)) n = true ->
  run mapping out InText ("{" +:+ n +:+ "}" +:+ rest)
  = match emit mapping out n None "" with
    | Returned (out', m') => run mapping out' m' rest
    | Raised e => Raised e
    | NotModelled => NotModelled
    end.
Proof.
  intros Hn. rewrite str_app_cons, str_app_empty_l.
  cbn [run]. unfold step at 1. change (Ascii.eqb "{" "{") with true. cbn iota.
  destruct n as [|c n].
  - rewrite str_app_empty_l, str_app_cons. cbn [run]. reflexivity.
  - cbn [all_chars] in Hn. apply andb_prop in Hn as [Hc Hn].
    rewrite str_app_cons. cbn [run]. unfold step at 1.
    assert (Hopen : Ascii.eqb c "{" = false).
    { unfold is_special, is_brace in Hc.
      destruct (Ascii.eqb c "{"); [discriminate | reflexivity]. }
    rewrite Hopen, (not_special_step _ _ _ _ Hc), (run_name _ _ _ _ _ Hn).
    rewrite str_app_empty_l. reflexivity.
Qed.

Lemma run_plain_pieces (ps : list piece) :
  forall out rest : string,
    forallb piece_plain ps = true ->
    run mapping out InText (written ps +:+ rest)
    = run mapping (out +:+ filled mapping ps) InText rest.
Proof.
  induction ps as [|[s | n] ps IH]; intros out rest Hok.
  - cbn. now rewrite str_app_empty_r.
  - cbn [forallb piece_plain] in Hok. apply andb_prop in Hok as [Hs Hok].
    cbn [written filled]. rewrite str_app_assoc, (run_text _ _ _ _ Hs), (IH _ _ Hok).
    now rewrite str_app_assoc.
  - cbn [forallb piece_plain] in Hok. apply andb_prop in Hok as [Hn Hok].
    cbn [written filled]. rewrite !str_app_assoc.
    change (("{" +:+ n +:+ "}" +:+ written ps +:+ rest))
      with ("{" +:+ n +:+ "}" +:+ (written ps +:+ rest)).
    rewrite (run_placeholder _ _ _ _ Hn), (IH _ _ Hok).
    now rewrite str_app_assoc.
Qed.

Lemma run_escape (s : string) :
  forall out : string, run mapping out InText (escape s) = Returned (out +:+ s).
Proof.
  induction s as [|c s IH]; intros out.
  - cbn. now rewrite str_app_empty_r.
  - destruct (Ascii.eqb_spec c "{") as [-> | Hopen].
    + change (escape (String "{" s)) with (String "{" (String "{" (escape s))).
      cbn [run].
      change (step mapping out InText "{") with (Returned (A := string * mode) (out, AfterOpen)).
      cbn iota.
      change (step mapping out AfterOpen "{")
        with (Returned (A := string * mode) (out +:+ "{", InText)).
      cbn iota. rewrite IH. now rewrite str_app_assoc.
    + destruct (Ascii.eqb_spec c "}") as [-> | Hclose].
      * change (escape (String "}" s)) with (String "}" (String "}" (escape s))).
        cbn [run].
        change (step mapping out InText "}") with (Returned (A := string * mode) (out, AfterClose)).
        cbn iota.
        change (step mapping out AfterClose "}")
          with (Returned (A := string * mode) (out +:+ "}", InText)).
        cbn iota. rewrite IH. now rewrite str_app_assoc.
      * assert (Hb : is_brace c = false).
        { unfold is_brace.
          destruct (Ascii.eqb_spec c "{"); [contradiction |].
          destruct (Ascii.eqb_spec c "}"); [contradiction | reflexivity]. }
        cbn [escape]. rewrite Hb. cbn [run step].
        destruct (Ascii.eqb_spec c "{"); [contradiction |].
        destruct (Ascii.eqb_spec c "}"); [contradiction |].
        rewrite IH. unfold chr. now rewrite str_app_assoc.
Qed.

Lemma escape_nonempty (s : string) : s <> "" -> escape s <> "".
Proof.
  destruct s as [|c s]; [contradiction |]. intros _. cbn [escape].
  destruct (is_brace c); discriminate.
Qed.

Lemma digits_not_special (n : string) :
  all_chars is_digit n = true -> all_chars (fun c => negb (is_special c)) n = true.
Proof.
  induction n as [|c n IH]; intros Hn; [reflexivity |].
  cbn [all_chars] in *. apply andb_prop in Hn as [Hc Hn]. rewrite (IH Hn), andb_true_r.
  unfold is_digit, digit_val in Hc.
  destruct c as [[] [] [] [] [] [] [] []]; try discriminate Hc; reflexivity.
Qed.

Lemma digits_are_integer (n : string) :
  forall acc : N, all_chars is_digit n = true -> get_integer_from acc n <> NotInt.
Proof.
  induction n as [|c n IH]; intros acc Hn; [discriminate |].
  cbn [all_chars] in Hn. apply andb_prop in Hn as [Hc Hn].
  cbn [get_integer_from]. unfold is_digit in Hc.
  destruct (digit_val c); [| discriminate].
  destruct (_ <? _)%N; [discriminate | now apply IH].
Qed.

(** A field whose name is empty or a number is positional. *)
Lemma positional_field_raises (n out : string) :
  n = "" \/ number n = true ->
  emit mapping out n None "" = Raised ValueError.
Proof.
  intros [-> | Hn]; [reflexivity |].
  unfold number in Hn. apply andb_prop in Hn as [Hne Hd].
  unfold emit, render_field, get_field_object.
  rewrite (split_first_plain _ (digits_not_special _ Hd)).
  destruct n as [|c n]; [discriminate |].
  unfold get_integer.
  pose proof (digits_are_integer (String c n) 0 Hd) as Hint.
  destruct (get_integer_from 0 (String c n)); [contradiction | reflexivity..].
Qed.

End Formatter_more.

Section FormatMessage_more.

Context {Board Move : Type} `{ChessBoard Board Move}.

Import PyFormat Template Markup.

Lemma format_nonempty (username : string) (info : Game_Information)
    (game : Lichess_Game Move) (cpu ram template : string) :
  template <> "" ->
  _format_message username info game cpu ram (Some template)
  = match format_map (format_mapping username info game cpu ram) template with
    | Returned s => Returned (Some s)
    | Raised e => Raised e
    | NotModelled => NotModelled
    end.
Proof.
  intros Hne. unfold _format_message, PyStr.truthy.
  destruct (String.eqb_spec template ""); [contradiction | reflexivity].
Qed.

(** X14. In a template of text without braces and placeholders with plain
    names, [_format_message] puts the name of the opponent for
    [{opponent}] (Black's name when the agent plays White, White's
    otherwise), the user name for [{me}], the name of the engine for
    [{engine}], the hardware strings for [{cpu}] and [{ram}], and the
    empty string for any other name. *)
Theorem format_message_fills (username : string) (info : Game_Information)
    (game : Lichess_Game Move) (cpu ram : string) (ps : list piece) :
  forallb piece_plain ps = true ->
  written ps <> "" ->
  let mapping := format_mapping username info game cpu ram in
  _format_message username info game cpu ram (Some (written ps))
  = Returned (Some (filled mapping ps))
  /\ mapping !! "opponent"
     = Some (if is_white game then black_name info else white_name info)
  /\ mapping !! "me" = Some username
  /\ mapping !! "engine" = Some (name (engine game))
  /\ mapping !! "cpu" = Some cpu
  /\ mapping !! "ram" = Some ram
  /\ forall n : string, known n = false -> mapping !! n = None.
Proof.
  intros Hok Hne. cbn zeta. split.
  - rewrite (format_nonempty _ _ _ _ _ _ Hne). unfold format_map.
    rewrite <- (str_app_empty_r (written ps)).
    rewrite (run_plain_pieces _ _ _ _ Hok). cbn [run]. reflexivity.
  - unfold format_mapping.
    repeat split; try (simplify_map_eq; reflexivity).
    intros n Hn. now apply unknown_lookup.
Qed.

(** X15. Doubling the braces of a text protects it: for every text that
    is not empty, [_format_message] returns the text itself from the text
    with its braces doubled. *)
Theorem format_message_escape (username : string) (info : Game_Information)
    (game : Lichess_Game Move) (cpu ram text : string) :
  text <> "" ->
  _format_message username info game cpu ram (Some (escape text))
  = Returned (Some text).
Proof.
  intros Hne. rewrite (format_nonempty _ _ _ _ _ _ (escape_nonempty _ Hne)).
  unfold format_map. now rewrite run_escape.
Qed.

(** X16. After any well-formed beginning, [_format_message] raises
    [ValueError] for a template that goes on with a positional field
    ([{}] or [{] number [}]), whatever follows; that ends with a single
    brace; or that ends inside a field. *)
Theorem format_message_value_errors (username : string) (info : Game_Information)
    (game : Lichess_Game Move) (cpu ram : string)
    (ps : list piece) (n rest : string) :
  forallb piece_plain ps = true ->
  let fmt (template : string) :=
    _format_message username info game cpu ram (Some template) in
  (n = "" \/ number n = true ->
   fmt (written ps +:+ "{" +:+ n +:+ "}" +:+ rest) = Raised ValueError)
  /\ fmt (written ps +:+ "{") = Raised ValueError
  /\ fmt (written ps +:+ "}") = Raised ValueError
  /\ (plain_name n = true -> fmt (written ps +:+ "{" +:+ n) = Raised ValueError).
Proof.
  intros Hok. cbn zeta.
  assert (Hne : forall tail : string, tail <> "" -> written ps +:+ tail <> "").
  { intros tail Htail Heq. destruct (written ps); [now apply Htail | discriminate]. }
  assert (Hrun : forall tail : string,
             tail <> "" ->
             _format_message username info game cpu ram (Some (written ps +:+ tail))
             = match run (format_mapping username info game cpu ram)
                         (filled (format_mapping username info game cpu ram) ps)
                         InText tail with
               | Returned s => Returned (Some s)
               | Raised e => Raised e
               | NotModelled => NotModelled
               end).
  { intros tail Htail. rewrite (format_nonempty _ _ _ _ _ _ (Hne tail Htail)).
    unfold format_map. rewrite (run_plain_pieces _ _ _ _ Hok).
    now rewrite str_app_empty_l. }
  split; [| split; [| split]].
  - intros Hn. rewrite Hrun by discriminate.
    assert (Hspecial : all_chars (fun c => negb (is_special c)) n = true).
    { destruct Hn as [-> | Hn]; [reflexivity |].
      unfold number in Hn. apply andb_prop in Hn as [_ Hd].
      now apply digits_not_special. }
    rewrite (run_field _ _ _ _ Hspecial), (positional_field_raises _ _ _ Hn).
    reflexivity.
  - rewrite Hrun by discriminate. reflexivity.
  - rewrite Hrun by discriminate. reflexivity.
  - intros Hn. rewrite Hrun by discriminate.
    unfold plain_name in Hn. destruct n as [|c n]; [discriminate |].
    destruct (digit_val c); [discriminate |].
    cbn [all_chars] in Hn. apply andb_prop in Hn as [Hc Hn].
    rewrite str_app_cons, str_app_empty_l. cbn [run]. unfold step at 1.
    change (Ascii.eqb "{" "{") with true. cbn iota. cbn [run]. unfold step at 1.
    assert (Hopen : Ascii.eqb c "{" = false).
    { unfold is_special, is_brace in Hc.
      destruct (Ascii.eqb c "{"); [discriminate | reflexivity]. }
    rewrite Hopen, (not_special_step _ _ _ _ Hc).
    generalize (filled (format_mapping username info game cpu ram) ps), ("" +:+ chr c).
    induction n as [|d n IH]; intros out acc; [reflexivity |].
    cbn [all_chars] in Hn. apply andb_prop in Hn as [Hd Hn].
    cbn [run step]. rewrite (not_special_step _ _ _ _ Hd). now apply IH.
Qed.

End FormatMessage_more.

(** ** Greetings, goodbyes and the constructor *)

Section Greetings.

Context {Board Move : Type} `{ChessBoard Board Move}.

Implicit Types (w : World Board Move).

Import PyFormat.

Lemma send_if_set_sends (room : string) (text : option string) w :
  sends (due (id_ (game_info (self w))) room text) w (snd (send_if_set room text w)).
Proof.
  unfold send_if_set, due. destruct text as [t |].
  - destruct (PyStr.truthy t); [apply reply_sends |].
    apply sends_nil, only_allocates_refl.
  - apply sends_nil, only_allocates_refl.
Qed.

Lemma two_sends (room1 room2 : string) (text1 text2 : World Board Move -> option string) w :
  (forall w1 w2 : World Board Move, self w1 = self w2 -> text2 w1 = text2 w2) ->
  sends (due (id_ (game_info (self w))) room1 (text1 w)
         ++ due (id_ (game_info (self w))) room2 (text2 w))
        w
        (snd ((t ← gets text1; send_if_set room1 t;;
               t ← gets text2; send_if_set room2 t) w)).
Proof.
  intros Hstable. unfold mbind, M_bind, gets. cbn [fst snd].
  pose proof (send_if_set_sends room1 (text1 w) w) as H1.
  set (w1 := snd (send_if_set room1 (text1 w) w)) in *.
  pose proof (send_if_set_sends room2 (text2 w1) w1) as H2.
  assert (Hself : self w1 = self w) by apply H1.
  rewrite Hself, (Hstable w1 w Hself) in H2.
  rewrite (Hstable w1 w Hself).
  exact (sends_app _ _ _ _ _ H1 H2).
Qed.

(** X17. [send_greetings] sends the greeting of the players to the player
    room and then that of the spectators to the spectator room, leaving
    out a greeting that is missing or empty, and changes nothing else.
    [send_goodbyes] does the same with the goodbyes, unless the game can
    still be aborted: then it sends nothing. *)
Theorem greetings_and_goodbyes w :
  let game_id := id_ (game_info (self w)) in
  sends (due game_id "player" (player_greeting (self w))
         ++ due game_id "spectator" (spectator_greeting (self w)))
        w (snd (send_greetings w))
  /\ (is_abortable (lichess_game (self w)) = true -> snd (send_goodbyes w) = w)
  /\ (is_abortable (lichess_game (self w)) = false ->
      sends (due game_id "player" (player_goodbye (self w))
             ++ due game_id "spectator" (spectator_goodbye (self w)))
            w (snd (send_goodbyes w))).
Proof.
  cbn zeta. split; [| split].
  - apply (two_sends "player" "spectator"
             (fun w => player_greeting (self w)) (fun w => spectator_greeting (self w))).
    intros w1 w2 Heq. now rewrite Heq.
  - intros Ha. unfold send_goodbyes, mbind at 1, M_bind at 1, gets at 1.
    cbn [fst snd]. rewrite Ha. reflexivity.
  - intros Ha. unfold send_goodbyes, mbind at 1, M_bind at 1, gets at 1.
    cbn [fst snd]. rewrite Ha.
    apply (two_sends "player" "spectator"
             (fun w => player_goodbye (self w)) (fun w => spectator_goodbye (self w))).
    intros w1 w2 Heq. now rewrite Heq.
Qed.

(** X19. A greeting whose template holds nothing but unknown placeholders
    is formatted to the empty string and never sent: with such a greeting
    for the players, [send_greetings] sends the greeting of the spectators
    only. *)
Theorem blank_greeting_not_sent (config : Config) (username : string)
    (info : Game_Information) (game : Lichess_Game Move) (cpu ram draw : string)
    (ps : list Template.piece) w :
  forallb Template.piece_ok ps = true ->
  Template.erased ps = "" ->
  greeting (messages config) = Some (Template.written ps) ->
  __init__ config username info game cpu ram draw = Returned (self w) ->
  sends (due (id_ (game_info (self w))) "spectator" (spectator_greeting (self w)))
        w (snd (send_greetings w)).
Proof.
  intros Hok Hblank Hgreeting Hinit.
  assert (Hpg : player_greeting (self w) = None \/ player_greeting (self w) = Some "").
  { unfold __init__ in Hinit. rewrite Hgreeting in Hinit.
    unfold _format_message at 1 in Hinit.
    destruct (PyStr.truthy (Template.written ps)); cbn [negb] in Hinit.
    - unfold format_map in Hinit. rewrite (run_pieces _ _ _ _ _ _ _ Hok) in Hinit.
      rewrite Hblank in Hinit.
      repeat match type of Hinit with
             | context [match ?o with Returned _ => _ | Raised _ => _ | NotModelled => _ end] =>
                 destruct o; try discriminate
             end.
      injection Hinit as <-. right. reflexivity.
    - repeat match type of Hinit with
             | context [match ?o with Returned _ => _ | Raised _ => _ | NotModelled => _ end] =>
                 destruct o; try discriminate
             end.
      injection Hinit as <-. left. reflexivity. }
  pose proof (two_sends "player" "spectator"
                (fun w => player_greeting (self w)) (fun w => spectator_greeting (self w)) w
                (fun w1 w2 Heq => f_equal spectator_greeting Heq)) as Hs.
  cbn beta in Hs.
  destruct Hpg as [Hpg | Hpg]; rewrite Hpg in Hs; exact Hs.
Qed.

(** The chatter that the constructor returns holds the strings it was
    given. *)
Lemma init_strings (config : Config) (username : string)
    (info : Game_Information) (game : Lichess_Game Move) (cpu ram draw : string)
    (c : Chatter Move) :
  __init__ config username info game cpu ram draw = Returned c ->
  game_info c = info /\ lichess_game c = game
  /\ cpu_message c = cpu /\ draw_message c = draw /\ ram_message c = ram
  /\ name_message c = _get_name_message game (version config).
Proof.
  unfold __init__.
  repeat match goal with
         | |- context [match ?o with Returned _ => _ | Raised _ => _ | NotModelled => _ end] =>
             destruct o; try discriminate
         end.
  intros [= <-]. repeat split.
Qed.

(** X22. The five commands that report on the agent answer with what the
    constructor was given, at any time of the session: in every state
    whose chatter is the constructed one but for its registry, [!cpu],
    [!draw] and [!ram] send the room the hardware and draw strings,
    [!motor] the name of the engine, and [!name] the sentence built from
    the name of the engine and the version of the configuration; one
    message each, an empty string included, and nothing else changes. *)
Theorem report_commands (config : Config) (username : string)
    (info : Game_Information) (game : Lichess_Game Move) (cpu ram draw : string)
    (c : Chatter Move) (m : Chat_Message) w :
  __init__ config username info game cpu ram draw = Returned c ->
  same_context c (self w) ->
  In (command_of (msg_text m)) ["cpu"; "draw"; "motor"; "name"; "ram"] ->
  let word := command_of (msg_text m) in
  let text :=
    if String.eqb word "cpu" then cpu
    else if String.eqb word "draw" then draw
    else if String.eqb word "motor" then name (engine game)
    else if String.eqb word "name" then
      "I am CB-BB, and I use " +:+ name (engine game)
      +:+ " (BotLi " +:+ version config +:+ ")"
    else ram in
  sends [mkSent (id_ info) (msg_room m) text] w (snd (_handle_command m w)).
Proof.
  intros Hinit Hctx Hin. cbn zeta.
  destruct (init_strings _ _ _ _ _ _ _ _ Hinit) as (Hi & Hg & Hcpu & Hdraw & Hram & Hname).
  unfold same_context in Hctx.
  assert (Hfields : game_info (self w) = info /\ lichess_game (self w) = game
                    /\ cpu_message (self w) = cpu /\ draw_message (self w) = draw
                    /\ ram_message (self w) = ram
                    /\ name_message (self w) = _get_name_message game (version config)).
  { rewrite Hctx. cbn. now repeat split. }
  destruct Hfields as (Hi' & Hg' & Hcpu' & Hdraw' & Hram' & Hname').
  rewrite <- Hi'. unfold _handle_command.
  destruct Hin as [Hc | [Hc | [Hc | [Hc | [Hc | []]]]]]; rewrite <- Hc; cbn [String.eqb Ascii.eqb Bool.eqb andb];
    unfold mbind, M_bind, gets; cbn [fst snd].
  - rewrite <- Hcpu'. apply reply_sends.
  - rewrite <- Hdraw'. apply reply_sends.
  - rewrite <- Hg'. apply reply_sends.
  - change ("I am CB-BB, and I use " +:+ name (engine game)
            +:+ " (BotLi " +:+ version config +:+ ")")
      with (_get_name_message game (version config)).
    rewrite <- Hname'. apply reply_sends.
  - rewrite <- Hram'. apply reply_sends.
Qed.

End Greetings.

(** ** The echo of a chat line *)

Lemma take_drop (n : nat) (s : string) : PyStr.take n s +:+ PyStr.drop n s = s.
Proof.
  revert s. induction n as [|n IH]; intros s; [destruct s; reflexivity |].
  destruct s as [|c s]; [reflexivity |].
  cbn [PyStr.take PyStr.drop]. rewrite str_app_cons. now rewrite IH.
Qed.

Lemma take_length (n : nat) (s : string) :
  n <= String.length s -> String.length (PyStr.take n s) = n.
Proof.
  revert s. induction n as [|n IH]; intros s Hn; [destruct s; reflexivity |].
  destruct s as [|c s]; [cbn in Hn; lia |].
  cbn [PyStr.take String.length] in *. rewrite IH; lia.
Qed.

Lemma spaces_length (n : nat) : String.length (PyStr.spaces n) = n.
Proof. induction n as [|n IH]; [reflexivity |]. cbn. now rewrite IH. Qed.

(** X1. The line echoed for a chat line is the author, the room and the
    text when that is at most 128 characters long. A longer line is
    broken once, after its first 128 characters, and the rest, however
    long, follows on a second line indented by the length of the prefix:
    nothing is lost, and the echo is longer than the line by the line
    break and the indentation. *)
Theorem echo_line_breaks_once (m : Chat_Message) :
  let prefix := msg_username m +:+ " (" +:+ msg_room m +:+ "): " in
  let output := prefix +:+ msg_text m in
  (String.length output <= 128 /\ echo_line m = output)
  \/ (128 < String.length output
      /\ exists first rest : string,
           output = first +:+ rest
           /\ String.length first = 128
           /\ echo_line m = first +:+ String "010" ""
                            +:+ PyStr.spaces (String.length prefix) +:+ rest
           /\ String.length (echo_line m)
              = String.length output + 1 + String.length prefix).
Proof.
  cbn zeta. unfold echo_line.
  set (prefix := msg_username m +:+ " (" +:+ msg_room m +:+ "): ").
  set (output := prefix +:+ msg_text m).
  destruct (Nat.ltb_spec 128 (String.length output)) as [Hlong | Hshort];
    [right | left; split; [exact Hshort | reflexivity]].
  split; [exact Hlong |].
  exists (PyStr.take 128 output), (PyStr.drop 128 output).
  split; [now rewrite take_drop |].
  split; [apply take_length; lia |].
  split; [reflexivity |].
  rewrite !str_length_app, spaces_length.
  pose proof (take_drop 128 output) as Htd.
  apply (f_equal String.length) in Htd. rewrite str_length_app in Htd.
  cbn [String.length]. lia.
Qed.

(** ** Floats: rounding to the nearest integer and to the nearest double *)

Section Floats.

Import PyFloat.

Local Open Scope Z_scope.

Lemma nearest_int_exact (q b : Z) : 0 < b -> nearest_int (q * b) b = q.
Proof.
  intros Hb. unfold nearest_int.
  rewrite Z.div_mul, Z.mod_mul by lia.
  destruct (Z.ltb_spec (2 * 0) b); [reflexivity | lia].
Qed.

(** The nearest integer is within half a unit. *)
Lemma nearest_int_close (a b : Z) :
  0 < b -> 2 * Z.abs (a - nearest_int a b * b) <= b.
Proof.
  intros Hb. unfold nearest_int.
  pose proof (Z.div_mod a b ltac:(lia)) as Hdm.
  pose proof (Z.mod_pos_bound a b Hb) as Hr.
  destruct (Z.ltb_spec (2 * (a mod b)) b); [nia |].
  destruct (Z.ltb_spec b (2 * (a mod b))); [nia |].
  destruct (Z.even (a / b)); nia.
Qed.

(** An integer strictly within half a unit is the nearest. *)
Lemma nearest_int_unique (a b n : Z) :
  0 < b -> 2 * Z.abs (a - n * b) < b -> nearest_int a b = n.
Proof.
  intros Hb Hn. unfold nearest_int.
  pose proof (Z.div_mod a b ltac:(lia)) as Hdm.
  pose proof (Z.mod_pos_bound a b Hb) as Hr.
  assert (Hcases : a / b = n \/ a / b = n - 1) by nia.
  destruct (Z.ltb_spec (2 * (a mod b)) b); [nia |].
  destruct (Z.ltb_spec b (2 * (a mod b))); [nia |].
  nia.
Qed.

Lemma nearest_int_scale (a b c : Z) :
  0 < b -> 0 < c -> nearest_int (a * c) (b * c) = nearest_int a b.
Proof.
  intros Hb Hc. unfold nearest_int.
  rewrite Z.div_mul_cancel_r by lia.
  rewrite Z.mul_mod_distr_r by lia.
  replace (2 * (a mod b * c)) with (2 * (a mod b) * c) by ring.
  destruct (Z.ltb_spec (2 * (a mod b)) b), (Z.ltb_spec (2 * (a mod b) * c) (b * c));
    try nia; try reflexivity.
  destruct (Z.ltb_spec b (2 * (a mod b))), (Z.ltb_spec (b * c) (2 * (a mod b) * c));
    try nia; reflexivity.
Qed.


Lemma pow2_pos (k : Z) : 0 <= k -> 0 < 2 ^ k.
Proof. intros Hk. apply Z.pow_pos_nonneg; lia. Qed.

(** Comparisons of [a * 2 ^ i] with [b * 2 ^ j] depend on [j - i] only. *)
Lemma scale_lt (a b i j d : Z) :
  0 <= i -> 0 <= j -> 0 <= d ->
  (a * 2 ^ (i + d) < b * 2 ^ (j + d) <-> a * 2 ^ i < b * 2 ^ j).
Proof.
  intros Hi Hj Hd. rewrite !Z.pow_add_r by lia.
  pose proof (pow2_pos d Hd). nia.
Qed.

Lemma scale_le (a b i j d : Z) :
  0 <= i -> 0 <= j -> 0 <= d ->
  (a * 2 ^ (i + d) <= b * 2 ^ (j + d) <-> a * 2 ^ i <= b * 2 ^ j).
Proof.
  intros Hi Hj Hd. rewrite !Z.pow_add_r by lia.
  pose proof (pow2_pos d Hd). nia.
Qed.

Lemma shift_lt (a b k K : Z) :
  0 <= K -> 0 <= k + K ->
  (shift_num a k < shift_den b k <-> a * 2 ^ (k + K) < b * 2 ^ K).
Proof.
  intros HK HkK. unfold shift_num, shift_den.
  destruct (Z.leb_spec 0 k).
  - rewrite Z.pow_add_r by lia.
    pose proof (pow2_pos K HK). pose proof (pow2_pos k ltac:(lia)).
    generalize dependent (2 ^ K). generalize dependent (2 ^ k). intros; nia.
  - replace K with (- k + (k + K)) at 2 by lia.
    rewrite (Z.pow_add_r 2 (- k) (k + K)) by lia.
    pose proof (pow2_pos (k + K) HkK). pose proof (pow2_pos (- k) ltac:(lia)).
    generalize dependent (2 ^ (k + K)). generalize dependent (2 ^ (- k)). intros; nia.
Qed.

(** The binade: [2 ^ e <= a / b < 2 ^ (e + 1)], at any scale [K]. *)
Lemma binade_spec (a b K : Z) :
  0 < a -> 0 < b -> 0 <= K -> 0 <= binade a b + K ->
  b * 2 ^ (binade a b + K) <= a * 2 ^ K
  /\ a * 2 ^ K < b * 2 ^ (binade a b + 1 + K).
Proof.
  intros Ha Hb HK. unfold binade.
  pose proof (Z.log2_spec a Ha) as [Hla1 Hla2].
  pose proof (Z.log2_spec b Hb) as [Hlb1 Hlb2].
  pose proof (Z.log2_nonneg a) as Hla. pose proof (Z.log2_nonneg b) as Hlb.
  set (la := Z.log2 a) in *. set (lb := Z.log2 b) in *.
  rewrite <- Z.add_1_r in Hla2, Hlb2.
  assert (Hup : forall K', 0 <= K' -> 0 <= la - lb + 1 + K' ->
                           a * 2 ^ K' < b * 2 ^ (la - lb + 1 + K')).
  { intros K' HK' Hs.
    assert (a * 2 ^ K' < 2 ^ lb * 2 ^ (la - lb + 1 + K')).
    { rewrite <- Z.pow_add_r by lia. replace (lb + (la - lb + 1 + K')) with (la + 1 + K') by lia.
      rewrite Z.pow_add_r by lia. pose proof (pow2_pos K' HK'). nia. }
    pose proof (pow2_pos (la - lb + 1 + K') Hs). nia. }
  assert (Hlow : forall K', 0 <= K' -> 0 <= la - lb - 1 + K' ->
                            b * 2 ^ (la - lb - 1 + K') <= a * 2 ^ K').
  { intros K' HK' Hs.
    assert (2 ^ (lb + 1) * 2 ^ (la - lb - 1 + K') <= a * 2 ^ K').
    { rewrite <- Z.pow_add_r by lia. replace (lb + 1 + (la - lb - 1 + K')) with (la + K') by lia.
      rewrite Z.pow_add_r by lia. pose proof (pow2_pos K' HK'). nia. }
    pose proof (pow2_pos (la - lb - 1 + K') Hs). nia. }
  destruct (Z.ltb_spec (shift_num a (- (la - lb))) (shift_den b (- (la - lb)))) as [Ht | Ht];
    intros HeK.
  - split; [apply Hlow; lia |].
    replace (la - lb - 1 + 1 + K) with (la - lb + K) by lia.
    apply (shift_lt a b (- (la - lb)) (la - lb + K)) in Ht; [| lia | lia].
    replace (- (la - lb) + (la - lb + K)) with K in Ht by lia. exact Ht.
  - split; [| apply Hup; lia].
    assert (Hnot : ~ a * 2 ^ K < b * 2 ^ (la - lb + K)).
    { intros Hlt. apply (Zle_not_lt _ _ Ht).
      apply (shift_lt a b (- (la - lb)) (la - lb + K)); [lia | lia |].
      replace (- (la - lb) + (la - lb + K)) with K by lia. exact Hlt. }
    lia.
Qed.

Lemma binade_unique (a b E K : Z) :
  0 < a -> 0 < b -> 0 <= K -> 0 <= E + K ->
  b * 2 ^ (E + K) <= a * 2 ^ K -> a * 2 ^ K < b * 2 ^ (E + 1 + K) ->
  binade a b = E.
Proof.
  intros Ha Hb HK HEK Hlow Hup.
  set (e := binade a b).
  set (K' := K + Z.abs e + Z.abs E + 1).
  assert (HK' : 0 <= K') by lia.
  destruct (binade_spec a b K' Ha Hb HK' ltac:(lia)) as [Hl Hu]. fold e in Hl, Hu.
  assert (Hlow' : b * 2 ^ (E + K') <= a * 2 ^ K').
  { replace (E + K') with (E + K + (K' - K)) by lia.
    replace K' with (K + (K' - K)) at 2 by lia.
    apply scale_le; lia. }
  assert (Hup' : a * 2 ^ K' < b * 2 ^ (E + 1 + K')).
  { replace (E + 1 + K') with (E + 1 + K + (K' - K)) by lia.
    replace K' with (K + (K' - K)) at 1 by lia.
    apply scale_lt; lia. }
  destruct (Z.lt_trichotomy e E) as [Hlt | [Heq | Hgt]]; [| exact Heq |]; exfalso.
  - assert (2 ^ (e + 1 + K') <= 2 ^ (E + K')) by (apply Z.pow_le_mono_r; lia).
    nia.
  - assert (2 ^ (E + 1 + K') <= 2 ^ (e + K')) by (apply Z.pow_le_mono_r; lia).
    nia.
Qed.

(** A ratio that is a double already is its own nearest double: with
    [a / b = M * 2 ^ s] for a mantissa [M] of 53 bits and [s <= 0]. *)
Lemma nearest_double_exact (a b M s : Z) :
  0 < a -> 0 < b ->
  2 ^ 52 <= M < 2 ^ 53 -> -1074 <= s <= 0 ->
  a * 2 ^ (- s) = M * b ->
  nearest_double a b = Some (mkDouble M s).
Proof.
  intros Ha Hb HM Hs Heq. unfold nearest_double.
  assert (He : binade a b = s + 52).
  { apply (binade_unique a b (s + 52) (- s)); try lia.
    - replace (s + 52 + - s) with 52 by lia. rewrite Heq. nia.
    - replace (s + 52 + 1 + - s) with 53 by lia. rewrite Heq. nia. }
  rewrite He. replace (s + 52 - 52) with s by lia.
  rewrite Z.max_l by lia. cbv zeta.
  assert (Hm : nearest_int (shift_num a (- s)) (shift_den b (- s)) = M).
  { unfold shift_num, shift_den.
    destruct (Z.leb_spec 0 (- s)); [| lia].
    rewrite Heq. apply nearest_int_exact; lia. }
  rewrite Hm.
  assert (Ht : (2 ^ 1024 <=? shift_num M s) && (0 <=? s) = false).
  { destruct (Z.leb_spec 0 s); [| apply andb_false_r].
    assert (s = 0) by lia. subst s.
    unfold shift_num. change (0 <=? 0) with true. cbv iota.
    rewrite Z.pow_0_r, Z.mul_1_r, andb_true_r.
    apply Z.leb_gt.
    assert (2 ^ 53 <= 2 ^ 1024) by (apply Z.pow_le_mono_r; lia). lia. }
  rewrite Ht. reflexivity.
Qed.


Lemma pad1_digit (r : Z) :
  0 <= r < 10 -> pad 1 (PyStr.of_int r) = PyStr.of_int r.
Proof.
  intros Hr.
  assert (Hall : forallb (fun n => String.eqb (pad 1 (PyStr.of_int (Z.of_nat n)))
                                              (PyStr.of_int (Z.of_nat n)))
                         (seq 0 10) = true) by (vm_compute; reflexivity).
  rewrite forallb_forall in Hall.
  specialize (Hall (Z.to_nat r)). rewrite Z2Nat.id in Hall by lia.
  apply String.eqb_eq, Hall, in_seq. lia.
Qed.

Lemma pad2_digits (r : Z) :
  0 <= r < 100 ->
  pad 2 (PyStr.of_int r) = PyStr.of_int (r / 10) +:+ PyStr.of_int (r mod 10).
Proof.
  intros Hr.
  assert (Hall : forallb (fun n => String.eqb
                                     (pad 2 (PyStr.of_int (Z.of_nat n)))
                                     (PyStr.of_int (Z.of_nat n / 10)
                                      +:+ PyStr.of_int (Z.of_nat n mod 10)))
                         (seq 0 100) = true) by (vm_compute; reflexivity).
  rewrite forallb_forall in Hall.
  specialize (Hall (Z.to_nat r)). rewrite Z2Nat.id in Hall by lia.
  apply String.eqb_eq, Hall, in_seq. lia.
Qed.

(** [float(n)] is exact for an integer of at most 53 bits. *)
Lemma of_int_exact (n : Z) :
  0 < n < 2 ^ 53 ->
  of_int n = inr (mkDouble (n * 2 ^ (52 - Z.log2 n)) (Z.log2 n - 52)).
Proof.
  intros Hn. unfold of_int, round_ratio.
  destruct (Z.eqb_spec n 0); [lia |].
  pose proof (Z.log2_spec n ltac:(lia)) as [Hl1 Hl2].
  pose proof (Z.log2_nonneg n) as Hl0.
  assert (Hl : Z.log2 n < 53) by (apply Z.log2_lt_pow2; lia).
  set (e := Z.log2 n) in *. rewrite <- Z.add_1_r in Hl2.
  assert (H52 : 2 ^ 52 = 2 ^ e * 2 ^ (52 - e))
    by (rewrite <- Z.pow_add_r by lia; f_equal; lia).
  assert (H53 : 2 ^ 53 = 2 ^ (e + 1) * 2 ^ (52 - e))
    by (rewrite <- Z.pow_add_r by lia; f_equal; lia).
  pose proof (pow2_pos (52 - e) ltac:(lia)) as Hp.
  rewrite Z.abs_eq by lia.
  rewrite (nearest_double_exact n 1 (n * 2 ^ (52 - e)) (e - 52)); try lia.
  - cbn [mant expo]. rewrite Z.sgn_pos by lia. now rewrite Z.mul_1_l.
  - rewrite H52, H53. nia.
  - replace (- (e - 52)) with (52 - e) by lia. lia.
Qed.

(** Dividing a double of 53 bits by [2 ^ 30] only lowers its exponent. *)
Lemma div_by_gib (M s : Z) :
  2 ^ 52 <= M < 2 ^ 53 -> -52 <= s <= 0 ->
  div (mkDouble M s) (mkDouble 1 30) = inr (mkDouble M (s - 30)).
Proof.
  intros HM Hs. unfold div, round_ratio. cbn [mant expo].
  assert (Hk : (0 <=? s - 30) = false) by (apply Z.leb_gt; lia).
  unfold shift_num, shift_den. rewrite Hk.
  destruct (Z.eqb_spec M 0); [lia |].
  rewrite Z.abs_eq by lia. rewrite Z.mul_1_l.
  pose proof (pow2_pos (- (s - 30)) ltac:(lia)) as Hp.
  rewrite (nearest_double_exact M (2 ^ (- (s - 30))) M (s - 30)); try lia.
  cbn [mant expo]. rewrite Z.sgn_pos by lia. now rewrite Z.mul_1_l.
Qed.

(** X20 (_get_ram). For a memory size below [2 ^ 53] bytes the text
    is the size in GiB with one decimal: the tenths [t] of a GiB
    nearest to the size (ties to even), written as [t / 10], a point
    and [t mod 10], followed by " GiB". No error is raised. *)
Theorem get_ram_one_decimal (mem_bytes : Z) :
  0 <= mem_bytes < 2 ^ 53 ->
  let t := nearest_int (10 * mem_bytes) (2 ^ 30) in
  _get_ram mem_bytes
  = inr (PyStr.of_int (t / 10) +:+ "." +:+ PyStr.of_int (t mod 10) +:+ " GiB")
  /\ 0 <= t
  /\ 2 * Z.abs (10 * mem_bytes - t * 2 ^ 30) <= 2 ^ 30.
Proof.
  intros Hmem t.
  assert (Hclose : 2 * Z.abs (10 * mem_bytes - t * 2 ^ 30) <= 2 ^ 30)
    by (apply nearest_int_close; lia).
  assert (Ht : 0 <= t) by lia.
  split; [| split; assumption].
  destruct (Z.eq_dec mem_bytes 0) as [-> | Hne].
  { reflexivity. }
  unfold _get_ram. rewrite of_int_exact by lia.
  pose proof (Z.log2_spec mem_bytes ltac:(lia)) as [Hl1 Hl2].
  pose proof (Z.log2_nonneg mem_bytes) as Hl0.
  assert (Hl : Z.log2 mem_bytes < 53) by (apply Z.log2_lt_pow2; lia).
  set (e := Z.log2 mem_bytes) in *. rewrite <- Z.add_1_r in Hl2.
  assert (H52 : 2 ^ 52 = 2 ^ e * 2 ^ (52 - e))
    by (rewrite <- Z.pow_add_r by lia; f_equal; lia).
  assert (H53 : 2 ^ 53 = 2 ^ (e + 1) * 2 ^ (52 - e))
    by (rewrite <- Z.pow_add_r by lia; f_equal; lia).
  pose proof (pow2_pos (52 - e) ltac:(lia)) as Hp.
  rewrite div_by_gib; [| rewrite H52, H53; nia | lia].
  f_equal. unfold format_f. cbn [mant expo].
  change (10 ^ Z.of_nat 1) with 10.
  unfold shift_num, shift_den.
  destruct (Z.leb_spec 0 (e - 52 - 30)); [lia |].
  destruct (Z.ltb_spec (mem_bytes * 2 ^ (52 - e)) 0); [nia |].
  assert (Hscale : nearest_int (Z.abs (mem_bytes * 2 ^ (52 - e)) * 10)
                               (1 * 2 ^ (- (e - 52 - 30))) = t).
  { rewrite Z.abs_eq by nia.
    replace (- (e - 52 - 30)) with (30 + (52 - e)) by lia.
    rewrite Z.pow_add_r by lia.
    replace (mem_bytes * 2 ^ (52 - e) * 10) with (10 * mem_bytes * 2 ^ (52 - e)) by lia.
    replace (1 * (2 ^ 30 * 2 ^ (52 - e))) with (2 ^ 30 * 2 ^ (52 - e)) by lia.
    apply nearest_int_scale; lia. }
  rewrite Hscale.
  rewrite pad1_digit by (apply Z.mod_pos_bound; lia).
  rewrite str_app_empty_l, !str_app_assoc. reflexivity.
Qed.

(** X21 (_get_draw_message). With draws disabled the message is the
    fixed refusal. With draws enabled and a score below [10 ^ 15]
    centipawns in absolute value, no error is raised and the score is
    shown in pawns exactly, with two decimals: [score / 100] goes
    through a float and back without any rounding error. The sign of a
    negative score is printed after the "+" and after the "-" of the
    sentence. *)
Theorem draw_message_exact (offer_draw : Offer_Draw_Config) :
  Z.abs (score offer_draw) < 10 ^ 15 ->
  let cents := Z.abs (score offer_draw) in
  let pawns := (if score offer_draw <? 0 then "-" else "")
               +:+ PyStr.of_int (cents / 100) +:+ "."
               +:+ PyStr.of_int (cents mod 100 / 10)
               +:+ PyStr.of_int (cents mod 10) in
  _get_draw_message offer_draw
  = inr (if enabled offer_draw
         then "I will accept/offer draws after move "
              +:+ PyStr.of_int (min_game_length offer_draw) +:+ " "
              +:+ "if the eval is within +" +:+ pawns
              +:+ " to -" +:+ pawns +:+ " for the last "
              +:+ PyStr.of_int (consecutive_moves offer_draw) +:+ " moves."
         else "I will neither accept nor offer draws.").
Proof.
  intros Hs cents pawns. unfold _get_draw_message.
  destruct (enabled offer_draw); [| reflexivity]. cbn [negb].
  assert (Hfmt : exists d, int_true_div (score offer_draw) 100 = inr d
                           /\ format_f 2 d = pawns).
  { unfold int_true_div, round_ratio.
    destruct (Z.eqb_spec (score offer_draw) 0) as [H0 | Hne].
    { eexists; split; [reflexivity |]. subst pawns cents. rewrite H0. reflexivity. }
    fold cents. assert (Hc : 0 < cents < 10 ^ 15) by (subst cents; lia).
    unfold nearest_double.
    assert (HE : -7 <= binade cents 100 <= 43).
    { unfold binade. cbv zeta. change (Z.log2 100) with 6.
      pose proof (Z.log2_nonneg cents).
      assert (Z.log2 cents < 50)
        by (apply Z.log2_lt_pow2; [lia |]; change (2 ^ 50) with 1125899906842624; lia).
      destruct (shift_num cents _ <? _); lia. }
    set (E := binade cents 100) in *.
    rewrite Z.max_l by lia. cbv zeta.
    assert (Hx : (0 <=? E - 52) = false) by (apply Z.leb_gt; lia).
    rewrite Hx, andb_false_r.
    eexists; split; [reflexivity |].
    unfold format_f. cbn [mant expo]. change (10 ^ Z.of_nat 2) with 100.
    unfold shift_num, shift_den. rewrite Hx.
    replace (- (E - 52)) with (52 - E) by lia.
    replace (if 0 <=? 52 - E then cents * 2 ^ (52 - E) else cents)
      with (cents * 2 ^ (52 - E)) by (destruct (Z.leb_spec 0 (52 - E)); [reflexivity | lia]).
    replace (if 0 <=? 52 - E then 100 else 100 * 2 ^ (- (52 - E)))
      with 100 by (destruct (Z.leb_spec 0 (52 - E)); [reflexivity | lia]).
    set (m := nearest_int (cents * 2 ^ (52 - E)) 100).
    pose proof (nearest_int_close (cents * 2 ^ (52 - E)) 100 ltac:(lia)) as Hclose.
    fold m in Hclose.
    assert (Hpow : 2 ^ 9 <= 2 ^ (52 - E)) by (apply Z.pow_le_mono_r; lia).
    change (2 ^ 9) with 512 in Hpow.
    assert (Hm : 0 < m) by nia.
    assert (Hback : nearest_int (Z.abs (Z.sgn (score offer_draw) * m) * 100)
                                (1 * 2 ^ (52 - E)) = cents).
    { rewrite Z.abs_mul, (Z.abs_eq m) by lia.
      replace (Z.abs (Z.sgn (score offer_draw))) with 1 by lia.
      apply nearest_int_unique; lia. }
    rewrite Hback.
    assert (Hsign : (Z.sgn (score offer_draw) * m <? 0) = (score offer_draw <? 0)).
    { destruct (Z.ltb_spec (score offer_draw) 0), (Z.ltb_spec (Z.sgn (score offer_draw) * m) 0);
        try reflexivity; exfalso.
      - rewrite Z.sgn_neg in * by lia. lia.
      - rewrite Z.sgn_pos in * by lia. lia. }
    rewrite Hsign, pad2_digits by (apply Z.mod_pos_bound; lia).
    subst pawns.
    replace (cents mod 100 mod 10) with (cents mod 10)
      by (symmetry; apply Z.mod_mod_divide; exists 10; lia).
    reflexivity. }
  destruct Hfmt as (d & -> & ->). reflexivity.
Qed.

End Floats.

(** ** The further properties on the sessions of [Sheet] *)

(** [!hello] is no command. *)
Lemma unknown_command_ignored_example :
  _handle_command (Sheet.line "player" "!hello")
                  (Sheet.the_world Sheet.blitz Sheet.the_game ∅)
  = (tt, Sheet.the_world Sheet.blitz Sheet.the_game ∅).
Proof.
  apply unknown_command_ignored. vm_compute. intuition discriminate.
Defined.

(** [!Roast] in the spectator room. *)
Lemma flavour_commands_example :
  let m := Sheet.line "spectator" "!Roast" in
  let w := Sheet.the_world Sheet.blitz Sheet.the_game ∅ in
  exists text : string,
    (text ∈ roasts)
    /\ sent (snd (_handle_command m w)) = [mkSent "g1" "spectator" text].
Proof.
  cbn zeta.
  pose proof (flavour_commands (Sheet.line "spectator" "!Roast")
                (Sheet.the_world Sheet.blitz Sheet.the_game ∅)) as Hf.
  cbv zeta in Hf.
  destruct Hf as (text & Hin & Hsent & _); [vm_compute; tauto |].
  exists text. split; [exact Hin | exact Hsent].
Defined.


(** [!printeval] in a one-minute game with an increment of one second. *)
Lemma printeval_with_increment_example :
  let m := Sheet.line "player" "!printeval" in
  let w := Sheet.the_world (mkGame_Information "g1" 1000 60000 "bot" "Ann")
                           Sheet.the_game ∅ in
  print_eval_rooms (self (snd (_handle_command m w))) = ∅ ∪ {["player"]}
  /\ sent (snd (_handle_command m w))
     = [mkSent "g1" "player" "Type !quiet to stop eval printing.";
        eval_sent w "player"].
Proof.
  cbn zeta.
  pose proof (printeval_with_increment (Sheet.line "player" "!printeval")
                (Sheet.the_world (mkGame_Information "g1" 1000 60000 "bot" "Ann")
                                 Sheet.the_game ∅) eq_refl) as Hp.
  cbv zeta in Hp.
  destruct Hp as (Hrooms & Hnew & _); [discriminate |].
  split; [exact Hrooms | apply Hnew; set_solver].
Defined.

(** [!quiet] from the player room, both rooms being subscribed. *)
Lemma quiet_is_local_example :
  let m := Sheet.line "player" "!quiet" in
  let w := Sheet.the_world Sheet.blitz Sheet.the_game {["player"; "spectator"]} in
  ("spectator" ∈ print_eval_rooms (self (snd (_handle_command m w))))
  /\ ("player" ∉ print_eval_rooms (self (snd (_handle_command m w)))).
Proof.
  cbn zeta.
  pose proof (quiet_is_local (Sheet.line "player" "!quiet")
                (Sheet.the_world Sheet.blitz Sheet.the_game {["player"; "spectator"]})
                eq_refl) as Hq.
  cbv zeta in Hq.
  destruct Hq as (_ & _ & _ & Hout & Hlocal).
  split; [| exact Hout].
  apply Hlocal; [discriminate | set_solver].
Defined.

(** Both rooms ask for the evaluation in the one-minute game. *)
Lemma fast_game_never_broadcasts_example :
  let w := Sheet.the_world Sheet.bullet Sheet.the_game ∅ in
  let w' := snd (handle_all [Sheet.line "player" "!printeval";
                             Sheet.line "spectator" "!printeval"] w) in
  sent (snd (print_eval w')) = sent w'.
Proof.
  cbn zeta.
  pose proof (fast_game_never_broadcasts
                [Sheet.line "player" "!printeval"; Sheet.line "spectator" "!printeval"]
                (Sheet.the_world Sheet.bullet Sheet.the_game ∅) eq_refl) as Hf.
  cbv zeta in Hf.
  destruct Hf as (_ & Hsent). apply Hsent. reflexivity.
Defined.

(** The evaluation for the player room. *)
Lemma eval_message_is_clean_example :
  let w := Sheet.the_world Sheet.blitz Sheet.the_game ∅ in
  exists text : string,
    sends [mkSent "g1" "player" text] w (snd (_send_last_message "player" w))
    /\ Text.tidy text = true
    /\ Text.occurs "Engine" text = false.
Proof.
  cbn zeta.
  apply (eval_message_is_clean "player" (Sheet.the_world Sheet.blitz Sheet.the_game ∅)).
  discriminate.
Defined.

(** A message of the engine without its label and with single spaces. *)
Lemma clean_message_sent_as_is_example :
  let game := mkLichess_Game 0 ["Nf3"; "Nc6"] "+0.35 Depth: 20" false true false
                             (45 # 1) (mkEngine "Stockfish") in
  let w := Sheet.the_world Sheet.blitz game ∅ in
  sends [mkSent "g1" "player" "+0.35 Depth: 20"] w (snd (_send_last_message "player" w)).
Proof.
  cbn zeta.
  apply (clean_message_sent_as_is "player"
           (Sheet.the_world Sheet.blitz
              (mkLichess_Game 0 ["Nf3"; "Nc6"] "+0.35 Depth: 20" false true false
                              (45 # 1) (mkEngine "Stockfish")) ∅));
    [discriminate | reflexivity | reflexivity].
Defined.

(** The player room and the spectator room. *)
Lemma spectators_get_more_example :
  let w := Sheet.the_world Sheet.blitz Sheet.the_game ∅ in
  exists text text' : string,
    sends [mkSent "g1" "player" text] w (snd (_send_last_message "player" w))
    /\ sends [mkSent "g1" "spectator" text'] w (snd (_send_last_message "spectator" w))
    /\ String.prefix text text' = true.
Proof.
  cbn zeta.
  destruct (spectators_get_more "player" (Sheet.the_world Sheet.blitz Sheet.the_game ∅))
    as (text & text' & Hp & Hs & Hprefix & _); [discriminate |].
  exists text, text'. split; [exact Hp |]. split; [exact Hs | exact Hprefix].
Defined.

(** A greeting with two known names and an unknown one. *)
Lemma format_message_fills_example :
  _format_message "bot" Sheet.blitz Sheet.the_game "CPU" "16.0 GiB"
                  (Some "Hi {opponent}, I am {me}{nobody}")
  = PyFormat.Returned (Some "Hi Ann, I am bot").
Proof.
  apply (format_message_fills "bot" Sheet.blitz Sheet.the_game
           "CPU" "16.0 GiB"
           [Template.Text "Hi "; Template.Placeholder "opponent";
            Template.Text ", I am "; Template.Placeholder "me";
            Template.Placeholder "nobody"]).
  - reflexivity.
  - discriminate.
Defined.

(** A text with braces. *)
Lemma format_message_escape_example :
  _format_message "bot" Sheet.blitz Sheet.the_game "CPU" "16.0 GiB"
                  (Some "set {{a}} or {{}}")
  = PyFormat.Returned (Some "set {a} or {}").
Proof.
  apply (format_message_escape "bot" Sheet.blitz Sheet.the_game
           "CPU" "16.0 GiB" "set {a} or {}").
  discriminate.
Defined.

(** A greeting with a positional field. *)
Lemma format_message_value_errors_example :
  _format_message "bot" Sheet.blitz Sheet.the_game "CPU" "16.0 GiB"
                  (Some "Hi {0}!")
  = PyFormat.Raised PyFormat.ValueError.
Proof.
  pose proof (format_message_value_errors "bot" Sheet.blitz
                Sheet.the_game "CPU" "16.0 GiB" [Template.Text "Hi "] "0" "!" eq_refl)
    as Hv.
  cbv zeta in Hv. destruct Hv as (Hfield & _).
  apply Hfield. right. reflexivity.
Defined.

(** A greeting of the players that is an unknown placeholder, and a
    greeting of the spectators. *)
Lemma blank_greeting_not_sent_example :
  let config := mkConfig (mkMessages (Some "{friend}") None (Some "Hello") None) "v1" in
  let c := mkChatter "bot" Sheet.blitz Sheet.the_game "CPU" "no draws"
                     (_get_name_message Sheet.the_game "v1") "16.0 GiB"
                     (Some "") None (Some "Hello") None ∅ in
  let w := mkWorld c Sheet.the_store [] [] (fun _ => 0) 0 in
  __init__ config "bot" Sheet.blitz Sheet.the_game "CPU" "16.0 GiB" "no draws"
  = PyFormat.Returned c
  /\ sent (snd (send_greetings w)) = [mkSent "g1" "spectator" "Hello"].
Proof.
  cbn zeta.
  assert (Hinit : __init__ (mkConfig (mkMessages (Some "{friend}") None (Some "Hello") None)
                                     "v1")
                           "bot" Sheet.blitz Sheet.the_game "CPU" "16.0 GiB" "no draws"
                  = PyFormat.Returned
                      (mkChatter "bot" Sheet.blitz Sheet.the_game "CPU" "no draws"
                                 (_get_name_message Sheet.the_game "v1") "16.0 GiB"
                                 (Some "") None (Some "Hello") None ∅))
    by (vm_compute; reflexivity).
  split; [exact Hinit |].
  apply (blank_greeting_not_sent
           (mkConfig (mkMessages (Some "{friend}") None (Some "Hello") None) "v1")
           "bot" Sheet.blitz Sheet.the_game "CPU" "16.0 GiB" "no draws"
           [Template.Placeholder "friend"]
           (mkWorld (mkChatter "bot" Sheet.blitz Sheet.the_game "CPU" "no draws"
                               (_get_name_message Sheet.the_game "v1") "16.0 GiB"
                               (Some "") None (Some "Hello") None ∅)
                    Sheet.the_store [] [] (fun _ => 0) 0));
    [reflexivity | reflexivity | reflexivity | exact Hinit].
Defined.

(** A machine with 8 GB of memory. *)
Lemma get_ram_one_decimal_example :
  (0 <= 8000000000 < 2 ^ 53)%Z /\ _get_ram 8000000000 = inr "7.5 GiB".
Proof.
  assert (Hmem : (0 <= 8000000000 < 2 ^ 53)%Z) by (split; [discriminate | reflexivity]).
  split; [exact Hmem |].
  pose proof (get_ram_one_decimal 8000000000 Hmem) as Hr.
  cbv zeta in Hr. destruct Hr as (Htext & _). exact Htext.
Defined.

(** Draws within 10 centipawns, after move 35, for 10 moves. *)
Lemma draw_message_exact_example :
  _get_draw_message (mkOffer_Draw_Config true 10 10 35)
  = inr ("I will accept/offer draws after move 35 "
         +:+ "if the eval is within +0.10 to -0.10 for the last 10 moves.").
Proof.
  pose proof (draw_message_exact (mkOffer_Draw_Config true 10 10 35) eq_refl) as Hd.
  cbv zeta in Hd. exact Hd.
Defined.

(** [!NAME] from the spectator room, the player room being subscribed. *)
Lemma report_commands_example :
  let config := mkConfig (mkMessages None None None None) "v1" in
  let c := mkChatter "bot" Sheet.blitz Sheet.the_game "CPU" "no draws"
                     (_get_name_message Sheet.the_game "v1") "16.0 GiB"
                     None None None None ∅ in
  let w := mkWorld (set_print_eval_rooms {["player"]} c) Sheet.the_store [] []
                   (fun _ => 0) 0 in
  __init__ config "bot" Sheet.blitz Sheet.the_game "CPU" "16.0 GiB" "no draws"
  = PyFormat.Returned c
  /\ sent (snd (_handle_command (Sheet.line "spectator" "!NAME") w))
     = [mkSent "g1" "spectator" "I am CB-BB, and I use Stockfish (BotLi v1)"].
Proof.
  cbn zeta. split; [reflexivity |].
  pose proof (report_commands
                (mkConfig (mkMessages None None None None) "v1")
                "bot" Sheet.blitz Sheet.the_game "CPU" "16.0 GiB" "no draws"
                (mkChatter "bot" Sheet.blitz Sheet.the_game "CPU" "no draws"
                           (_get_name_message Sheet.the_game "v1") "16.0 GiB"
                           None None None None ∅)
                (Sheet.line "spectator" "!NAME")
                (mkWorld (set_print_eval_rooms {["player"]}
                            (mkChatter "bot" Sheet.blitz Sheet.the_game "CPU" "no draws"
                                       (_get_name_message Sheet.the_game "v1") "16.0 GiB"
                                       None None None None ∅))
                         Sheet.the_store [] [] (fun _ => 0) 0)
                eq_refl eq_refl) as Hr.
  cbv zeta in Hr.
  destruct Hr as (_ & Hsent & _); [vm_compute; tauto |].
  exact Hsent.
Defined.
